(** * EvolutionaryANN: the training helpers of [src/functions.py]

    A shallow embedding of the helper functions used to evolve a population
    of small [MLPClassifier] networks, and the properties of the written
    specification checked against them.

    Conventions of the embedding.
    - A scalar of a tensor (an [np.float64]) is an exact rational of [Q]:
      rounding is not modelled, and equality of computed values is [Qeq]
      ([==]).  The numbers [mutation_rate] divides, and the result of
      [np.mean], are floats that may be an infinity or NaN, again without
      rounding.
    - numpy arrays live in a store of buffers.  An [ndarray] is a view: the
      buffer it looks at and its shape.  Every array this program handles is
      C-contiguous and starts at the beginning of its buffer (scikit-learn
      allocates the tensors that way, and [np.ravel] / [reshape] of such an
      array is again such a view), so [np.ravel] never copies.
    - The two global random generators (Python's [random] and [numpy.random])
      are tapes of raw draws with a read position.
    - A Python exception is the [Raise] outcome of a computation. *)

From Stdlib Require Import ZArith QArith Qround Qminmax Lqa Lia String.
From stdpp Require Import base option list.

Local Open Scope Q_scope.

(** ** Python values *)

Inductive exn : Type :=
| ZeroDivisionError
| IndexError
| ValueError
| Foreign (name : string).

(** The value of a float: a finite number, an infinity ([Inf true] is
    [-inf]) or NaN.  A finite value is an exact rational: rounding and the
    sign of zero are not modelled, zero is [+0.0]. *)
Inductive float_val : Type :=
| Finite (q : Q)
| Inf (negative : bool)
| NaN.

(** Whose arithmetic a number follows: Python's own (an [int], taken in the
    range of the floats, or a [float]) or numpy's (an [np.float64], which is
    what a score summed from the rewards of a numpy environment is). *)
Inductive kind : Type := Python | Numpy.

Record number : Type := Number { kind_of : kind; value_of : float_val }.

(** The kind of the result of an arithmetic operation: [np.float64] as soon
    as one operand is. *)
Definition kind_join (a b : kind) : kind :=
  match a, b with
  | Python, Python => Python
  | _, _ => Numpy
  end.

Definition is_zero (x : float_val) : bool :=
  match x with
  | Finite q => Qeq_bool q 0
  | _ => false
  end.

(** IEEE 754 division and subtraction, without rounding. *)
Definition float_div (x y : float_val) : float_val :=
  match x, y with
  | NaN, _ => NaN
  | _, NaN => NaN
  | Finite a, Finite b =>
      if Qeq_bool b 0
      then if Qeq_bool a 0 then NaN else Inf (negb (Qle_bool 0 a))
      else Finite (a / b)
  | Finite _, Inf _ => Finite 0
  | Inf s, Finite b => Inf (xorb s (negb (Qle_bool 0 b)))
  | Inf _, Inf _ => NaN
  end.

Definition float_sub (x y : float_val) : float_val :=
  match x, y with
  | NaN, _ => NaN
  | _, NaN => NaN
  | Finite a, Finite b => Finite (a - b)
  | Finite _, Inf s => Inf (negb s)
  | Inf s, Finite _ => Inf s
  | Inf s, Inf t => if Bool.eqb s t then NaN else Inf s
  end.

(** [a / b]: true division.  Between Python numbers it raises on a zero
    divisor, whatever the dividend; as soon as one operand is an
    [np.float64] the division is numpy's, which on a zero divisor returns an
    infinity or NaN (with a [RuntimeWarning]) and raises nothing. *)
Definition py_truediv (a b : number) : exn + number :=
  match kind_of a, kind_of b with
  | Python, Python =>
      if is_zero (value_of b) then inl ZeroDivisionError
      else inr (Number Python (float_div (value_of a) (value_of b)))
  | _, _ => inr (Number Numpy (float_div (value_of a) (value_of b)))
  end.

(** [a - b] *)
Definition py_sub (a b : number) : number :=
  Number (kind_join (kind_of a) (kind_of b))
    (float_sub (value_of a) (value_of b)).

(** [int(x)]: truncation towards zero. *)
Definition py_int (x : Q) : Z :=
  if (Qnum x <? 0)%Z then Qceiling x else Qfloor x.

(** ** The mutation scheduler (pure) *)

(** [mutation_rate(score, goal)]: [return(1 - (score/goal))]. *)
Definition mutation_rate (score goal : number) : exn + number :=
  match py_truediv score goal with
  | inl e => inl e
  | inr q => inr (py_sub (Number Python (Finite 1)) q)
  end.

(** ** Tensors and the store *)

Abbreviation loc := nat.

(** The store: buffer [l] is the [l]-th entry; allocation appends. *)
Abbreviation heap := (list (list Q)).

(** The tensors of an [MLPClassifier] are matrices ([coefs_]) and vectors
    ([intercepts_]). *)
Inductive shape : Type :=
| Shape1 (n : nat)
| Shape2 (r c : nat).

Definition size (s : shape) : nat :=
  match s with Shape1 n => n | Shape2 r c => r * c end.

(** Python's [len(a)]: the extent of the first axis. *)
Definition len (s : shape) : nat :=
  match s with Shape1 n => n | Shape2 r _ => r end.

(** Number of scalars in one item of the first axis. *)
Definition rowsize (s : shape) : nat :=
  match s with Shape1 _ => 1 | Shape2 _ c => c end.

(** [s1 == s2] on shapes. *)
Definition shape_eqb (s1 s2 : shape) : bool :=
  match s1, s2 with
  | Shape1 n, Shape1 m => (n =? m)%nat
  | Shape2 r c, Shape2 r' c' => (r =? r')%nat && (c =? c')%nat
  | _, _ => false
  end.

Record ndarray : Type := NdArray { base : loc; shp : shape }.

Record MLPClassifier : Type :=
  Network { coefs_ : list ndarray; intercepts_ : list ndarray }.

(** [np.ravel(a)]: the flat view of a contiguous array. *)
Definition np_ravel (a : ndarray) : ndarray :=
  {| base := base a; shp := Shape1 (size (shp a)) |}.

(** Differential-evolution constants of [de_crossover_classic]. *)
Definition CR : Q := 0.9.
Definition F : Q := 0.8.

(** ** The world: store, random generators, external collaborators *)

(** [py_bits k] is the [k]-th raw 53-bit draw of Python's [random];
    [np_bits k] the [k]-th raw draw of [numpy.random] and [np_gauss k] the
    standard normal variate numpy derives at that position.  [ext] is the
    state of the collaborators outside this module (the gym environment,
    scikit-learn). *)
Record world (E : Type) : Type := World {
  mem : heap;
  py_bits : nat -> Z;
  py_pos : nat;
  np_bits : nat -> Z;
  np_gauss : nat -> Q;
  np_pos : nat;
  ext : E
}.
Arguments World {E}.
Arguments mem {E}.
Arguments py_bits {E}.
Arguments py_pos {E}.
Arguments np_bits {E}.
Arguments np_gauss {E}.
Arguments np_pos {E}.
Arguments ext {E}.

Definition set_mem {E} (h : heap) (w : world E) : world E :=
  {| mem := h; py_bits := py_bits w; py_pos := py_pos w;
     np_bits := np_bits w; np_gauss := np_gauss w; np_pos := np_pos w;
     ext := ext w |}.

Definition set_py_pos {E} (p : nat) (w : world E) : world E :=
  {| mem := mem w; py_bits := py_bits w; py_pos := p;
     np_bits := np_bits w; np_gauss := np_gauss w; np_pos := np_pos w;
     ext := ext w |}.

Definition set_np_pos {E} (p : nat) (w : world E) : world E :=
  {| mem := mem w; py_bits := py_bits w; py_pos := py_pos w;
     np_bits := np_bits w; np_gauss := np_gauss w; np_pos := p;
     ext := ext w |}.

Definition set_ext {E} (e : E) (w : world E) : world E :=
  {| mem := mem w; py_bits := py_bits w; py_pos := py_pos w;
     np_bits := np_bits w; np_gauss := np_gauss w; np_pos := np_pos w;
     ext := e |}.

(** Outcome of running a piece of the program: it returns, it raises, or
    the fuel given to an unbounded loop ran out. *)
Inductive result (E A : Type) : Type :=
| Return (a : A) (w : world E)
| Raise (e : exn)
| Timeout.
Arguments Return {E A}.
Arguments Raise {E A}.
Arguments Timeout {E A}.

Definition M (E A : Type) : Type := world E -> result E A.

Definition ret {E A} (a : A) : M E A := fun w => Return a w.

Definition bind {E A B} (m : M E A) (k : A -> M E B) : M E B :=
  fun w =>
    match m w with
    | Return a w' => k a w'
    | Raise e => Raise e
    | Timeout => Timeout
    end.

Definition raise {E A} (e : exn) : M E A := fun _ => Raise e.

Declare Scope py_scope.
Delimit Scope py_scope with py.
Notation "x <- m ;; k" := (bind m (fun x => k))
  (at level 100, m at next level, right associativity) : py_scope.
Notation "m ;; k" := (bind m (fun _ => k))
  (at level 100, right associativity) : py_scope.
Local Open Scope py_scope.

(** [for x in xs: body(x)] *)
Fixpoint for_ {E X} (xs : list X) (body : X -> M E unit) : M E unit :=
  match xs with
  | [] => ret tt
  | x :: xs' => body x ;; for_ xs' body
  end.

(** A [for] loop that threads the local variables [s] it updates. *)
Fixpoint for_fold {E X S} (xs : list X) (body : S -> X -> M E S) (s : S)
  : M E S :=
  match xs with
  | [] => ret s
  | x :: xs' => s' <- body s x ;; for_fold xs' body s'
  end.

(** [range(n)] *)
Definition range (n : nat) : list nat := seq 0 n.

(** [l[i]] on a Python list. *)
Definition py_index {E A} (l : list A) (i : nat) : M E A :=
  match l !! i with
  | Some a => ret a
  | None => raise IndexError
  end.

(** *** Store access *)

Definition get_mem {E} : M E heap := fun w => Return (mem w) w.

Definition put_mem {E} (h : heap) : M E unit :=
  fun w => Return tt (set_mem h w).

(** All the scalars of the buffer behind a view. *)
Definition read_buffer {E} (l : loc) : M E (list Q) :=
  h <- get_mem ;;
  match h !! l with
  | Some b => ret b
  | None => raise IndexError
  end.

(** [flat[i]] for reading. *)
Definition load {E} (l : loc) (i : nat) : M E Q :=
  b <- read_buffer l ;;
  match b !! i with
  | Some v => ret v
  | None => raise IndexError
  end.

(** [flat[i] = v] *)
Definition store {E} (l : loc) (i : nat) (v : Q) : M E unit :=
  b <- read_buffer l ;;
  if (i <? length b)%nat
  then h <- get_mem ;; put_mem (<[l := <[i := v]> b]> h)
  else raise IndexError.

(** A new array holding [vs]: a fresh buffer at the end of the store. *)
Definition alloc {E} (vs : list Q) : M E loc :=
  h <- get_mem ;;
  put_mem (h ++ [vs]) ;;
  ret (length h).

(** *** Random draws *)

Definition two53 : positive := 9007199254740992.

(** A raw draw as a float of [[0, 1)]: [k / 2**53]. *)
Definition unit_float (raw : Z) : Q := Qmake (raw mod Zpos two53) two53.

(** The next raw draw of Python's generator, and of numpy's. *)
Definition py_next {E} : M E Z :=
  fun w => Return (py_bits w (py_pos w)) (set_py_pos (S (py_pos w)) w).

Definition np_next {E} : M E (Z * Q) :=
  fun w => Return (np_bits w (np_pos w), np_gauss w (np_pos w))
             (set_np_pos (S (np_pos w)) w).

(** [random.random()] *)
Definition random_random {E} : M E Q :=
  raw <- py_next ;; ret (unit_float raw).

(** The [randbelow(n)] of [random.shuffle], one draw. *)
Definition randbelow {E} (n : nat) : M E nat :=
  raw <- py_next ;; ret (Z.to_nat (raw mod Z.of_nat n)).

(** [np.random.uniform()] with the default bounds 0 and 1. *)
Definition np_random_uniform {E} : M E Q :=
  d <- np_next ;; ret (unit_float (fst d)).

(** [np.random.uniform(0, 1, n)]: [n] successive draws. *)
Fixpoint np_random_uniform_n {E} (n : nat) : M E (list Q) :=
  match n with
  | O => ret []
  | S n' =>
      u <- np_random_uniform ;;
      us <- np_random_uniform_n n' ;;
      ret (u :: us)
  end.

(** [np.random.normal(loc, scale)] *)
Definition np_random_normal {E} (mu sigma : Q) : M E Q :=
  d <- np_next ;; ret (mu + sigma * snd d).

(** [np.random.random_integers(low, high)]: both ends included. *)
Definition np_random_integers {E} (low high : nat) : M E nat :=
  d <- np_next ;;
  ret (low + Z.to_nat (fst d mod Z.of_nat (S (high - low))))%nat.

(** *** Views *)

Definition Qltb (a b : Q) : bool := negb (Qle_bool b a).

(** The scalars a view covers, in row-major order. *)
Definition read_array {E} (a : ndarray) : M E (list Q) :=
  b <- read_buffer (base a) ;;
  ret (take (size (shp a)) b).

(** [a.reshape(shape)]: a view of the same buffer. *)
Definition reshape {E} (a : ndarray) (s : shape) : M E ndarray :=
  if (size s =? size (shp a))%nat
  then ret {| base := base a; shp := s |}
  else raise ValueError.

(** [flat[j]] and [flat[j] = v] through a view. *)
Definition flat_get {E} (a : ndarray) (j : nat) : M E Q :=
  if (j <? size (shp a))%nat then load (base a) j else raise IndexError.

Definition flat_set {E} (a : ndarray) (j : nat) (v : Q) : M E unit :=
  if (j <? size (shp a))%nat then store (base a) j v else raise IndexError.

(** The scalars of item [i] of the first axis. *)
Definition read_row {E} (a : ndarray) (i : nat) : M E (list Q) :=
  if (i <? len (shp a))%nat
  then
    b <- read_buffer (base a) ;;
    ret (take (rowsize (shp a)) (drop (i * rowsize (shp a)) b))
  else raise IndexError.

Definition write_row {E} (a : ndarray) (i : nat) (vs : list Q) : M E unit :=
  if (i <? len (shp a))%nat
  then
    b <- read_buffer (base a) ;;
    h <- get_mem ;;
    put_mem (<[base a :=
                 take (i * rowsize (shp a)) b ++ vs
                   ++ drop (S i * rowsize (shp a)) b]> h)
  else raise IndexError.

(** What indexing or iterating an array yields: a [np.float64], which is
    a copy of the scalar, for a vector; the view of a row for a matrix. *)
Inductive item : Type :=
| Scalar (v : Q)
| Row (i : nat).

(** [el[k]] *)
Definition getitem {E} (el : ndarray) (k : nat) : M E item :=
  if (k <? len (shp el))%nat
  then
    match shp el with
    | Shape1 _ => v <- load (base el) k ;; ret (Scalar v)
    | Shape2 _ _ => ret (Row k)
    end
  else raise IndexError.

(** [el[k] = x]: writes the scalar, or copies the scalars of the row [x]
    views into row [k]. *)
Definition setitem {E} (el : ndarray) (k : nat) (x : item) : M E unit :=
  match x with
  | Scalar v => write_row el k (replicate (rowsize (shp el)) v)
  | Row i => vs <- read_row el i ;; write_row el k vs
  end.

(** Element-wise arithmetic of two flat arrays, with numpy's broadcasting
    of a one-element operand. *)
Definition np_broadcast {E} (f : Q -> Q -> Q) (xs ys : list Q)
  : M E (list Q) :=
  if (length xs =? length ys)%nat then ret (zip_with f xs ys)
  else
    match xs, ys with
    | [x], _ => ret (map (f x) ys)
    | _, [y] => ret (map (fun x => f x y) xs)
    | _, _ => raise ValueError
    end.

(** [[f(x) for x in xs]] *)
Fixpoint map_M {E X Y} (f : X -> M E Y) (xs : list X) : M E (list Y) :=
  match xs with
  | [] => ret []
  | x :: xs' => y <- f x ;; ys <- map_M f xs' ;; ret (y :: ys)
  end.

(** ** Crossover *)

(** One half of the loop body of [de_crossover], for the tensors
    [attr(nn)[i]] ([attr] is [coefs_] or [intercepts_]): the flat views and
    [np.array(x1 + np.random.uniform(0, 1, len(x1)) * (x2 - x1)).reshape(shape)]. *)
Definition de_blend {E} (attr : MLPClassifier -> list ndarray)
    (nn1 nn2 : MLPClassifier) (i : nat) : M E ndarray :=
  t1 <- py_index (attr nn1) i ;;
  let shape := shp t1 in
  let flat1 := np_ravel t1 in
  t2 <- py_index (attr nn2) i ;;
  let flat2 := np_ravel t2 in
  x1 <- read_array flat1 ;;
  us <- np_random_uniform_n (len (shp flat1)) ;;
  x2 <- read_array flat2 ;;
  d <- np_broadcast Qminus x2 x1 ;;
  p <- np_broadcast Qmult us d ;;
  s <- np_broadcast Qplus x1 p ;;
  l <- alloc s ;;
  reshape {| base := l; shp := Shape1 (length s) |} shape.

(** [de_crossover(nn1, nn2)] *)
Definition de_crossover {E} (nn1 nn2 : MLPClassifier)
  : M E (list ndarray * list ndarray) :=
  for_fold (range 2)
    (fun (acc : list ndarray * list ndarray) i =>
       let (newcoefs, newintercepts) := acc in
       c <- de_blend coefs_ nn1 nn2 i ;;
       let newcoefs := newcoefs ++ [c] in
       b <- de_blend intercepts_ nn1 nn2 i ;;
       let newintercepts := newintercepts ++ [b] in
       ret (newcoefs, newintercepts))
    ([], []).

(** The body of the loop [for j in range(len(agentCoefFlat))] of
    [de_crossover_classic], on the flat views of the target and of the
    three donors. *)
Definition de_classic_element {E} (agentFlat flat1 flat2 flat3 : ndarray)
    (R j : nat) : M E unit :=
  r <- np_random_uniform ;;
  if Qltb r CR || (j =? R)%nat
  then
    v1 <- flat_get flat1 j ;;
    v2 <- flat_get flat2 j ;;
    v3 <- flat_get flat3 j ;;
    flat_set agentFlat j (v1 + F * (v2 - v3))
  else ret tt.

(** One half of the loop body of [de_crossover_classic], for the tensors
    [attr(.)[i]]: the index [R], the flat views, the element loop and the
    final [reshape]. *)
Definition de_classic_tensor {E} (attr : MLPClassifier -> list ndarray)
    (agent : MLPClassifier) (randomAgents : list MLPClassifier) (i : nat)
  : M E ndarray :=
  t <- py_index (attr agent) i ;;
  let shape := shp t in
  R <- np_random_integers 0 (len (shp t)) ;;
  let agentFlat := np_ravel t in
  a1 <- py_index randomAgents 0 ;;
  d1 <- py_index (attr a1) i ;;
  let flat1 := np_ravel d1 in
  a2 <- py_index randomAgents 1 ;;
  d2 <- py_index (attr a2) i ;;
  let flat2 := np_ravel d2 in
  a3 <- py_index randomAgents 2 ;;
  d3 <- py_index (attr a3) i ;;
  let flat3 := np_ravel d3 in
  for_ (range (len (shp agentFlat)))
    (de_classic_element agentFlat flat1 flat2 flat3 R) ;;
  reshape agentFlat shape.

(** [de_crossover_classic(agent, randomAgents)] *)
Definition de_crossover_classic {E} (agent : MLPClassifier)
    (randomAgents : list MLPClassifier)
  : M E (list ndarray * list ndarray) :=
  for_fold (range 2)
    (fun (acc : list ndarray * list ndarray) i =>
       let (newcoefs, newintercepts) := acc in
       c <- de_classic_tensor coefs_ agent randomAgents i ;;
       let newcoefs := newcoefs ++ [c] in
       b <- de_classic_tensor intercepts_ agent randomAgents i ;;
       let newintercepts := newintercepts ++ [b] in
       ret (newcoefs, newintercepts))
    ([], []).

(** ** Mutation *)

(** [random.shuffle(el[lo:hi])]: the loop of the standard library, on the
    view of the items [lo .. hi-1]. *)
Definition shuffle_slice {E} (el : ndarray) (lo hi : nat) : M E unit :=
  for_ (rev (seq 1 (hi - lo - 1)))
    (fun i =>
       j <- randbelow (S i) ;;
       xj <- getitem el (lo + j) ;;
       xi <- getitem el (lo + i) ;;
       setitem el (lo + i) xj ;;
       setitem el (lo + j) xi).

(** [el[lo:hi] = el[lo:hi][::-1]] *)
Definition reverse_slice {E} (el : ndarray) (lo hi : nat) : M E unit :=
  rows <- map_M (read_row el) (seq lo (hi - lo)) ;;
  for_ (zip (seq lo (hi - lo)) (rev rows))
    (fun kv => write_row el (fst kv) (snd kv)).

(** The body of the loop [for swappedRow in el], for the item of index [i]. *)
Definition mutate_item {E} (el : ndarray) (i : nat) (rate : Q)
    (method : string) : M E unit :=
  swappedRow <- getitem el i ;;
  u <- random_random ;;
  if Qltb u rate
  then
    u1 <- random_random ;;
    let random1 := Z.to_nat (py_int (u1 * inject_Z (Z.of_nat (len (shp el))))) in
    u2 <- random_random ;;
    let random2 := Z.to_nat (py_int (u2 * inject_Z (Z.of_nat (len (shp el))))) in
    let (random1, random2) :=
      if (random2 <? random1)%nat then (random2, random1)
      else (random1, random2) in
    if (method =? "swap")%string
    then
      x <- getitem el random1 ;;
      let swappedRow' := x in
      setitem el random1 swappedRow
    else if (method =? "scramble")%string
    then shuffle_slice el random1 random2
    else if (method =? "inverse")%string
    then reverse_slice el random1 random2
    else
      match swappedRow with
      | Scalar v =>
          if (method =? "gaussian")%string
          then
            noise <- np_random_normal 0 2 ;;
            let swappedRow' := v + noise in
            ret tt
          else if (method =? "uniform")%string
          then
            fresh <- random_random ;;
            let swappedRow' := fresh in
            ret tt
          else ret tt
      | Row r =>
          for_ (range (rowsize (shp el)))
            (fun c =>
               inner <- load (base el) (r * rowsize (shp el) + c) ;;
               if (method =? "gaussian")%string
               then
                 noise <- np_random_normal 0 2 ;;
                 let inner' := inner + noise in
                 ret tt
               else if (method =? "uniform")%string
               then
                 fresh <- random_random ;;
                 let inner' := fresh in
                 ret tt
               else ret tt)
      end
  else ret tt.

(** [mutationFunc_W_B(agent, mutation_rate, method)] *)
Definition mutationFunc_W_B {E} (agent : MLPClassifier) (rate : Q)
    (method : string) : M E MLPClassifier :=
  for_ (range 2)
    (fun item =>
       let node_item :=
         if (item =? 0)%nat then coefs_ agent else intercepts_ agent in
       for_ node_item
         (fun el =>
            for_ (range (len (shp el)))
              (fun i => mutate_item el i rate method))) ;;
  ret agent.

(** ** The collaborators: environment, scikit-learn, matplotlib *)

(** The gym environment: [reset], [step] (the [info] entry of its result is
    never looked at), [render] with its optional mode, and the two spaces. *)
Record Env (E Obs Frame : Type) : Type := {
  env_reset : M E Obs;
  env_step : Z -> M E (Obs * Q * bool);
  env_render : option string -> M E Frame;
  observation_space_sample : M E Obs;
  action_space_sample : M E Z;
  action_space_n : nat
}.
Arguments env_reset {E Obs Frame}.
Arguments env_step {E Obs Frame}.
Arguments env_render {E Obs Frame}.
Arguments observation_space_sample {E Obs Frame}.
Arguments action_space_sample {E Obs Frame}.
Arguments action_space_n {E Obs Frame}.

(** What the module calls in scikit-learn and matplotlib:
    [int(agent.predict(obs.reshape(1, -1)))], the construction
    [MLPClassifier(batch_size=1, ..., random_state=1).partial_fit(X, y, classes)]
    and the body of [save_frames_as_gif]. *)
Record Lib (E Obs Frame : Type) : Type := {
  predict : MLPClassifier -> Obs -> M E Z;
  new_partial_fit : Obs -> Z -> nat -> M E MLPClassifier;
  save_frames_as_gif : list Frame -> string -> option string -> M E unit
}.
Arguments predict {E Obs Frame}.
Arguments new_partial_fit {E Obs Frame}.
Arguments save_frames_as_gif {E Obs Frame}.

(** [create_new_network(env)] *)
Definition create_new_network {E Obs Frame} (lib : Lib E Obs Frame)
    (env : Env E Obs Frame) : M E MLPClassifier :=
  x <- observation_space_sample env ;;
  y <- action_space_sample env ;;
  new_partial_fit lib x y (action_space_n env).

(** [initialise_population(size, env)] *)
Definition initialise_population {E Obs Frame} (lib : Lib E Obs Frame)
    (size : Z) (env : Env E Obs Frame) : M E (list MLPClassifier) :=
  for_fold (range (Z.to_nat size))
    (fun population _ =>
       a <- create_new_network lib env ;;
       ret (population ++ [a]))
    [].

(** ** Simulation *)

(** The local variables of [simulate_agent] that its loop updates. *)
Record locals (Obs Frame : Type) : Type := Locals {
  observation : Obs;
  score : Q;
  done : bool;
  frames : list Frame
}.
Arguments Locals {Obs Frame}.
Arguments observation {Obs Frame}.
Arguments score {Obs Frame}.
Arguments done {Obs Frame}.
Arguments frames {Obs Frame}.

(** The end of the loop body: the optional frame capture and rendering. *)
Definition record_and_render {E Obs Frame} (env : Env E Obs Frame)
    (render savetofile : bool) (frames : list Frame) : M E (list Frame) :=
  frames' <- (if savetofile
              then f <- env_render env (Some "rgb_array"%string) ;;
                   ret (frames ++ [f])
              else ret frames) ;;
  (if render then env_render env None ;; ret tt else ret tt) ;;
  ret frames'.

(** The body of [while not done]. *)
Definition interact {E Obs Frame} (lib : Lib E Obs Frame)
    (agent : MLPClassifier) (env : Env E Obs Frame)
    (render savetofile : bool) (s : locals Obs Frame)
  : M E (locals Obs Frame) :=
  action <- predict lib agent (observation s) ;;
  r <- env_step env action ;;
  let score' := score s + snd (fst r) in
  frames' <- record_and_render env render savetofile (frames s) ;;
  ret {| observation := fst (fst r); score := score';
         done := snd r; frames := frames' |}.

(** [while not done: body], with the number of iterations bounded by
    [fuel]. *)
Fixpoint while_not_done {E Obs Frame} (fuel : nat)
    (body : locals Obs Frame -> M E (locals Obs Frame))
    (s : locals Obs Frame) : M E (locals Obs Frame) :=
  if done s then ret s
  else
    match fuel with
    | O => fun _ => Timeout
    | S fuel' => s' <- body s ;; while_not_done fuel' body s'
    end.

(** [simulate_agent(agent, env, render, savetofile, filename)] *)
Definition simulate_agent {E Obs Frame} (lib : Lib E Obs Frame) (fuel : nat)
    (agent : MLPClassifier) (env : Env E Obs Frame)
    (render savetofile : bool) (filename : option string) : M E Q :=
  obs <- env_reset env ;;
  let s := {| observation := obs; score := 0; done := false;
              frames := [] |} in
  s <- while_not_done fuel (interact lib agent env render savetofile) s ;;
  (if savetofile
   then save_frames_as_gif lib (frames s) "./gifs/"%string filename
   else ret tt) ;;
  ret (score s).

(** ** The centroid network *)

(** [np.array([t for ...])] on arrays: copies them into one block, which
    needs equal shapes. *)
Fixpoint np_stack {E} (s : shape) (ts : list ndarray) : M E (list (list Q)) :=
  match ts with
  | [] => ret []
  | t :: ts' =>
      if shape_eqb (shp t) s
      then x <- read_array t ;; xs <- np_stack s ts' ;; ret (x :: xs)
      else raise ValueError
  end.

(** What [np.mean(block, axis=0)] returns: an array, or a scalar when the
    block has one axis only, as the empty block [np.array([])] has. *)
Inductive mean_value : Type :=
| MeanArray (a : ndarray)
| MeanScalar (x : float_val).

(** [np.mean(block, axis=0)]: the sum along the first axis divided by its
    extent, as a new array.  The mean of the empty block is the scalar
    [nan] (numpy gives a [RuntimeWarning] and raises nothing). *)
Definition np_mean_axis0 {E} (s : shape) (rows : list (list Q))
  : M E mean_value :=
  match rows with
  | [] => ret (MeanScalar NaN)
  | r0 :: rest =>
      let total := fold_left (zip_with Qplus) rest r0 in
      let n := inject_Z (Z.of_nat (length rows)) in
      l <- alloc (map (fun t => t / n) total) ;;
      ret (MeanArray {| base := l; shp := s |})
  end.

(** The local function [find_mean(mat, attr_type, i)]. *)
Definition find_mean {E} (mat : list MLPClassifier)
    (attr_type : MLPClassifier -> list ndarray) (i : nat) : M E mean_value :=
  ts <- map_M (fun el => py_index (attr_type el) i) mat ;;
  let s := match ts with t :: _ => shp t | [] => Shape1 0 end in
  rows <- np_stack s ts ;;
  np_mean_axis0 s rows.

(** The network [average_weight_and_bias] returns: an [MLPClassifier] whose
    [coefs_] and [intercepts_] have been set to lists of what [find_mean]
    returned. *)
Record MeanNetwork : Type :=
  { mean_coefs_ : list mean_value; mean_intercepts_ : list mean_value }.

(** A network of arrays, as such a network. *)
Definition mean_network (a : MLPClassifier) : MeanNetwork :=
  {| mean_coefs_ := map MeanArray (coefs_ a);
     mean_intercepts_ := map MeanArray (intercepts_ a) |}.

(** [average_weight_and_bias(population, env)] *)
Definition average_weight_and_bias {E Obs Frame} (lib : Lib E Obs Frame)
    (population : list MLPClassifier) (env : Env E Obs Frame)
  : M E MeanNetwork :=
  coef0 <- find_mean population coefs_ 0 ;;
  coef1 <- find_mean population coefs_ 1 ;;
  intercept0 <- find_mean population intercepts_ 0 ;;
  intercept1 <- find_mean population intercepts_ 1 ;;
  avg_network <- create_new_network lib env ;;
  let avg_network :=
    {| mean_coefs_ := [coef0; coef1];
       mean_intercepts_ := [intercept0; intercept1] |} in
  ret avg_network.

(** * Specification vocabulary *)

(** ** Observing a run *)

(** What a caller can observe of a run: the value returned and the store. *)
Definition outcome {E A} (r : result E A) : option (A * heap) :=
  match r with
  | Return a w => Some (a, mem w)
  | Raise _ => None
  | Timeout => None
  end.

(** The value a run returns, if it returns. *)
Definition value {E A} (r : result E A) : option A :=
  match r with
  | Return a _ => Some a
  | Raise _ => None
  | Timeout => None
  end.

(** [keeps h m P]: started in a world whose store is [h], the computation
    [m] returns, its result satisfies [P], and the store is still [h]. *)
Definition keeps {E A} (h : heap) (m : M E A) (P : A -> Prop) : Prop :=
  forall w, mem w = h -> exists a w', m w = Return a w' /\ mem w' = h /\ P a.

(** The scalar at flat index [j] of the tensor [t] in the store [h]. *)
Definition scalar_at (h : heap) (t : ndarray) (j : nat) : option Q :=
  match h !! base t with
  | Some b => b !! j
  | None => None
  end.

(** The item at [i] of the first axis, as the scalars it holds. *)
Definition item_scalars (s : shape) (b : list Q) (i : nat) : list Q :=
  take (rowsize s) (drop (i * rowsize s) b).

(** ** Well-formed tensors *)

(** The buffer of [t] is in the store and holds as many scalars as the
    shape of [t] says. *)
Definition tensor_ok (h : heap) (t : ndarray) : bool :=
  match h !! base t with
  | Some b => (length b =? size (shp t))%nat
  | None => false
  end.

Definition tensors_ok (h : heap) (a : MLPClassifier) : bool :=
  forallb (tensor_ok h) (coefs_ a) && forallb (tensor_ok h) (intercepts_ a).

(** ** Blend crossover *)

(** Layer [i] of both parents is there, in the store, with one shape. *)
Definition layer_ok (h : heap) (attr : MLPClassifier -> list ndarray)
    (nn1 nn2 : MLPClassifier) (i : nat) : bool :=
  match attr nn1 !! i, attr nn2 !! i with
  | Some t1, Some t2 =>
      tensor_ok h t1 && tensor_ok h t2 && shape_eqb (shp t1) (shp t2)
  | _, _ => false
  end.

(** Two parents of one topology with two layers of weights and biases. *)
Definition parents_ok (h : heap) (nn1 nn2 : MLPClassifier) : bool :=
  layer_ok h coefs_ nn1 nn2 0 && layer_ok h intercepts_ nn1 nn2 0
  && layer_ok h coefs_ nn1 nn2 1 && layer_ok h intercepts_ nn1 nn2 1.

(** [y] is a blend of [x1] and [x2]: as long as [x1], and each scalar of it
    is [a + u * (b - a)] for the scalars [a], [b] at the same place and a
    draw [u] of the tape [bits], hence between [a] and [b]. *)
Definition blend_of (bits : nat -> Z) (x1 x2 y : list Q) : Prop :=
  length y = length x1 /\
  forall j a b, x1 !! j = Some a -> x2 !! j = Some b ->
    exists k o,
      y !! j = Some o
      /\ o = a + unit_float (bits k) * (b - a)
      /\ 0 <= unit_float (bits k) < 1
      /\ Qmin a b <= o <= Qmax a b.

(** The tensors [out] are, layer by layer, new arrays of the parents'
    shapes holding a blend of the parents' scalars: [h] is the store
    before the crossover, [h'] the store after it. *)
Definition blended (blend : list Q -> list Q -> list Q -> Prop)
    (h h' : heap) (ps1 ps2 out : list ndarray) : Prop :=
  length out = 2%nat /\
  forall i, (i < 2)%nat ->
    exists t1 t2 c x1 x2 y,
      ps1 !! i = Some t1 /\ ps2 !! i = Some t2 /\ out !! i = Some c
      /\ shp c = shp t1 /\ (length h <= base c)%nat
      /\ h !! base t1 = Some x1 /\ h !! base t2 = Some x2
      /\ h' !! base c = Some y /\ blend x1 x2 y.

(** ** Classic differential-evolution crossover *)

(** The target tensor and the tensors of the three donors. *)
Definition quad : Type := (ndarray * ndarray * ndarray * ndarray)%type.

Definition classic_quad (attr : MLPClassifier -> list ndarray)
    (agent : MLPClassifier) (randomAgents : list MLPClassifier) (i : nat)
  : option quad :=
  match attr agent !! i, randomAgents with
  | Some t, a1 :: a2 :: a3 :: _ =>
      match attr a1 !! i, attr a2 !! i, attr a3 !! i with
      | Some d1, Some d2, Some d3 => Some (t, d1, d2, d3)
      | _, _, _ => None
      end
  | _, _ => None
  end.

(** The four tensors are in the store, the donors' have the target's
    shape, and the target's buffer is none of the donors'. *)
Definition quad_ok (h : heap) (q : quad) : bool :=
  let '(t, d1, d2, d3) := q in
  tensor_ok h t && tensor_ok h d1 && tensor_ok h d2 && tensor_ok h d3
  && shape_eqb (shp d1) (shp t) && shape_eqb (shp d2) (shp t)
  && shape_eqb (shp d3) (shp t)
  && negb (base d1 =? base t)%nat && negb (base d2 =? base t)%nat
  && negb (base d3 =? base t)%nat.

(** The target buffer of [q] is none of the buffers of [q']. *)
Definition apart (q q' : quad) : bool :=
  let '(t, _, _, _) := q in
  let '(t', d1, d2, d3) := q' in
  negb (base t' =? base t)%nat && negb (base d1 =? base t)%nat
  && negb (base d2 =? base t)%nat && negb (base d3 =? base t)%nat.

(** A target and three donors of one two-layer topology, the target's four
    buffers distinct from one another and from the donors'. *)
Definition classic_ok (h : heap) (agent : MLPClassifier)
    (randomAgents : list MLPClassifier) : bool :=
  match classic_quad coefs_ agent randomAgents 0,
        classic_quad intercepts_ agent randomAgents 0,
        classic_quad coefs_ agent randomAgents 1,
        classic_quad intercepts_ agent randomAgents 1 with
  | Some q0, Some q1, Some q2, Some q3 =>
      quad_ok h q0 && quad_ok h q1 && quad_ok h q2 && quad_ok h q3
      && apart q0 q1 && apart q0 q2 && apart q0 q3
      && apart q1 q2 && apart q1 q3 && apart q2 q3
  | _, _, _, _ => false
  end.

(** The index [R] drawn at position [p] of numpy's tape for the tensor
    [t]: [np.random.random_integers(0, len(t))]. *)
Definition forced_index (bits : nat -> Z) (p : nat) (t : ndarray) : nat :=
  Z.to_nat (bits p mod Z.of_nat (S (len (shp t)))).

(** [donor1[j] + F * (donor2[j] - donor3[j])] *)
Definition donor_mix (v1 v2 v3 : list Q) (j : nat) : option Q :=
  match v1 !! j, v2 !! j, v3 !! j with
  | Some a, Some b, Some c => Some (a + F * (b - c))
  | _, _, _ => None
  end.

(** Element [j] is replaced when its draw, at position [q + j] of the
    tape, is below [CR], or when [j] is [R]. *)
Definition replaced (bits : nat -> Z) (q R j : nat) : bool :=
  Qltb (unit_float (bits (q + j)%nat)) CR || (j =? R)%nat.

(** [y] is what the element loop makes of the target scalars [x], with the
    index [R] drawn at position [p] and the element draws after it. *)
Definition classic_of (bits : nat -> Z) (p : nat) (t : ndarray)
    (x v1 v2 v3 y : list Q) : Prop :=
  length y = length x /\
  forall j, (j < length x)%nat ->
    y !! j = if replaced bits (S p) (forced_index bits p t) j
             then donor_mix v1 v2 v3 j
             else x !! j.

(** Where numpy's tape stands after the tensor of [q] has been processed
    from position [p]: one draw for [R], one per scalar. *)
Definition next_draw (p : nat) (q : quad) : nat :=
  let '(t, _, _, _) := q in (p + 1 + size (shp t))%nat.

(** What the classic crossover has done to the target tensor of [q], with
    [R] drawn at position [p]; [h] is the store before the crossover and
    [h'] the store after it.  Every scalar of the target's buffer follows
    the element rule; and when [R] is an index of the flat tensor, the
    scalar at [R] is [donor1 + F * (donor2 - donor3)] there. *)
Definition forced (bits : nat -> Z) (p : nat) (h h' : heap) (q : quad)
  : Prop :=
  let '(t, d1, d2, d3) := q in
  let R := forced_index bits p t in
  exists x v1 v2 v3 y,
    h !! base t = Some x /\ h !! base d1 = Some v1
    /\ h !! base d2 = Some v2 /\ h !! base d3 = Some v3
    /\ h' !! base t = Some y
    /\ classic_of bits p t x v1 v2 v3 y
    /\ ((R < length x)%nat ->
        exists a b c o,
          v1 !! R = Some a /\ v2 !! R = Some b /\ v3 !! R = Some c
          /\ y !! R = Some o /\ o = a + F * (b - c)).

(** ** Populations and rollouts, as sequences of calls *)

(** [created lib env w population w']: [population] lists, in order, the
    networks returned by successive calls of [create_new_network], one call
    per network, the first in the world [w] and the last leaving [w']. *)
Inductive created {E Obs Frame} (lib : Lib E Obs Frame)
    (env : Env E Obs Frame)
  : world E -> list MLPClassifier -> world E -> Prop :=
| created_nil w : created lib env w [] w
| created_cons w a w1 population w2 :
    create_new_network lib env w = Return a w1 ->
    created lib env w1 population w2 ->
    created lib env w (a :: population) w2.

(** [episode lib agent env render savetofile obs fs w rewards fs' w']: from
    the observation [obs], the agent is asked for an action, the
    environment is stepped with it and the step is shown, again and again
    until a step returns [done]; [rewards] lists the rewards [env.step]
    returned, in order. *)
Inductive episode {E Obs Frame} (lib : Lib E Obs Frame)
    (agent : MLPClassifier) (env : Env E Obs Frame)
    (render savetofile : bool)
  : Obs -> list Frame -> world E -> list Q -> list Frame -> world E -> Prop :=
| episode_last obs fs w action w1 obs' reward w2 fs' w3 :
    predict lib agent obs w = Return action w1 ->
    env_step env action w1 = Return (obs', reward, true) w2 ->
    record_and_render env render savetofile fs w2 = Return fs' w3 ->
    episode lib agent env render savetofile obs fs w [reward] fs' w3
| episode_more obs fs w action w1 obs' reward w2 fs' w3 rewards fs'' w4 :
    predict lib agent obs w = Return action w1 ->
    env_step env action w1 = Return (obs', reward, false) w2 ->
    record_and_render env render savetofile fs w2 = Return fs' w3 ->
    episode lib agent env render savetofile obs' fs' w3 rewards fs'' w4 ->
    episode lib agent env render savetofile obs fs w (reward :: rewards)
      fs'' w4.

(** [score += reward] over the rewards of a rollout, from [score = 0]. *)
Definition total (rewards : list Q) : Q := fold_left Qplus rewards 0.

(** ** Means *)

Definition Qsum (xs : list Q) : Q := fold_right Qplus 0 xs.

(** The arithmetic mean: the sum divided by the count. *)
Definition mean (xs : list Q) : Q :=
  Qsum xs / inject_Z (Z.of_nat (length xs)).

(** A non-empty population whose agents all have the two layers of the
    first agent, with its shapes, in the store. *)
Definition population_ok (h : heap) (population : list MLPClassifier)
  : bool :=
  match population with
  | [] => false
  | a0 :: _ => forallb (parents_ok h a0) population
  end.

(** [col] lists, agent by agent, the scalar at flat index [j] of the
    tensor [attr(agent)[i]] in the store [h]. *)
Definition column (h : heap) (attr : MLPClassifier -> list ndarray)
    (i j : nat) (population : list MLPClassifier) (col : list Q) : Prop :=
  Forall2 (fun a v => exists t, attr a !! i = Some t
                                /\ scalar_at h t j = Some v)
    population col.

(** The tensors [out] are, layer by layer, arrays of the population's
    shapes, outside the store [h] the population lives in, whose every
    scalar is the mean of the population's scalars at that place. *)
Definition averaged (h h' : heap) (population : list MLPClassifier)
    (attr : MLPClassifier -> list ndarray) (out : list ndarray) : Prop :=
  length out = 2%nat /\
  forall i, (i < 2)%nat ->
    exists c y,
      out !! i = Some c /\ (length h <= base c)%nat
      /\ h' !! base c = Some y /\ length y = size (shp c)
      /\ Forall (fun a => exists t, attr a !! i = Some t /\ shp t = shp c)
           population
      /\ forall j, (j < length y)%nat ->
           exists col m,
             column h attr i j population col
             /\ y !! j = Some m /\ m == mean col.

(** * Concrete inputs *)

(** ** Networks and tapes

    Networks of topology 1 -> 4 -> 1 (one observation, the hidden layer of
    four units [create_new_network] asks for, one output): the four tensors
    of a network occupy four consecutive buffers. *)

Definition network_at (l : loc) : MLPClassifier :=
  {| coefs_ := [ {| base := l; shp := Shape2 1 4 |};
                 {| base := S l; shp := Shape2 4 1 |} ];
     intercepts_ := [ {| base := S (S l); shp := Shape1 4 |};
                      {| base := S (S (S l)); shp := Shape1 1 |} ] |}.

(** The four buffers of a network whose every scalar is [v]. *)
Definition constant_buffers (v : Q) : heap :=
  [ [v; v; v; v]; [v; v; v; v]; [v; v; v; v]; [v] ].

(** One network with distinct scalars. *)
Definition sample_buffers : heap :=
  [ [1; 2; 3; 4]; [5; 6; 7; 8]; [9; 10; 11; 12]; [13] ].

(** A target whose scalars are all 0.8 and three donors whose scalars are
    all 0, all 1 and all 0. *)
Definition four_networks : heap :=
  constant_buffers 0.8 ++ constant_buffers 0 ++ constant_buffers 1
    ++ constant_buffers 0.

(** A target with distinct scalars and the same three donors. *)
Definition four_networks' : heap :=
  sample_buffers ++ constant_buffers 0 ++ constant_buffers 1
    ++ constant_buffers 0.

Definition donors : list MLPClassifier :=
  [network_at 4; network_at 8; network_at 12].

(** A world over collaborators without state, with constant tapes. *)
Definition tape_world (h : heap) (py np : Z) (gauss : Q) : world unit :=
  {| mem := h; py_bits := fun _ => py; py_pos := 0%nat;
     np_bits := fun _ => np; np_gauss := fun _ => gauss; np_pos := 0%nat;
     ext := tt |}.

(** The raw draw that [unit_float] turns into 0.5. *)
Definition half_draw : Z := 4503599627370496.

(** The raw draw that [unit_float] turns into the largest float below 1. *)
Definition last_draw : Z := 9007199254740991.

(** ** Stub collaborators

    The external state counts the steps taken in the environment.  The
    stub network constructor allocates four buffers of zeros; the stub
    policy always answers action 0. *)

Definition stub_lib : Lib nat unit unit :=
  {| predict := fun _ _ => ret 0%Z;
     new_partial_fit := fun _ _ _ =>
       h <- get_mem ;;
       put_mem (h ++ constant_buffers 0) ;;
       ret (network_at (length h));
     save_frames_as_gif := fun _ _ _ => ret tt |}.

(** A deterministic environment: every step returns reward 1, and the
    [n]-th step returns [done = True]. *)
Definition countdown_env (n : nat) : Env nat unit unit :=
  {| env_reset := fun w => Return tt (set_ext 0%nat w);
     env_step := fun _ w =>
       Return (tt, 1, (n <=? S (ext w))%nat) (set_ext (S (ext w)) w);
     env_render := fun _ => ret tt;
     observation_space_sample := ret tt;
     action_space_sample := ret 0%Z;
     action_space_n := 2 |}.

Definition stub_world_at (h : heap) : world nat :=
  {| mem := h; py_bits := fun _ => 0%Z; py_pos := 0;
     np_bits := fun _ => 0%Z; np_gauss := fun _ => 0; np_pos := 0;
     ext := 0%nat |}.

Definition stub_world : world nat := stub_world_at [].

(** * The animation writer

    [save_frames_as_gif] itself, which [simulate_agent] reaches through the
    field of the same name of [Lib]. *)

(** What [save_frames_as_gif] calls in matplotlib: [plt.figure(figsize=...,
    dpi=...)], [plt.imshow], [plt.axis], [animation.FuncAnimation(plt.gcf(),
    animate, frames=..., interval=...)], whose callback [animate] sets the
    data of the patch to the frame of that index, and [anim.save(name,
    writer=..., fps=...)]; and the [shape] of a frame, height first. *)
Record Plt (E Frame Patch Anim : Type) : Type := {
  frame_shape : Frame -> nat * nat;
  plt_figure : Q * Q -> nat -> M E unit;
  plt_imshow : Frame -> M E Patch;
  plt_axis : string -> M E unit;
  FuncAnimation : Patch -> list Frame -> nat -> nat -> M E Anim;
  anim_save : Anim -> string -> string -> nat -> M E unit
}.
Arguments frame_shape {E Frame Patch Anim}.
Arguments plt_figure {E Frame Patch Anim}.
Arguments plt_imshow {E Frame Patch Anim}.
Arguments plt_axis {E Frame Patch Anim}.
Arguments FuncAnimation {E Frame Patch Anim}.
Arguments anim_save {E Frame Patch Anim}.

(** [path + filename] on a string and what may be [None]. *)
Definition str_add {E} (path : string) (filename : option string)
  : M E string :=
  match filename with
  | Some name => ret (path ++ name)%string
  | None => raise (Foreign "TypeError")
  end.

(** [save_frames_as_gif(frames, path, filename)] *)
Definition save_frames_as_gif_body {E Frame Patch Anim}
    (plt : Plt E Frame Patch Anim) (frames : list Frame) (path : string)
    (filename : option string) : M E unit :=
  f <- py_index frames 0 ;;
  let width := inject_Z (Z.of_nat (snd (frame_shape plt f))) / 72 in
  f <- py_index frames 0 ;;
  let height := inject_Z (Z.of_nat (fst (frame_shape plt f))) / 72 in
  plt_figure plt (width, height) 72 ;;
  f <- py_index frames 0 ;;
  patch <- plt_imshow plt f ;;
  plt_axis plt "off" ;;
  anim <- FuncAnimation plt patch frames (length frames) 50 ;;
  name <- str_add path filename ;;
  anim_save plt anim name "pillow" 60.

(** The collaborators [lib] with the module's own [save_frames_as_gif]. *)
Definition with_gif {E Obs Frame Patch Anim} (plt : Plt E Frame Patch Anim)
    (lib : Lib E Obs Frame) : Lib E Obs Frame :=
  {| predict := predict lib;
     new_partial_fit := new_partial_fit lib;
     save_frames_as_gif := save_frames_as_gif_body plt |}.

(** The plotting calls themselves return. *)
Definition plots {E Frame Patch Anim} (plt : Plt E Frame Patch Anim) : Prop :=
  (forall size dpi w, exists w', plt_figure plt size dpi w = Return tt w')
  /\ (forall f w, exists patch w', plt_imshow plt f w = Return patch w')
  /\ (forall mode w, exists w', plt_axis plt mode w = Return tt w')
  /\ (forall patch fs n ms w, exists anim w',
        FuncAnimation plt patch fs n ms w = Return anim w').

(** * Vocabulary of the further properties *)

(** ** Invariants of the store *)

(** [hoare Inv m P]: started in a world whose store satisfies [Inv], the
    computation [m] returns, its result satisfies [P], and the store still
    satisfies [Inv]. *)
Definition hoare {E A} (Inv : heap -> Prop) (m : M E A) (P : A -> Prop)
  : Prop :=
  forall w, Inv (mem w) ->
    exists a w', m w = Return a w' /\ Inv (mem w') /\ P a.

(** Every buffer of [h] has the size it has in [h0] and holds only scalars
    it holds in [h0]. *)
Definition rearranged (h0 h : heap) : Prop :=
  Forall2 (fun b0 b => length b = length b0 /\ b ⊆ b0) h0 h.

(** The buffers outside [L] are in [h] what they are in [h0]. *)
Definition untouched (L : list loc) (h0 h : heap) : Prop :=
  forall l, l ∉ L -> h !! l = h0 !! l.

(** The buffers of the tensors of an agent. *)
Definition agent_bases (a : MLPClassifier) : list loc :=
  map base (coefs_ a ++ intercepts_ a).

(** What indexing the tensor [el], of original scalars [b0], can yield. *)
Definition item_ok (b0 : list Q) (el : ndarray) (x : item) : Prop :=
  match x with
  | Scalar v => v ∈ b0
  | Row k => (k < len (shp el))%nat
  end.


(** ** Counting the work of a mutation pass *)

(** The number of passes of the loop [for swappedRow in el] over all the
    tensors of the agent: rows of the weight matrices, entries of the bias
    vectors. *)
Definition items (a : MLPClassifier) : nat :=
  list_sum (map (fun el => len (shp el)) (coefs_ a))
  + list_sum (map (fun el => len (shp el)) (intercepts_ a)).

(** ** Slices of a tensor *)

(** The items [lo], ..., [hi - 1] of the first axis of a tensor of shape [s]
    whose buffer is [b]: what [el[lo:hi]] covers. *)
Definition rows (s : shape) (b : list Q) (lo hi : nat) : list (list Q) :=
  map (item_scalars s b) (seq lo (hi - lo)).

(** The buffer [b] with the items [lo], ..., [hi - 1] in reverse order. *)
Definition reversed (s : shape) (b : list Q) (lo hi : nat) : list Q :=
  take (lo * rowsize s) b ++ concat (rev (rows s b lo hi))
    ++ drop (hi * rowsize s) b.

(** Every buffer of [h] holds the scalars the buffer at the same place of
    [h0] holds, each as many times, in some order. *)
Definition permuted (h0 h : heap) : Prop :=
  Forall2 (fun b0 b => b ≡ₚ b0) h0 h.

(** ** A tape that varies *)

(** A world whose [k]-th draw of either generator is [(k mod 8) / 8] as a
    float of [[0, 1)]. *)
Definition eighths_world (h : heap) : world unit :=
  {| mem := h;
     py_bits := fun k => (Z.of_nat k * 1125899906842624)%Z; py_pos := 0%nat;
     np_bits := fun k => (Z.of_nat k * 1125899906842624)%Z;
     np_gauss := fun _ => 0; np_pos := 0%nat;
     ext := tt |}.

(** ** The tensors the classic crossover works on *)

(** The tensors of the target the classic crossover goes through: the two
    layers of weights and the two of biases. *)
Definition targets (agent : MLPClassifier) : list ndarray :=
  take 2 (coefs_ agent) ++ take 2 (intercepts_ agent).

(** ** Collaborators that do not cooperate *)

(** An environment whose every step returns reward 1 and never [done]. *)
Definition endless_env : Env nat unit unit :=
  {| env_reset := fun w => Return tt (set_ext 0%nat w);
     env_step := fun _ w => Return (tt, 1, false) (set_ext (S (ext w)) w);
     env_render := fun _ => ret tt;
     observation_space_sample := ret tt;
     action_space_sample := ret 0%Z;
     action_space_n := 2 |}.

(** A constructor that builds two networks, counted in the external state,
    and fails from the third call on. *)
Definition scarce_lib : Lib nat unit unit :=
  {| predict := fun _ _ => ret 0%Z;
     new_partial_fit := fun _ _ _ w =>
       if (ext w <? 2)%nat
       then Return (network_at (length (mem w)))
              (set_ext (S (ext w)) (set_mem (mem w ++ constant_buffers 0) w))
       else Raise (Foreign "MemoryError");
     save_frames_as_gif := fun _ _ _ => ret tt |}.

(** A matplotlib that plots nothing and always returns. *)
Definition stub_plt : Plt nat unit unit unit :=
  {| frame_shape := fun _ => (400, 600)%nat;
     plt_figure := fun _ _ => ret tt;
     plt_imshow := fun _ => ret tt;
     plt_axis := fun _ => ret tt;
     FuncAnimation := fun _ _ _ _ => ret tt;
     anim_save := fun _ _ _ _ => ret tt |}.

(** ** A rollout with its frames *)

(** The second half of the end of the loop body, in the world [w]: with
    [render] set, [env.render()] is called and the world becomes [w']. *)
Definition shown {E Obs Frame} (env : Env E Obs Frame) (render : bool)
    (w w' : world E) : Prop :=
  if render then exists f, env_render env None w = Return f w' else w' = w.

(** [filmed lib agent env render obs w steps w']: the rollout from the
    observation [obs] in which the frame of every step is captured.  At
    every step the agent is asked for an action, the environment is stepped
    with it, [env.render(mode="rgb_array")] is called in the world the step
    left and returns the frame of that step, and the step is shown if
    [render] is set; [steps] lists the reward and the frame of each step,
    in order, up to the first step that returns [done]. *)
Inductive filmed {E Obs Frame} (lib : Lib E Obs Frame)
    (agent : MLPClassifier) (env : Env E Obs Frame) (render : bool)
  : Obs -> world E -> list (Q * Frame) -> world E -> Prop :=
| filmed_last obs w action w1 obs' reward w2 f w3 w4 :
    predict lib agent obs w = Return action w1 ->
    env_step env action w1 = Return (obs', reward, true) w2 ->
    env_render env (Some "rgb_array"%string) w2 = Return f w3 ->
    shown env render w3 w4 ->
    filmed lib agent env render obs w [(reward, f)] w4
| filmed_more obs w action w1 obs' reward w2 f w3 w4 steps w5 :
    predict lib agent obs w = Return action w1 ->
    env_step env action w1 = Return (obs', reward, false) w2 ->
    env_render env (Some "rgb_array"%string) w2 = Return f w3 ->
    shown env render w3 w4 ->
    filmed lib agent env render obs' w4 steps w5 ->
    filmed lib agent env render obs w ((reward, f) :: steps) w5.

(** An environment of [n] steps, each of reward 1, whose rendering is the
    number of steps taken so far; and collaborators for it. *)
Definition counting_env (n : nat) : Env nat unit nat :=
  {| env_reset := fun w => Return tt (set_ext 0%nat w);
     env_step := fun _ w =>
       Return (tt, 1, (n <=? S (ext w))%nat) (set_ext (S (ext w)) w);
     env_render := fun _ w => Return (ext w) w;
     observation_space_sample := ret tt;
     action_space_sample := ret 0%Z;
     action_space_n := 2 |}.

Definition film_lib : Lib nat unit nat :=
  {| predict := fun _ _ => ret 0%Z;
     new_partial_fit := fun _ _ _ => ret (network_at 0);
     save_frames_as_gif := fun _ _ _ => ret tt |}.

(** The countdown environment without a display for frames: rendering in a
    mode raises. *)
Definition blind_env (n : nat) : Env nat unit unit :=
  {| env_reset := env_reset (countdown_env n);
     env_step := env_step (countdown_env n);
     env_render := fun mode =>
       match mode with
       | Some _ => raise (Foreign "NoDisplay")
       | None => ret tt
       end;
     observation_space_sample := ret tt;
     action_space_sample := ret 0%Z;
     action_space_n := 2 |}.

(** * Properties *)

(** ** Running the primitives *)

Lemma bind_Return {E A B} (m : M E A) (k : A -> M E B) w a w' :
  m w = Return a w' -> bind m k w = k a w'.
Proof. intros H. unfold bind. rewrite H. reflexivity. Qed.

Lemma bind_assoc {E A B C} (m : M E A) (f : A -> M E B) (g : B -> M E C) w :
  bind (bind m f) g w = bind m (fun a => bind (f a) g) w.
Proof. unfold bind. destruct (m w); reflexivity. Qed.

Lemma bind_ret_l {E A B} (a : A) (k : A -> M E B) w :
  bind (ret a) k w = k a w.
Proof. reflexivity. Qed.

(** Run the first call of a sequence with the equation [H] of its outcome. *)
Ltac run H :=
  repeat rewrite bind_assoc;
  rewrite (bind_Return _ _ _ _ _ H);
  repeat (rewrite bind_ret_l; cbv beta iota).

Lemma read_buffer_Return {E} (l : loc) (w : world E) b :
  mem w !! l = Some b -> read_buffer l w = Return b w.
Proof.
  intros H. unfold read_buffer, bind, get_mem. rewrite H. reflexivity.
Qed.

Lemma load_Return {E} (l : loc) (i : nat) (w : world E) b v :
  mem w !! l = Some b -> b !! i = Some v -> load l i w = Return v w.
Proof.
  intros Hb Hv. unfold load.
  rewrite (bind_Return _ _ _ _ _ (read_buffer_Return l w b Hb)).
  rewrite Hv. reflexivity.
Qed.

(** Every float drawn lies in [[0, 1)]. *)
Lemma unit_float_bounds (raw : Z) : 0 <= unit_float raw /\ unit_float raw < 1.
Proof.
  unfold unit_float, Qle, Qlt; simpl.
  pose proof (Z.mod_pos_bound raw (Zpos two53) eq_refl). lia.
Qed.

(** ** Computations that leave the store alone *)

Lemma keeps_ret {E A} (h : heap) (a : A) (P : A -> Prop) :
  P a -> keeps (E:=E) h (ret a) P.
Proof. intros Ha w Hw. exists a, w. auto. Qed.

Lemma keeps_bind {E A B} (h : heap) (m : M E A) (k : A -> M E B)
    (P : A -> Prop) (Q : B -> Prop) :
  keeps h m P -> (forall a, P a -> keeps h (k a) Q) -> keeps h (bind m k) Q.
Proof.
  intros Hm Hk w Hw.
  destruct (Hm w Hw) as (a & w1 & Hr & Hw1 & Ha).
  destruct (Hk a Ha w1 Hw1) as (b & w2 & Hr2 & Hw2 & Hb).
  exists b, w2. rewrite (bind_Return _ _ _ _ _ Hr). auto.
Qed.

Lemma keeps_for {E X} (h : heap) (xs : list X) (body : X -> M E unit) :
  (forall x, In x xs -> keeps h (body x) (fun _ => True)) ->
  keeps h (for_ xs body) (fun _ => True).
Proof.
  induction xs as [|x xs IH]; intros Hbody; simpl.
  - apply keeps_ret. exact I.
  - eapply keeps_bind.
    + apply Hbody. left. reflexivity.
    + intros _ _. apply IH. intros y Hy. apply Hbody. right. exact Hy.
Qed.

Lemma keeps_py_next {E} (h : heap) : keeps (E:=E) h py_next (fun _ => True).
Proof. intros w Hw. eexists _, _. split; [reflexivity|]. auto. Qed.

Lemma keeps_np_next {E} (h : heap) : keeps (E:=E) h np_next (fun _ => True).
Proof. intros w Hw. eexists _, _. split; [reflexivity|]. auto. Qed.

Lemma keeps_random_random {E} (h : heap) :
  keeps (E:=E) h random_random (fun _ => True).
Proof.
  eapply keeps_bind; [apply keeps_py_next|].
  intros raw _. apply keeps_ret. exact I.
Qed.

Lemma keeps_np_random_normal {E} (h : heap) (mu sigma : Q) :
  keeps (E:=E) h (np_random_normal mu sigma) (fun _ => True).
Proof.
  eapply keeps_bind; [apply keeps_np_next|].
  intros d _. apply keeps_ret. exact I.
Qed.

Lemma keeps_load {E} (h : heap) (l : loc) (i : nat) b :
  h !! l = Some b -> (i < length b)%nat ->
  keeps (E:=E) h (load l i) (fun _ => True).
Proof.
  intros Hb Hi w Hw.
  destruct (lookup_lt_is_Some_2 b i Hi) as [v Hv].
  exists v, w. split; [|auto].
  apply (load_Return l i w b v); [rewrite Hw; exact Hb | exact Hv].
Qed.

(** ** The mutation scheduler *)

(** On finite operands with a divisor other than zero the division is the
    quotient, whoever the operands are. *)
Lemma mutation_rate_finite (ks kg : kind) (score goal : Q) :
  ~ goal == 0 ->
  mutation_rate (Number ks (Finite score)) (Number kg (Finite goal))
  = inr (Number (kind_join ks kg) (Finite (1 - score / goal))).
Proof.
  intros Hg. unfold mutation_rate, py_truediv, py_sub.
  assert (Hz : Qeq_bool goal 0 = false).
  { destruct (Qeq_bool goal 0) eqn:Hz; [|reflexivity].
    apply Qeq_bool_iff in Hz. contradiction. }
  destruct ks, kg; simpl; rewrite Hz; reflexivity.
Qed.

(** The sign of [1 - score/goal] follows the side of [goal] that [score]
    lies on, which depends on the sign of [goal]. *)
Lemma quotient_sign (score goal : Q) :
  ~ goal == 0 ->
  (1 - score / goal < 0 <->
   (0 < goal /\ goal < score) \/ (goal < 0 /\ score < goal)).
Proof.
  intros Hg.
  assert (Hq : score / goal * goal == score) by (field; exact Hg).
  set (q := score / goal) in *. clearbody q.
  split.
  - intros Hneg.
    destruct (Q_dec goal 0) as [[Hlt | Hgt] | Heq];
      [right | left | contradiction]; split; try assumption; nra.
  - intros [[Hpos Hlt] | [Hneg Hlt]]; nra.
Qed.

(** C10, as amended.  The division by [goal] is unguarded.  When the score
    and the goal are Python numbers, [mutation_rate(score, 0)] raises
    [ZeroDivisionError] whatever the score, and returns no rate.  When one
    of them is an [np.float64] the division is numpy's and nothing is
    raised: [mutation_rate(score, 0)] returns [-inf] for a positive score,
    [inf] for a negative score and [nan] for the score zero. *)
Theorem mutation_rate_zero_goal (ks kg : kind) (score : float_val)
    (goal : Q) :
  goal == 0 ->
  (ks = Python -> kg = Python ->
   mutation_rate (Number ks score) (Number kg (Finite goal))
   = inl ZeroDivisionError)
  /\ (ks = Numpy \/ kg = Numpy ->
      exists r,
        mutation_rate (Number ks score) (Number kg (Finite goal))
        = inr (Number Numpy r)
        /\ (forall s, score = Finite s -> 0 < s -> r = Inf true)
        /\ (forall s, score = Finite s -> s < 0 -> r = Inf false)
        /\ (forall s, score = Finite s -> s == 0 -> r = NaN)).
Proof.
  intros Hz. apply Qeq_bool_iff in Hz. split.
  - intros -> ->. unfold mutation_rate, py_truediv. simpl. rewrite Hz.
    reflexivity.
  - intros Hnp.
    exists (float_sub (Finite 1) (float_div score (Finite goal))).
    split; [|split; [|split]].
    + unfold mutation_rate, py_truediv, py_sub.
      destruct ks, kg; simpl; try reflexivity.
      destruct Hnp; discriminate.
    + intros s -> Hs. simpl. rewrite Hz.
      assert (Hs0 : Qeq_bool s 0 = false).
      { destruct (Qeq_bool s 0) eqn:H0; [|reflexivity].
        apply Qeq_bool_iff in H0. rewrite H0 in Hs.
        apply Qlt_irrefl in Hs. contradiction. }
      assert (Hle : Qle_bool 0 s = true)
        by (apply Qle_bool_iff, Qlt_le_weak; exact Hs).
      rewrite Hs0, Hle. reflexivity.
    + intros s -> Hs. simpl. rewrite Hz.
      assert (Hs0 : Qeq_bool s 0 = false).
      { destruct (Qeq_bool s 0) eqn:H0; [|reflexivity].
        apply Qeq_bool_iff in H0. rewrite H0 in Hs.
        apply Qlt_irrefl in Hs. contradiction. }
      assert (Hle : Qle_bool 0 s = false).
      { destruct (Qle_bool 0 s) eqn:H0; [|reflexivity].
        apply Qle_bool_iff in H0. apply Qle_not_lt in H0. contradiction. }
      rewrite Hs0, Hle. reflexivity.
    + intros s -> Hs. simpl. rewrite Hz.
      apply Qeq_bool_iff in Hs. rewrite Hs. reflexivity.
Qed.

(** A Python score of 5 against the goal 0. *)
Lemma mutation_rate_zero_goal_witness :
  mutation_rate (Number Python (Finite 5)) (Number Python (Finite 0))
  = inl ZeroDivisionError.
Proof.
  apply (proj1 (mutation_rate_zero_goal Python Python (Finite 5) 0
                  (Qeq_refl 0)));
    reflexivity.
Defined.

(** C10 as stated fails: the score 1.0 held as an [np.float64], against the
    goal 0, makes [mutation_rate] return [-inf]; nothing is raised. *)
Lemma mutation_rate_numpy_score_zero_goal :
  mutation_rate (Number Numpy (Finite 1)) (Number Python (Finite 0))
  = inr (Number Numpy (Inf true))
  /\ ~ (forall score : number,
          mutation_rate score (Number Python (Finite 0))
          = inl ZeroDivisionError).
Proof.
  split; [reflexivity|].
  intros H. specialize (H (Number Numpy (Finite 1))). discriminate H.
Qed.

(** C5, as amended.  For a goal other than zero [mutation_rate] returns
    exactly [1 - score/goal], unclamped: 0 when the score equals the goal,
    1 when the score is 0, and negative exactly when the score lies beyond
    the goal on the goal's own side of zero (above a positive goal, below a
    negative one).  This holds for Python numbers and for [np.float64]
    alike; the result is an [np.float64] as soon as one operand is. *)
Theorem mutation_rate_linear (ks kg : kind) (score goal : Q) :
  ~ goal == 0 ->
  mutation_rate (Number ks (Finite score)) (Number kg (Finite goal))
  = inr (Number (kind_join ks kg) (Finite (1 - score / goal))) /\
  (score == goal -> 1 - score / goal == 0) /\
  (score == 0 -> 1 - score / goal == 1) /\
  (1 - score / goal < 0 <->
   (0 < goal /\ goal < score) \/ (goal < 0 /\ score < goal)).
Proof.
  intros Hg. split; [|split; [|split]].
  - apply mutation_rate_finite, Hg.
  - intros Heq. rewrite Heq. field. exact Hg.
  - intros Heq. rewrite Heq. field. exact Hg.
  - apply quotient_sign, Hg.
Qed.

(** Score 3 against goal 2: the rate [1 - 3/2] is negative. *)
Lemma mutation_rate_linear_witness :
  mutation_rate (Number Python (Finite 3)) (Number Python (Finite 2))
  = inr (Number Python (Finite (1 - 3 / 2)))
  /\ 1 - 3 / 2 < 0.
Proof.
  assert (Hg : ~ 2 == 0) by (intros H; discriminate H).
  destruct (mutation_rate_linear Python Python 3 2 Hg) as (Hr & _ & _ & Hs).
  split; [exact Hr|]. apply Hs. left. split; reflexivity.
Defined.

(** C5 as stated fails for a negative goal: with goal -1 and score 0 the
    score is above the goal and the rate is 1. *)
Lemma mutation_rate_negative_goal :
  ~ (forall (ks kg k : kind) (score goal rate : Q),
       ~ goal == 0 ->
       mutation_rate (Number ks (Finite score)) (Number kg (Finite goal))
       = inr (Number k (Finite rate)) ->
       goal < score -> rate < 0).
Proof.
  intros H.
  assert (Hc : 1 - 0 / (-1) < 0).
  { apply (H Python Python Python 0 (-1));
      [intros Hz; discriminate Hz | reflexivity | reflexivity]. }
  vm_compute in Hc. discriminate Hc.
Qed.

(** ** Mutation: the gaussian and uniform strategies *)

Lemma tensor_ok_buffer (h : heap) (t : ndarray) :
  tensor_ok h t = true ->
  exists b, h !! base t = Some b /\ length b = size (shp t).
Proof.
  unfold tensor_ok. destruct (h !! base t) as [b|]; [|discriminate].
  intros H. apply Nat.eqb_eq in H. eauto.
Qed.

Lemma keeps_getitem {E} (h : heap) (el : ndarray) (i : nat) :
  tensor_ok h el = true -> (i < len (shp el))%nat ->
  keeps (E:=E) h (getitem el i)
    (fun x => match shp el with
              | Shape1 _ => exists v, x = Scalar v
              | Shape2 _ _ => x = Row i
              end).
Proof.
  intros Hok Hi. destruct (tensor_ok_buffer h el Hok) as (b & Hb & Hlen).
  unfold getitem. apply Nat.ltb_lt in Hi as Hi'. rewrite Hi'.
  destruct (shp el) as [n|r c] eqn:Hs.
  - eapply keeps_bind.
    + apply (keeps_load h (base el) i b Hb). simpl in *. lia.
    + intros v _. apply keeps_ret. eauto.
  - apply keeps_ret. reflexivity.
Qed.

(** The noise strategies compute on the local copy of a scalar only. *)
Lemma keeps_mutate_item_noise {E} (h : heap) (el : ndarray) (i : nat)
    (rate : Q) (method : string) :
  method = "gaussian"%string \/ method = "uniform"%string ->
  tensor_ok h el = true -> (i < len (shp el))%nat ->
  keeps (E:=E) h (mutate_item el i rate method) (fun _ => True).
Proof.
  intros Hm Hok Hi. unfold mutate_item.
  eapply keeps_bind; [apply (keeps_getitem h el i Hok Hi)|].
  intros swappedRow Hrow.
  eapply keeps_bind; [apply keeps_random_random|]. intros u _.
  destruct (Qltb u rate); [|apply keeps_ret; exact I].
  eapply keeps_bind; [apply keeps_random_random|]. intros u1 _.
  eapply keeps_bind; [apply keeps_random_random|]. intros u2 _.
  match goal with |- context [if ?c then (_, _) else (_, _)] => destruct c end.
  all: assert (Hswap : (method =? "swap")%string = false)
         by (destruct Hm; subst; reflexivity);
       assert (Hscr : (method =? "scramble")%string = false)
         by (destruct Hm; subst; reflexivity);
       assert (Hinv : (method =? "inverse")%string = false)
         by (destruct Hm; subst; reflexivity);
       rewrite Hswap, Hscr, Hinv.
  all: destruct (tensor_ok_buffer h el Hok) as (b & Hb & Hlen).
  all: destruct (shp el) as [n|r c] eqn:Hs;
       [destruct Hrow as [v Hv] | idtac]; subst swappedRow.
  all: try (destruct Hm; subst method; simpl;
            (eapply keeps_bind;
             [first [apply keeps_np_random_normal | apply keeps_random_random]|]);
            intros; apply keeps_ret; exact I).
  all: apply keeps_for; intros col Hcol; unfold range in Hcol;
       apply in_seq in Hcol;
       (eapply keeps_bind;
        [apply (keeps_load h (base el) _ b Hb); simpl in *; nia|]);
       intros inner _;
       destruct Hm; subst method; simpl;
       (eapply keeps_bind;
        [first [apply keeps_np_random_normal | apply keeps_random_random]|]);
       intros; apply keeps_ret; exact I.
Qed.

Lemma forallb_In {A} (f : A -> bool) (l : list A) (x : A) :
  forallb f l = true -> In x l -> f x = true.
Proof. intros H Hx. rewrite forallb_forall in H. auto. Qed.

Lemma keeps_mutation_noise {E} (h : heap) (agent : MLPClassifier) (rate : Q)
    (method : string) :
  method = "gaussian"%string \/ method = "uniform"%string ->
  tensors_ok h agent = true ->
  keeps (E:=E) h (mutationFunc_W_B agent rate method) (fun a => a = agent).
Proof.
  intros Hm Hok. unfold tensors_ok in Hok.
  apply andb_prop in Hok as [Hc Hi].
  unfold mutationFunc_W_B.
  eapply keeps_bind; [|intros _ _; apply keeps_ret; reflexivity].
  apply keeps_for. intros item _.
  apply keeps_for. intros el Hel.
  assert (Hel_ok : tensor_ok h el = true).
  { destruct (item =? 0)%nat;
      [exact (forallb_In _ _ _ Hc Hel) | exact (forallb_In _ _ _ Hi Hel)]. }
  apply keeps_for. intros i Hin. unfold range in Hin. apply in_seq in Hin.
  apply keeps_mutate_item_noise; [exact Hm | exact Hel_ok | lia].
Qed.

(** C2 (the code departs from the claim).  Under the strategy [gaussian],
    whatever the rate and the noise drawn, [mutationFunc_W_B] returns the
    agent with every scalar of every tensor as it was: the noise is added
    to the loop's copy of the scalar, never written back. *)
Theorem gaussian_mutation_changes_nothing {E} (agent : MLPClassifier)
    (rate : Q) (w : world E) :
  tensors_ok (mem w) agent = true ->
  exists w',
    mutationFunc_W_B agent rate "gaussian" w = Return agent w'
    /\ mem w' = mem w.
Proof.
  intros Hok.
  destruct (keeps_mutation_noise (mem w) agent rate "gaussian"
              (or_introl eq_refl) Hok w eq_refl) as (a & w' & Hr & Hm & ->).
  exists w'. auto.
Qed.

(** Rate 1 and a noise of 2 at every draw: thirteen draws, no scalar moved. *)
Lemma gaussian_mutation_changes_nothing_witness :
  exists w',
    mutationFunc_W_B (network_at 0) 1 "gaussian"
      (tape_world sample_buffers half_draw 0 1) = Return (network_at 0) w'
    /\ mem w' = sample_buffers.
Proof.
  apply (gaussian_mutation_changes_nothing (network_at 0) 1
           (tape_world sample_buffers half_draw 0 1)).
  reflexivity.
Defined.

(** ** Mutation: the swap strategy *)

(** The index [int(random.random() * len(el))] falls inside the array. *)
Lemma draw_index_lt (raw : Z) (n : nat) :
  (0 < n)%nat ->
  (Z.to_nat (py_int (unit_float raw * inject_Z (Z.of_nat n))) < n)%nat.
Proof.
  intros Hn.
  destruct (unit_float_bounds raw) as [H0 H1].
  set (u := unit_float raw) in *.
  assert (Hn' : 0 < inject_Z (Z.of_nat n)).
  { change 0 with (inject_Z 0). rewrite <- Zlt_Qlt. lia. }
  assert (Hlo : 0 <= u * inject_Z (Z.of_nat n)) by nra.
  assert (Hhi : u * inject_Z (Z.of_nat n) < inject_Z (Z.of_nat n)) by nra.
  assert (Hint : py_int (u * inject_Z (Z.of_nat n))
                 = Qfloor (u * inject_Z (Z.of_nat n))).
  { unfold py_int.
    destruct (Qnum (u * inject_Z (Z.of_nat n)) <? 0)%Z eqn:Hneg;
      [|reflexivity].
    apply Z.ltb_lt in Hneg. unfold Qle in Hlo. simpl in Hlo, Hneg. lia. }
  rewrite Hint.
  assert (Hf0 : (0 <= Qfloor (u * inject_Z (Z.of_nat n)))%Z).
  { change 0%Z with (Qfloor 0). apply Qfloor_resp_le. exact Hlo. }
  assert (Hf1 : (Qfloor (u * inject_Z (Z.of_nat n)) < Z.of_nat n)%Z).
  { rewrite Zlt_Qlt. eapply Qle_lt_trans; [apply Qfloor_le | exact Hhi]. }
  lia.
Qed.

Lemma random_random_Return {E} (w : world E) :
  random_random w
  = Return (unit_float (py_bits w (py_pos w))) (set_py_pos (S (py_pos w)) w).
Proof. reflexivity. Qed.

Lemma take_one_drop {A} (l : list A) (i : nat) (v : A) :
  l !! i = Some v -> take 1 (drop i l) = [v].
Proof. intros H. rewrite (drop_S l v i H). reflexivity. Qed.

(** [el[k] = x] for the item [x] that indexing [el] at [i] yielded: the
    scalars of item [i] are copied over item [k]. *)
Lemma setitem_Return {E} (el : ndarray) (i k : nat) (x : item) (w : world E)
    (b : list Q) :
  mem w !! base el = Some b -> length b = size (shp el) ->
  (i < len (shp el))%nat -> (k < len (shp el))%nat ->
  match shp el with
  | Shape1 _ => exists v, x = Scalar v /\ b !! i = Some v
  | Shape2 _ _ => x = Row i
  end ->
  setitem el k x w
  = Return tt
      (set_mem (<[base el := take (k * rowsize (shp el)) b
                               ++ item_scalars (shp el) b i
                               ++ drop (S k * rowsize (shp el)) b]> (mem w))
         w).
Proof.
  intros Hb Hlen Hi Hk Hx. unfold setitem, item_scalars.
  apply Nat.ltb_lt in Hk as Hk'. apply Nat.ltb_lt in Hi as Hi'.
  destruct (shp el) as [n|r c] eqn:Hs.
  - destruct Hx as (v & -> & Hv). unfold write_row.
    rewrite Hs. simpl len. simpl rowsize. rewrite Hk'.
    run (read_buffer_Return (base el) w b Hb).
    cbn [rowsize replicate]. rewrite !Nat.mul_1_r, (take_one_drop b i v Hv).
    reflexivity.
  - subst x. unfold read_row, write_row.
    rewrite Hs. cbn [len rowsize] in *. rewrite Hi', Hk'.
    run (read_buffer_Return (base el) w b Hb).
    run (read_buffer_Return (base el) w b Hb).
    reflexivity.
Qed.

Lemma getitem_Return {E} (el : ndarray) (i : nat) (w : world E) (b : list Q) :
  mem w !! base el = Some b -> length b = size (shp el) ->
  (i < len (shp el))%nat ->
  exists x,
    getitem el i w = Return x w
    /\ match shp el with
       | Shape1 _ => exists v, x = Scalar v /\ b !! i = Some v
       | Shape2 _ _ => x = Row i
       end.
Proof.
  intros Hb Hlen Hi. unfold getitem.
  apply Nat.ltb_lt in Hi as Hi'. rewrite Hi'.
  destruct (shp el) as [n|r c] eqn:Hs.
  - destruct (lookup_lt_is_Some_2 b i ltac:(simpl in *; lia)) as [v Hv].
    exists (Scalar v). split; [|eauto].
    run (load_Return (base el) i w b v Hb Hv). reflexivity.
  - exists (Row i). split; reflexivity.
Qed.

(** What one triggered [swap] does, for every array, item and draws: the
    scalars of the item the loop is at are copied over the item at the
    smaller of the two drawn indices, and nothing is exchanged; the larger
    index is not used. *)
Lemma swap_copies_item {E} (el : ndarray) (i : nat) (rate : Q) (w : world E)
    (b : list Q) :
  mem w !! base el = Some b -> length b = size (shp el) ->
  (i < len (shp el))%nat ->
  Qltb (unit_float (py_bits w (py_pos w))) rate = true ->
  let n := inject_Z (Z.of_nat (len (shp el))) in
  let r1 := Z.to_nat (py_int (unit_float (py_bits w (S (py_pos w))) * n)) in
  let r2 :=
    Z.to_nat (py_int (unit_float (py_bits w (S (S (py_pos w)))) * n)) in
  let random1 := Nat.min r1 r2 in
  mutate_item el i rate "swap" w
  = Return tt
      (set_mem (<[base el := take (random1 * rowsize (shp el)) b
                               ++ item_scalars (shp el) b i
                               ++ drop (S random1 * rowsize (shp el)) b]>
                  (mem w))
         (set_py_pos (S (S (S (py_pos w)))) w)).
Proof.
  intros Hb Hlen Hi Hcoin n r1 r2 random1.
  assert (Hpos : (0 < len (shp el))%nat) by lia.
  assert (Hr1 : (r1 < len (shp el))%nat) by (apply draw_index_lt; exact Hpos).
  assert (Hr2 : (r2 < len (shp el))%nat) by (apply draw_index_lt; exact Hpos).
  assert (Hmin : (random1 < len (shp el))%nat) by (unfold random1; lia).
  destruct (getitem_Return el i w b Hb Hlen Hi) as (x & Hget & Hx).
  unfold mutate_item. run Hget.
  run (random_random_Return w). rewrite Hcoin.
  set (w1 := set_py_pos (S (py_pos w)) w).
  run (random_random_Return w1).
  set (w2 := set_py_pos (S (py_pos w1)) w1).
  run (random_random_Return w2).
  set (w3 := set_py_pos (S (py_pos w2)) w2).
  change (py_bits w1 (py_pos w1)) with (py_bits w (S (py_pos w))).
  change (py_bits w2 (py_pos w2)) with (py_bits w (S (S (py_pos w)))).
  fold n. fold r1. fold r2.
  assert (Hpick : (if (r2 <? r1)%nat then (r2, r1) else (r1, r2))
                  = (random1, Nat.max r1 r2)).
  { unfold random1. destruct (Nat.ltb_spec r2 r1).
    - rewrite Nat.min_r, Nat.max_l by lia. reflexivity.
    - rewrite Nat.min_l, Nat.max_r by lia. reflexivity. }
  rewrite Hpick. cbv beta iota. cbn [String.eqb Ascii.eqb Bool.eqb].
  destruct (getitem_Return el random1 w3 b Hb Hlen Hmin) as (x' & Hget' & _).
  run Hget'.
  rewrite (setitem_Return el i random1 x w3 b Hb Hlen Hi Hmin Hx).
  reflexivity.
Qed.

(** C4 (the code departs from the claim).  With rate 1 and every
    [random.random()] draw equal to 0.5, the strategy [swap] copies the
    item the loop is at over the item at [random1] and leaves the item of
    the loop as it was: in the 4x1 weight matrix 5, 6, 7, 8 the value 7 is
    lost and 8 appears twice, and likewise 11 in the bias vector
    9, 10, 11, 12.  No two positions exchange their values. *)
Theorem swap_mutation_overwrites :
  outcome (mutationFunc_W_B (network_at 0) 1 "swap"
             (tape_world sample_buffers half_draw 0 0))
  = Some (network_at 0,
          [ [1; 2; 3; 4]; [5; 6; 8; 8]; [9; 10; 12; 12]; [13] ]).
Proof. vm_compute. reflexivity. Qed.

(** ** Blend crossover *)

Lemma py_index_Return {E A} (l : list A) (i : nat) (a : A) (w : world E) :
  l !! i = Some a -> py_index l i w = Return a w.
Proof. intros H. unfold py_index. rewrite H. reflexivity. Qed.

Lemma read_array_Return {E} (t : ndarray) (w : world E) b :
  mem w !! base t = Some b -> length b = size (shp t) ->
  read_array t w = Return b w.
Proof.
  intros Hb Hl. unfold read_array.
  rewrite (bind_Return _ _ _ _ _ (read_buffer_Return _ _ _ Hb)).
  rewrite take_ge by lia. reflexivity.
Qed.

(** The [n] draws of [np.random.uniform(0, 1, n)] are the next [n] raw
    draws of numpy's tape. *)
Lemma np_random_uniform_n_Return {E} (n : nat) (w : world E) :
  exists w',
    np_random_uniform_n n w
    = Return (map (fun k => unit_float (np_bits w (np_pos w + k))) (seq 0 n)) w'
    /\ mem w' = mem w /\ np_bits w' = np_bits w
    /\ np_pos w' = (np_pos w + n)%nat.
Proof.
  revert w. induction n as [|n IH]; intros w.
  - exists w. simpl. repeat split. lia.
  - destruct (IH (set_np_pos (S (np_pos w)) w)) as (w' & Hr & Hm & Hb & Hp).
    exists w'. split; [|simpl in *; repeat split; try assumption; lia].
    change (np_random_uniform_n (S n) w)
      with (bind np_random_uniform
              (fun u => bind (np_random_uniform_n n)
                          (fun us => ret (u :: us))) w).
    unfold bind at 1. unfold np_random_uniform at 1. unfold bind at 1.
    unfold np_next at 1. cbv beta iota. unfold ret at 1. cbv beta iota.
    rewrite (bind_Return _ _ _ _ _ Hr). unfold ret. simpl fst.
    f_equal. change (seq 0 (S n)) with (0%nat :: seq 1 n).
    rewrite map_cons, Nat.add_0_r. f_equal.
    rewrite <- seq_shift, map_map. apply map_ext.
    intros k. simpl. rewrite Nat.add_succ_r. reflexivity.
Qed.

Lemma np_broadcast_same {E} (f : Q -> Q -> Q) (xs ys : list Q) (w : world E) :
  length xs = length ys ->
  np_broadcast f xs ys w = Return (zip_with f xs ys) w.
Proof.
  intros H. unfold np_broadcast.
  apply Nat.eqb_eq in H. rewrite H. reflexivity.
Qed.

Lemma blend_between (a b u : Q) :
  0 <= u -> u < 1 -> Qmin a b <= a + u * (b - a) <= Qmax a b.
Proof.
  intros H0 H1.
  destruct (Qlt_le_dec b a) as [Hba | Hab].
  - rewrite (Q.min_r a b), (Q.max_l a b) by (apply Qlt_le_weak; exact Hba).
    split; nra.
  - rewrite (Q.min_l a b), (Q.max_r a b) by exact Hab.
    split; nra.
Qed.

Lemma de_blend_Return {E} (attr : MLPClassifier -> list ndarray)
    (nn1 nn2 : MLPClassifier) (i : nat) (w : world E) t1 t2 x1 x2 :
  attr nn1 !! i = Some t1 -> attr nn2 !! i = Some t2 ->
  mem w !! base t1 = Some x1 -> mem w !! base t2 = Some x2 ->
  length x1 = size (shp t1) -> length x2 = size (shp t1) ->
  size (shp t2) = size (shp t1) ->
  exists w' y,
    de_blend attr nn1 nn2 i w
    = Return {| base := length (mem w); shp := shp t1 |} w'
    /\ mem w' = mem w ++ [y] /\ np_bits w' = np_bits w
    /\ blend_of (np_bits w) x1 x2 y.
Proof.
  intros H1 H2 Hx1 Hx2 Hl1 Hl2 Hsz.
  destruct (np_random_uniform_n_Return (size (shp t1)) w)
    as (w1 & Hus & Hm1 & Hb1 & _).
  set (us := map (fun k => unit_float (np_bits w (np_pos w + k)))
               (seq 0 (size (shp t1)))) in *.
  assert (Hlus : length us = size (shp t1))
    by (unfold us; rewrite length_map, length_seq; reflexivity).
  set (y := zip_with Qplus x1 (zip_with Qmult us (zip_with Qminus x2 x1))).
  assert (Hly : length y = size (shp t1)).
  { unfold y. rewrite !length_zip_with. lia. }
  exists (set_mem (mem w ++ [y]) w1), y.
  split; [|split; [|split; [|split]]].
  - unfold de_blend.
    rewrite (bind_Return _ _ _ _ _ (py_index_Return _ _ _ w H1)).
    rewrite (bind_Return _ _ _ _ _ (py_index_Return _ _ _ w H2)).
    rewrite (bind_Return _ _ _ _ _
               (read_array_Return (np_ravel t1) w x1 Hx1 Hl1)).
    simpl len. rewrite (bind_Return _ _ _ _ _ Hus).
    assert (Hx2' : mem w1 !! base (np_ravel t2) = Some x2)
      by (rewrite Hm1; exact Hx2).
    assert (Hl2' : length x2 = size (shp (np_ravel t2))) by (simpl; lia).
    rewrite (bind_Return _ _ _ _ _
               (read_array_Return (np_ravel t2) w1 x2 Hx2' Hl2')).
    assert (Hd : length x2 = length x1) by lia.
    rewrite (bind_Return _ _ _ _ _ (np_broadcast_same Qminus x2 x1 w1 Hd)).
    assert (Hp : length us = length (zip_with Qminus x2 x1))
      by (rewrite length_zip_with; lia).
    rewrite (bind_Return _ _ _ _ _ (np_broadcast_same Qmult us _ w1 Hp)).
    assert (Hs : length x1
                 = length (zip_with Qmult us (zip_with Qminus x2 x1)))
      by (rewrite !length_zip_with; lia).
    rewrite (bind_Return _ _ _ _ _ (np_broadcast_same Qplus x1 _ w1 Hs)).
    fold y. unfold alloc, bind, get_mem, put_mem, ret, reshape. simpl.
    rewrite Hly, Nat.eqb_refl, Hm1. reflexivity.
  - reflexivity.
  - simpl. exact Hb1.
  - lia.
  - intros j a b Ha Hb.
    assert (Hj : (j < size (shp t1))%nat)
      by (apply lookup_lt_Some in Ha; lia).
    exists (np_pos w + j)%nat, (a + unit_float (np_bits w (np_pos w + j)) * (b - a)).
    destruct (unit_float_bounds (np_bits w (np_pos w + j))) as [Hu0 Hu1].
    split; [|split; [reflexivity | split; [split; assumption |]]].
    + unfold y.
      rewrite !lookup_zip_with, Ha, Hb. simpl.
      unfold us. rewrite list_lookup_fmap, lookup_seq_lt by lia. reflexivity.
    + apply blend_between; assumption.
Qed.

Lemma shape_eqb_eq (s1 s2 : shape) : shape_eqb s1 s2 = true -> s1 = s2.
Proof.
  destruct s1, s2; simpl; try discriminate.
  - intros H. apply Nat.eqb_eq in H. congruence.
  - intros H. apply andb_prop in H as [H1 H2].
    apply Nat.eqb_eq in H1, H2. congruence.
Qed.

Lemma layer_ok_inv (h : heap) (attr : MLPClassifier -> list ndarray)
    (nn1 nn2 : MLPClassifier) (i : nat) :
  layer_ok h attr nn1 nn2 i = true ->
  exists t1 t2 x1 x2,
    attr nn1 !! i = Some t1 /\ attr nn2 !! i = Some t2
    /\ h !! base t1 = Some x1 /\ h !! base t2 = Some x2
    /\ length x1 = size (shp t1) /\ length x2 = size (shp t1)
    /\ shp t2 = shp t1.
Proof.
  unfold layer_ok.
  destruct (attr nn1 !! i) as [t1|]; [|discriminate].
  destruct (attr nn2 !! i) as [t2|]; [|discriminate].
  intros H. apply andb_prop in H as [H Hs]. apply andb_prop in H as [H1 H2].
  apply shape_eqb_eq in Hs.
  destruct (tensor_ok_buffer _ _ H1) as (x1 & Hx1 & Hl1).
  destruct (tensor_ok_buffer _ _ H2) as (x2 & Hx2 & Hl2).
  exists t1, t2, x1, x2. rewrite <- Hs in Hl2.
  repeat split; auto.
Qed.

(** One blend, run in a store that has grown since the parents were
    checked: a new buffer is appended and nothing else moves. *)
Lemma de_blend_layer {E} (h : heap) (attr : MLPClassifier -> list ndarray)
    (nn1 nn2 : MLPClassifier) (i : nat) (w : world E) (more : heap) :
  layer_ok h attr nn1 nn2 i = true -> mem w = h ++ more ->
  exists w' t1 t2 x1 x2 y,
    de_blend attr nn1 nn2 i w
    = Return {| base := length (mem w); shp := shp t1 |} w'
    /\ mem w' = h ++ more ++ [y] /\ np_bits w' = np_bits w
    /\ attr nn1 !! i = Some t1 /\ attr nn2 !! i = Some t2
    /\ h !! base t1 = Some x1 /\ h !! base t2 = Some x2
    /\ blend_of (np_bits w) x1 x2 y.
Proof.
  intros Hok Hmem.
  destruct (layer_ok_inv _ _ _ _ _ Hok)
    as (t1 & t2 & x1 & x2 & H1 & H2 & Hx1 & Hx2 & Hl1 & Hl2 & Hs).
  assert (Hx1' : mem w !! base t1 = Some x1)
    by (rewrite Hmem; apply lookup_app_l_Some; exact Hx1).
  assert (Hx2' : mem w !! base t2 = Some x2)
    by (rewrite Hmem; apply lookup_app_l_Some; exact Hx2).
  assert (Hsz : size (shp t2) = size (shp t1)) by (rewrite Hs; reflexivity).
  destruct (de_blend_Return attr nn1 nn2 i w t1 t2 x1 x2
              H1 H2 Hx1' Hx2' Hl1 Hl2 Hsz) as (w' & y & Hr & Hm & Hb & Hbl).
  exists w', t1, t2, x1, x2, y.
  split; [exact Hr|]. split; [rewrite Hm, Hmem, <- app_assoc; reflexivity|].
  repeat (split; [assumption|]). exact Hbl.
Qed.

(** [de_crossover] on well-formed parents: four buffers are appended to the
    store, in the order weights 0, biases 0, weights 1, biases 1, and the
    views returned look at them. *)
Lemma de_crossover_Return {E} (nn1 nn2 : MLPClassifier) (w : world E) :
  parents_ok (mem w) nn1 nn2 = true ->
  exists newcoefs newintercepts w' y0 y1 y2 y3,
    de_crossover nn1 nn2 w = Return (newcoefs, newintercepts) w'
    /\ mem w' = mem w ++ [y0; y1; y2; y3]
    /\ blended (blend_of (np_bits w)) (mem w) (mem w')
         (coefs_ nn1) (coefs_ nn2) newcoefs
    /\ blended (blend_of (np_bits w)) (mem w) (mem w')
         (intercepts_ nn1) (intercepts_ nn2) newintercepts.
Proof.
  intros Hok. unfold parents_ok in Hok.
  apply andb_prop in Hok as [Hok Hb1]. apply andb_prop in Hok as [Hok Hc1].
  apply andb_prop in Hok as [Hc0 Hb0].
  set (h := mem w) in *.
  destruct (de_blend_layer h coefs_ nn1 nn2 0 w [] Hc0)
    as (w1 & tc0 & tc0' & xc0 & xc0' & y0 & Hr0 & Hm0 & Hbits0
        & Hc0a & Hc0b & Hc0x & Hc0y & Hbl0);
    [symmetry; apply app_nil_r|].
  destruct (de_blend_layer h intercepts_ nn1 nn2 0 w1 [y0] Hb0 Hm0)
    as (w2 & tb0 & tb0' & xb0 & xb0' & y1 & Hr1 & Hm1 & Hbits1
        & Hb0a & Hb0b & Hb0x & Hb0y & Hbl1).
  destruct (de_blend_layer h coefs_ nn1 nn2 1 w2 [y0; y1] Hc1 Hm1)
    as (w3 & tc1 & tc1' & xc1 & xc1' & y2 & Hr2 & Hm2 & Hbits2
        & Hc1a & Hc1b & Hc1x & Hc1y & Hbl2).
  destruct (de_blend_layer h intercepts_ nn1 nn2 1 w3 [y0; y1; y2] Hb1 Hm2)
    as (w4 & tb1 & tb1' & xb1 & xb1' & y3 & Hr3 & Hm3 & Hbits3
        & Hb1a & Hb1b & Hb1x & Hb1y & Hbl3).
  rewrite Hbits2, Hbits1, Hbits0 in Hbl3. rewrite Hbits1, Hbits0 in Hbl2.
  rewrite Hbits0 in Hbl1.
  simpl app in *. fold h in Hm0.
  eexists _, _, w4, y0, y1, y2, y3.
  split; [|split; [exact Hm3|split]].
  - unfold de_crossover. cbn [for_fold range seq].
    run Hr0. run Hr1. run Hr2. run Hr3. reflexivity.
  - split; [reflexivity|]. intros i Hi.
    assert (Hcases : i = 0%nat \/ i = 1%nat) by lia.
    destruct Hcases as [-> | ->].
    + exists tc0, tc0', {| base := length (mem w); shp := shp tc0 |},
        xc0, xc0', y0.
      rewrite Hm3. fold h.
      repeat match goal with |- _ /\ _ => split end; try assumption; try reflexivity; try (simpl; lia).
      simpl base. apply (list_lookup_middle h [y1; y2; y3] y0). reflexivity.
    + exists tc1, tc1', {| base := length (mem w2); shp := shp tc1 |},
        xc1, xc1', y2.
      rewrite Hm3, Hm1.
      repeat match goal with |- _ /\ _ => split end; try assumption; try reflexivity;
        try (simpl; rewrite length_app; simpl; lia).
      simpl base.
      change (h ++ [y0; y1; y2; y3]) with (h ++ [y0; y1] ++ y2 :: [y3]).
      rewrite app_assoc. apply list_lookup_middle. reflexivity.
  - split; [reflexivity|]. intros i Hi.
    assert (Hcases : i = 0%nat \/ i = 1%nat) by lia.
    destruct Hcases as [-> | ->].
    + exists tb0, tb0', {| base := length (mem w1); shp := shp tb0 |},
        xb0, xb0', y1.
      rewrite Hm3, Hm0.
      repeat match goal with |- _ /\ _ => split end; try assumption; try reflexivity;
        try (simpl; rewrite length_app; simpl; lia).
      simpl base.
      change (h ++ [y0; y1; y2; y3]) with (h ++ [y0] ++ y1 :: [y2; y3]).
      rewrite app_assoc. apply list_lookup_middle. reflexivity.
    + exists tb1, tb1', {| base := length (mem w3); shp := shp tb1 |},
        xb1, xb1', y3.
      rewrite Hm3, Hm2.
      repeat match goal with |- _ /\ _ => split end; try assumption; try reflexivity;
        try (simpl; rewrite length_app; simpl; lia).
      simpl base.
      change (h ++ [y0; y1; y2; y3]) with (h ++ [y0; y1; y2] ++ y3 :: []).
      rewrite app_assoc. apply list_lookup_middle. reflexivity.
Qed.

Lemma blend_self (bits : nat -> Z) (x y : list Q) :
  blend_of bits x x y -> Forall2 Qeq y x.
Proof.
  intros [Hlen Hy]. apply Forall2_same_length_lookup_2; [exact Hlen|].
  intros j o a Ho Ha.
  destruct (Hy j a a Ha Ha) as (k & o' & Ho' & -> & _).
  rewrite Ho in Ho'. injection Ho' as ->. ring.
Qed.

Lemma blended_self (bits : nat -> Z) (h h' : heap) (ps out : list ndarray) :
  blended (blend_of bits) h h' ps ps out ->
  blended (fun x1 _ y => Forall2 Qeq y x1) h h' ps ps out.
Proof.
  intros [Hlen Hb]. split; [exact Hlen|]. intros i Hi.
  destruct (Hb i Hi)
    as (t1 & t2 & c & x1 & x2 & y & H1 & H2 & Hc & Hs & Hf & Hx1 & Hx2 & Hy & Hbl).
  assert (t2 = t1) by congruence. subst t2.
  assert (x2 = x1) by congruence. subst x2.
  exists t1, t1, c, x1, x1, y.
  repeat match goal with |- _ /\ _ => split end; try assumption.
  apply (blend_self bits). exact Hbl.
Qed.

(** [de_crossover] allocates: the store only grows, so no parent scalar is
    touched, and every tensor returned lies in the new part of the store. *)
Lemma de_crossover_allocates {E} (nn1 nn2 : MLPClassifier) (w : world E) :
  parents_ok (mem w) nn1 nn2 = true ->
  exists newcoefs newintercepts w' new,
    de_crossover nn1 nn2 w = Return (newcoefs, newintercepts) w'
    /\ mem w' = mem w ++ new
    /\ Forall (fun c => (length (mem w) <= base c)%nat)
         (newcoefs ++ newintercepts).
Proof.
  intros Hok.
  destruct (de_crossover_Return nn1 nn2 w Hok)
    as (nc & ni & w' & y0 & y1 & y2 & y3 & Hr & Hm & [Hlc Hc] & [Hli Hi]).
  exists nc, ni, w', [y0; y1; y2; y3].
  split; [exact Hr|]. split; [exact Hm|].
  apply Forall_app. split; apply Forall_lookup_2; intros i c Hic.
  - assert (Hlt : (i < 2)%nat) by (apply lookup_lt_Some in Hic; lia).
    destruct (Hc i Hlt) as (_ & _ & c' & _ & _ & _ & _ & _ & Hc' & _ & Hf & _).
    congruence.
  - assert (Hlt : (i < 2)%nat) by (apply lookup_lt_Some in Hic; lia).
    destruct (Hi i Hlt) as (_ & _ & c' & _ & _ & _ & _ & _ & Hc' & _ & Hf & _).
    congruence.
Qed.

(** C8.  On parents of one topology, whatever the draws, [de_crossover]
    returns tensors of the parents' shapes whose every scalar is
    [a + u * (b - a)] for the parents' scalars [a], [b] at that place and a
    draw [u] of numpy's tape with [0 <= u < 1], and therefore lies between
    [a] and [b] inclusive; when both parents are the same agent the
    tensors returned equal that agent's. *)
Theorem de_crossover_between {E} (nn1 nn2 : MLPClassifier) (w : world E) :
  parents_ok (mem w) nn1 nn2 = true ->
  exists newcoefs newintercepts w',
    de_crossover nn1 nn2 w = Return (newcoefs, newintercepts) w'
    /\ blended (blend_of (np_bits w)) (mem w) (mem w')
         (coefs_ nn1) (coefs_ nn2) newcoefs
    /\ blended (blend_of (np_bits w)) (mem w) (mem w')
         (intercepts_ nn1) (intercepts_ nn2) newintercepts
    /\ (nn2 = nn1 ->
        blended (fun x1 _ y => Forall2 Qeq y x1) (mem w) (mem w')
          (coefs_ nn1) (coefs_ nn1) newcoefs
        /\ blended (fun x1 _ y => Forall2 Qeq y x1) (mem w) (mem w')
             (intercepts_ nn1) (intercepts_ nn1) newintercepts).
Proof.
  intros Hok.
  destruct (de_crossover_Return nn1 nn2 w Hok)
    as (nc & ni & w' & y0 & y1 & y2 & y3 & Hr & Hm & Hc & Hi).
  exists nc, ni, w'.
  split; [exact Hr|]. split; [exact Hc|]. split; [exact Hi|].
  intros ->. split; eapply blended_self; eassumption.
Qed.

(** A network of scalars 1..13 crossed with one whose scalars are all 1. *)
Lemma de_crossover_between_witness :
  exists newcoefs newintercepts w',
    de_crossover (network_at 0) (network_at 8)
      (tape_world four_networks' 0 half_draw 0)
    = Return (newcoefs, newintercepts) w'
    /\ blended (blend_of (fun _ => half_draw)) four_networks' (mem w')
         (coefs_ (network_at 0)) (coefs_ (network_at 8)) newcoefs.
Proof.
  destruct (de_crossover_between (network_at 0) (network_at 8)
              (tape_world four_networks' 0 half_draw 0) eq_refl)
    as (nc & ni & w' & Hr & Hc & _).
  exists nc, ni, w'. split; [exact Hr | exact Hc].
Defined.

(** ** Classic differential-evolution crossover *)

(** C1 (the code departs from the claim).  With every element selected
    ([r = 0 < CR]), [de_crossover_classic] returns the very views the
    target agent holds, and the target's four buffers, 1..13 before the
    call, hold [donor1 + F * (donor2 - donor3) = 0.8] after it: the child
    is written into the parent through the flat views of [np.ravel]. *)
Theorem classic_crossover_overwrites_target :
  take 4 four_networks' = sample_buffers
  /\ outcome (de_crossover_classic (network_at 0) donors
                (tape_world four_networks' 0 0 0))
     = Some (coefs_ (network_at 0), intercepts_ (network_at 0),
             constant_buffers 0.8 ++ drop 4 four_networks').
Proof. split; vm_compute; reflexivity. Qed.

(** *** The element loop *)

Lemma np_random_uniform_Return {E} (w : world E) :
  np_random_uniform w
  = Return (unit_float (np_bits w (np_pos w))) (set_np_pos (S (np_pos w)) w).
Proof. reflexivity. Qed.

Lemma flat_get_Return {E} (a : ndarray) (j : nat) (w : world E) b v :
  mem w !! base a = Some b -> (j < size (shp a))%nat -> b !! j = Some v ->
  flat_get a j w = Return v w.
Proof.
  intros Hb Hj Hv. unfold flat_get.
  apply Nat.ltb_lt in Hj. rewrite Hj.
  apply (load_Return _ _ _ b v Hb Hv).
Qed.

Lemma flat_set_Return {E} (a : ndarray) (j : nat) (v : Q) (w : world E) b :
  mem w !! base a = Some b -> (j < size (shp a))%nat -> (j < length b)%nat ->
  flat_set a j v w
  = Return tt (set_mem (<[base a := <[j := v]> b]> (mem w)) w).
Proof.
  intros Hb Hj Hjb. unfold flat_set, store.
  apply Nat.ltb_lt in Hj. rewrite Hj.
  rewrite (bind_Return _ _ _ _ _ (read_buffer_Return _ _ _ Hb)).
  apply Nat.ltb_lt in Hjb. rewrite Hjb. reflexivity.
Qed.

Section ClassicLoop.
Context {E : Type}.
Variables (agentFlat flat1 flat2 flat3 : ndarray).
Variables (n R q : nat) (bits : nat -> Z) (v1 v2 v3 : list Q).
Hypothesis size_target : size (shp agentFlat) = n.
Hypothesis size_1 : size (shp flat1) = n.
Hypothesis size_2 : size (shp flat2) = n.
Hypothesis size_3 : size (shp flat3) = n.
Hypothesis length_1 : length v1 = n.
Hypothesis length_2 : length v2 = n.
Hypothesis length_3 : length v3 = n.
Hypothesis other_1 : base flat1 <> base agentFlat.
Hypothesis other_2 : base flat2 <> base agentFlat.
Hypothesis other_3 : base flat3 <> base agentFlat.

(** Running the elements [j0 .. j0+k-1]: only the target's buffer
    changes, and only at the replaced indices of that range. *)
Lemma classic_loop (k : nat) :
  forall (j0 : nat) (w : world E) (x : list Q),
    (j0 + k <= n)%nat ->
    np_bits w = bits -> np_pos w = (q + j0)%nat ->
    mem w !! base agentFlat = Some x -> length x = n ->
    mem w !! base flat1 = Some v1 ->
    mem w !! base flat2 = Some v2 ->
    mem w !! base flat3 = Some v3 ->
    exists w' y,
      for_ (seq j0 k) (de_classic_element agentFlat flat1 flat2 flat3 R) w
      = Return tt w'
      /\ mem w' = <[base agentFlat := y]> (mem w)
      /\ np_bits w' = bits
      /\ np_pos w' = (q + j0 + k)%nat
      /\ length y = n
      /\ forall j,
           y !! j = if (j0 <=? j)%nat && (j <? j0 + k)%nat
                       && replaced bits q R j
                    then donor_mix v1 v2 v3 j
                    else x !! j.
Proof.
  induction k as [|k IH]; intros j0 w x Hk Hbits Hpos Hx Hlx H1 H2 H3.
  - exists w, x. simpl. repeat split; auto.
    + symmetry. apply list_insert_id. exact Hx.
    + lia.
    + intros j.
      destruct (Nat.leb_spec j0 j), (Nat.ltb_spec j (j0 + 0));
        simpl; try reflexivity; lia.
  - assert (Hj0 : (j0 < n)%nat) by lia.
    destruct (lookup_lt_is_Some_2 v1 j0 ltac:(lia)) as [a Ha].
    destruct (lookup_lt_is_Some_2 v2 j0 ltac:(lia)) as [b Hb].
    destruct (lookup_lt_is_Some_2 v3 j0 ltac:(lia)) as [c Hc].
    set (w1 := set_np_pos (S (np_pos w)) w).
    assert (Hlt : (base agentFlat < length (mem w))%nat)
      by (apply lookup_lt_Some in Hx; exact Hx).
    change (seq j0 (S k)) with (j0 :: seq (S j0) k).
    cbn [for_]. unfold de_classic_element at 1.
    run (np_random_uniform_Return w). fold w1.
    rewrite Hbits, Hpos. fold (replaced bits q R j0).
    destruct (replaced bits q R j0) eqn:Hrep.
    + assert (H1' : mem w1 !! base flat1 = Some v1) by exact H1.
      assert (H2' : mem w1 !! base flat2 = Some v2) by exact H2.
      assert (H3' : mem w1 !! base flat3 = Some v3) by exact H3.
      assert (Hx' : mem w1 !! base agentFlat = Some x) by exact Hx.
      run (flat_get_Return flat1 j0 w1 v1 a H1' ltac:(lia) Ha).
      run (flat_get_Return flat2 j0 w1 v2 b H2' ltac:(lia) Hb).
      run (flat_get_Return flat3 j0 w1 v3 c H3' ltac:(lia) Hc).
      set (v := a + F * (b - c)).
      run (flat_set_Return agentFlat j0 v w1 x Hx' ltac:(lia) ltac:(lia)).
      set (x2 := <[j0 := v]> x).
      set (w2 := set_mem (<[base agentFlat := x2]> (mem w1)) w1).
      destruct (IH (S j0) w2 x2) as (w' & y & Hr & Hm & Hb' & Hp' & Hly & Hy).
      * lia.
      * exact Hbits.
      * unfold w2, w1; simpl. lia.
      * unfold w2, w1; simpl. apply list_lookup_insert_eq. exact Hlt.
      * unfold x2. rewrite length_insert. exact Hlx.
      * unfold w2, w1; simpl. rewrite list_lookup_insert_ne by congruence. exact H1.
      * unfold w2, w1; simpl. rewrite list_lookup_insert_ne by congruence. exact H2.
      * unfold w2, w1; simpl. rewrite list_lookup_insert_ne by congruence. exact H3.
      * exists w', y. split; [exact Hr|].
        split; [rewrite Hm; unfold w2, w1; simpl;
                apply list_insert_insert_eq|].
        split; [exact Hb'|]. split; [lia|]. split; [exact Hly|].
        intros j. rewrite Hy.
        destruct (Nat.eq_dec j j0) as [-> | Hne].
        -- replace (S j0 <=? j0)%nat with false
             by (symmetry; apply Nat.leb_gt; lia).
           replace (j0 <=? j0)%nat with true
             by (symmetry; apply Nat.leb_le; lia).
           replace (j0 <? j0 + S k)%nat with true
             by (symmetry; apply Nat.ltb_lt; lia).
           rewrite Hrep. simpl.
           unfold x2. rewrite list_lookup_insert_eq by lia.
           unfold donor_mix. rewrite Ha, Hb, Hc. reflexivity.
        -- unfold x2. rewrite list_lookup_insert_ne by congruence.
           replace (S j0 <=? j)%nat with (j0 <=? j)%nat.
           2:{ destruct (Nat.leb_spec j0 j), (Nat.leb_spec (S j0) j);
                 try reflexivity; lia. }
           replace (j <? S j0 + k)%nat with (j <? j0 + S k)%nat
             by (f_equal; lia).
           reflexivity.
    + destruct (IH (S j0) w1 x) as (w' & y & Hr & Hm & Hb' & Hp' & Hly & Hy);
        try assumption; try (unfold w1; simpl; lia).
      exists w', y. split; [exact Hr|]. split; [exact Hm|].
      split; [exact Hb'|]. split; [lia|]. split; [exact Hly|].
      intros j. rewrite Hy.
      destruct (Nat.eq_dec j j0) as [-> | Hne].
      * replace (S j0 <=? j0)%nat with false
          by (symmetry; apply Nat.leb_gt; lia).
        rewrite Hrep, !andb_false_r. reflexivity.
      * replace (S j0 <=? j)%nat with (j0 <=? j)%nat.
        2:{ destruct (Nat.leb_spec j0 j), (Nat.leb_spec (S j0) j);
              try reflexivity; lia. }
        replace (j <? S j0 + k)%nat with (j <? j0 + S k)%nat
          by (f_equal; lia).
        reflexivity.
Qed.
End ClassicLoop.

(** *** One tensor *)

Lemma np_random_integers_Return {E} (high : nat) (w : world E) :
  np_random_integers 0 high w
  = Return (Z.to_nat (np_bits w (np_pos w) mod Z.of_nat (S high)))
      (set_np_pos (S (np_pos w)) w).
Proof.
  unfold np_random_integers, bind, np_next, ret. simpl.
  rewrite Nat.sub_0_r. reflexivity.
Qed.

Lemma classic_quad_inv (attr : MLPClassifier -> list ndarray)
    (agent : MLPClassifier) (randomAgents : list MLPClassifier) (i : nat)
    t d1 d2 d3 :
  classic_quad attr agent randomAgents i = Some (t, d1, d2, d3) ->
  exists a1 a2 a3,
    attr agent !! i = Some t
    /\ randomAgents !! 0%nat = Some a1 /\ attr a1 !! i = Some d1
    /\ randomAgents !! 1%nat = Some a2 /\ attr a2 !! i = Some d2
    /\ randomAgents !! 2%nat = Some a3 /\ attr a3 !! i = Some d3.
Proof.
  unfold classic_quad.
  destruct (attr agent !! i) as [t'|] eqn:Ht; [|discriminate].
  destruct randomAgents as [|a1 [|a2 [|a3 rest]]]; try discriminate.
  destruct (attr a1 !! i) as [e1|] eqn:H1; [|discriminate].
  destruct (attr a2 !! i) as [e2|] eqn:H2; [|discriminate].
  destruct (attr a3 !! i) as [e3|] eqn:H3; [|discriminate].
  intros H. injection H as -> -> -> ->.
  exists a1, a2, a3. repeat split; first [assumption | reflexivity].
Qed.

(** One tensor of the classic crossover: the value returned is the
    target's own view, and the only change of the store is the target's
    buffer, rewritten element by element. *)
Lemma de_classic_tensor_Return {E} (attr : MLPClassifier -> list ndarray)
    (agent : MLPClassifier) (randomAgents : list MLPClassifier) (i : nat)
    (w : world E) t d1 d2 d3 x v1 v2 v3 :
  classic_quad attr agent randomAgents i = Some (t, d1, d2, d3) ->
  mem w !! base t = Some x -> mem w !! base d1 = Some v1 ->
  mem w !! base d2 = Some v2 -> mem w !! base d3 = Some v3 ->
  length x = size (shp t) -> length v1 = size (shp t) ->
  length v2 = size (shp t) -> length v3 = size (shp t) ->
  shp d1 = shp t -> shp d2 = shp t -> shp d3 = shp t ->
  base d1 <> base t -> base d2 <> base t -> base d3 <> base t ->
  exists w' y,
    de_classic_tensor attr agent randomAgents i w = Return t w'
    /\ mem w' = <[base t := y]> (mem w)
    /\ np_bits w' = np_bits w
    /\ np_pos w' = (np_pos w + 1 + size (shp t))%nat
    /\ classic_of (np_bits w) (np_pos w) t x v1 v2 v3 y.
Proof.
  intros Hq Hx H1 H2 H3 Hlx Hl1 Hl2 Hl3 Hs1 Hs2 Hs3 Hn1 Hn2 Hn3.
  destruct (classic_quad_inv _ _ _ _ _ _ _ _ Hq)
    as (a1 & a2 & a3 & Ht & Ha1 & Hd1 & Ha2 & Hd2 & Ha3 & Hd3).
  set (w1 := set_np_pos (S (np_pos w)) w).
  set (n := size (shp t)) in *.
  assert (Hz1 : size (shp (np_ravel d1)) = n) by (simpl; rewrite Hs1; reflexivity).
  assert (Hz2 : size (shp (np_ravel d2)) = n) by (simpl; rewrite Hs2; reflexivity).
  assert (Hz3 : size (shp (np_ravel d3)) = n) by (simpl; rewrite Hs3; reflexivity).
  destruct (classic_loop (E:=E) (np_ravel t) (np_ravel d1) (np_ravel d2)
              (np_ravel d3) n (forced_index (np_bits w) (np_pos w) t)
              (S (np_pos w)) (np_bits w) v1 v2 v3
              eq_refl Hz1 Hz2 Hz3 Hl1 Hl2 Hl3 Hn1 Hn2 Hn3
              n 0%nat w1 x)
    as (w' & y & Hr & Hm & Hb & Hp & Hly & Hy);
    try assumption; try reflexivity; try (unfold w1; simpl; lia).
  exists w', y. split; [|split; [exact Hm|split; [exact Hb|split; [lia|]]]].
  - unfold de_classic_tensor.
    run (py_index_Return _ _ _ w Ht).
    run (np_random_integers_Return (len (shp t)) w). fold w1.
    run (py_index_Return _ _ _ w1 Ha1). run (py_index_Return _ _ _ w1 Hd1).
    run (py_index_Return _ _ _ w1 Ha2). run (py_index_Return _ _ _ w1 Hd2).
    run (py_index_Return _ _ _ w1 Ha3). run (py_index_Return _ _ _ w1 Hd3).
    unfold range. simpl len. fold n.
    change (Z.to_nat (np_bits w (np_pos w) mod Z.of_nat (S (len (shp t)))))
      with (forced_index (np_bits w) (np_pos w) t).
    run Hr. unfold reshape. simpl. rewrite Nat.eqb_refl.
    destruct t; reflexivity.
  - split; [lia|]. intros j Hj. rewrite Hy.
    replace (0 <=? j)%nat with true by (symmetry; apply Nat.leb_le; lia).
    replace (j <? 0 + n)%nat with true by (symmetry; apply Nat.ltb_lt; lia).
    reflexivity.
Qed.

(** *** The four tensors *)

Lemma forced_index_le (bits : nat -> Z) (p : nat) (t : ndarray) :
  (forced_index bits p t <= len (shp t))%nat.
Proof.
  unfold forced_index.
  pose proof (Z.mod_pos_bound (bits p) (Z.of_nat (S (len (shp t))))
                ltac:(lia)).
  lia.
Qed.

Lemma classic_of_forced (bits : nat -> Z) (p : nat) (h h' : heap)
    t d1 d2 d3 x v1 v2 v3 y :
  h !! base t = Some x -> h !! base d1 = Some v1 ->
  h !! base d2 = Some v2 -> h !! base d3 = Some v3 ->
  length v1 = length x -> length v2 = length x -> length v3 = length x ->
  h' !! base t = Some y ->
  classic_of bits p t x v1 v2 v3 y ->
  forced bits p h h' (t, d1, d2, d3).
Proof.
  intros Hx H1 H2 H3 Hl1 Hl2 Hl3 Hy Hc.
  exists x, v1, v2, v3, y.
  repeat match goal with |- _ /\ _ => split end; try assumption.
  intros HR. set (R := forced_index bits p t) in *.
  destruct (lookup_lt_is_Some_2 v1 R ltac:(lia)) as [a Ha].
  destruct (lookup_lt_is_Some_2 v2 R ltac:(lia)) as [b Hb].
  destruct (lookup_lt_is_Some_2 v3 R ltac:(lia)) as [c Hc'].
  exists a, b, c, (a + F * (b - c)).
  repeat match goal with |- _ /\ _ => split end;
    try assumption; try reflexivity.
  destruct Hc as [_ Hc]. rewrite (Hc R HR). fold R.
  unfold replaced. rewrite Nat.eqb_refl, orb_true_r.
  unfold donor_mix. rewrite Ha, Hb, Hc'. reflexivity.
Qed.

Lemma take_2_lookup {A} (l : list A) (a b : A) :
  l !! 0%nat = Some a -> l !! 1%nat = Some b -> take 2 l = [a; b].
Proof.
  destruct l as [|a' [|b' l]]; intros Ha Hb; try discriminate.
  cbn in Ha, Hb. injection Ha as ->. injection Hb as ->. reflexivity.
Qed.

(** Turn the boolean side conditions into the facts the store lemmas need. *)
Ltac bool_facts :=
  repeat match goal with
    | H : (_ && _) = true |- _ => apply andb_prop in H; destruct H
    | H : negb (_ =? _)%nat = true |- _ =>
        apply negb_true_iff, Nat.eqb_neq in H
    | H : shape_eqb _ _ = true |- _ => apply shape_eqb_eq in H
    | H : tensor_ok _ _ = true |- _ =>
        apply tensor_ok_buffer in H; destruct H as (? & ? & ?)
    end.

Lemma quad_ok_inv (h : heap) (t d1 d2 d3 : ndarray) :
  quad_ok h (t, d1, d2, d3) = true ->
  exists x v1 v2 v3,
    (h !! base t = Some x /\ h !! base d1 = Some v1
     /\ h !! base d2 = Some v2 /\ h !! base d3 = Some v3)
    /\ (length x = size (shp t) /\ length v1 = size (shp t)
        /\ length v2 = size (shp t) /\ length v3 = size (shp t))
    /\ (shp d1 = shp t /\ shp d2 = shp t /\ shp d3 = shp t)
    /\ (base d1 <> base t /\ base d2 <> base t /\ base d3 <> base t).
Proof.
  unfold quad_ok. intros H. bool_facts.
  match goal with
  | Ht : h !! base t = Some ?x, H1 : h !! base d1 = Some ?v1,
    H2 : h !! base d2 = Some ?v2, H3 : h !! base d3 = Some ?v3 |- _ =>
      exists x, v1, v2, v3
  end.
  repeat match goal with |- _ /\ _ => split end;
    first [assumption | congruence].
Qed.

Lemma apart_inv (t a b c t' d1 d2 d3 : ndarray) :
  apart (t, a, b, c) (t', d1, d2, d3) = true ->
  base t <> base t' /\ base t <> base d1
  /\ base t <> base d2 /\ base t <> base d3.
Proof.
  unfold apart. intros H. bool_facts.
  repeat match goal with |- _ /\ _ => split end; congruence.
Qed.

(** A lookup in a store that differs from an earlier one by writes to
    other buffers. *)
Ltac lookup_frame :=
  repeat match goal with
    | H : mem ?w' = <[_ := _]> (mem _) |- context [mem ?w'] => rewrite H
    end;
  rewrite ?list_lookup_insert_ne by congruence;
  first [ eassumption
        | apply list_lookup_insert_eq; rewrite ?length_insert;
          eapply lookup_lt_Some; eassumption ].

(** X24.  The element rule of the classic crossover.  On a target and
    three donors of one topology, kept in buffers of their own,
    [de_crossover_classic] returns the target's own tensors and, for each
    of the four tensors in turn (weights 0, biases 0, weights 1, biases 1),
    draws one index [R] and rewrites the target's buffer element by
    element: the scalar at [j] becomes [donor1 + F * (donor2 - donor3)] at
    [j] when its draw is below [CR] or [j] is [R], and keeps the target's
    value otherwise.  When [R] is an index of the flat tensor, the scalar
    at [R] is therefore that donor combination. *)
Theorem classic_crossover_element_rule {E} (agent : MLPClassifier)
    (randomAgents : list MLPClassifier) (w : world E) (q0 q1 q2 q3 : quad) :
  classic_ok (mem w) agent randomAgents = true ->
  classic_quad coefs_ agent randomAgents 0 = Some q0 ->
  classic_quad intercepts_ agent randomAgents 0 = Some q1 ->
  classic_quad coefs_ agent randomAgents 1 = Some q2 ->
  classic_quad intercepts_ agent randomAgents 1 = Some q3 ->
  let p0 := np_pos w in
  let p1 := next_draw p0 q0 in
  let p2 := next_draw p1 q1 in
  let p3 := next_draw p2 q2 in
  exists w',
    de_crossover_classic agent randomAgents w
    = Return (take 2 (coefs_ agent), take 2 (intercepts_ agent)) w'
    /\ forced (np_bits w) p0 (mem w) (mem w') q0
    /\ forced (np_bits w) p1 (mem w) (mem w') q1
    /\ forced (np_bits w) p2 (mem w) (mem w') q2
    /\ forced (np_bits w) p3 (mem w) (mem w') q3.
Proof.
  intros Hok Hq0 Hq1 Hq2 Hq3.
  unfold classic_ok in Hok. rewrite Hq0, Hq1, Hq2, Hq3 in Hok.
  destruct q0 as [[[t0 a0] b0] c0]. destruct q1 as [[[t1 a1] b1] c1].
  destruct q2 as [[[t2 a2] b2] c2]. destruct q3 as [[[t3 a3] b3] c3].
  repeat match goal with
    | H : (_ && _) = true |- _ => apply andb_prop in H; destruct H
    end.
  repeat match goal with
    | H : apart _ _ = true |- _ =>
        apply apart_inv in H; destruct H as (? & ? & ? & ?)
    end.
  repeat match goal with
    | H : quad_ok _ _ = true |- _ => apply quad_ok_inv in H
    end.
  match goal with
  | H : exists _, _ |- _ =>
      destruct H as (x3 & u3 & v3 & z3 & (? & ? & ? & ?) & (? & ? & ? & ?)
                     & (? & ? & ?) & (? & ? & ?))
  end.
  match goal with
  | H : exists _, _ |- _ =>
      destruct H as (x2 & u2 & v2 & z2 & (? & ? & ? & ?) & (? & ? & ? & ?)
                     & (? & ? & ?) & (? & ? & ?))
  end.
  match goal with
  | H : exists _, _ |- _ =>
      destruct H as (x1 & u1 & v1 & z1 & (? & ? & ? & ?) & (? & ? & ? & ?)
                     & (? & ? & ?) & (? & ? & ?))
  end.
  match goal with
  | H : exists _, _ |- _ =>
      destruct H as (x0 & u0 & v0 & z0 & (? & ? & ? & ?) & (? & ? & ? & ?)
                     & (? & ? & ?) & (? & ? & ?))
  end.
  simpl next_draw. intros p0 p1 p2 p3.
  destruct (de_classic_tensor_Return coefs_ agent randomAgents 0 w
              t0 a0 b0 c0 x0 u0 v0 z0 Hq0)
    as (w1 & y0 & Hr0 & Hm0 & Hb0 & Hp0 & Hc0); try assumption.
  destruct (de_classic_tensor_Return intercepts_ agent randomAgents 0 w1
              t1 a1 b1 c1 x1 u1 v1 z1 Hq1)
    as (w2 & y1 & Hr1 & Hm1 & Hb1 & Hp1 & Hc1);
    try assumption; try lookup_frame.
  destruct (de_classic_tensor_Return coefs_ agent randomAgents 1 w2
              t2 a2 b2 c2 x2 u2 v2 z2 Hq2)
    as (w3 & y2 & Hr2 & Hm2 & Hb2 & Hp2 & Hc2);
    try assumption; try lookup_frame.
  destruct (de_classic_tensor_Return intercepts_ agent randomAgents 1 w3
              t3 a3 b3 c3 x3 u3 v3 z3 Hq3)
    as (w4 & y3 & Hr3 & Hm3 & Hb3 & Hp3 & Hc3);
    try assumption; try lookup_frame.
  rewrite Hb2, Hb1, Hb0, Hp2, Hp1, Hp0 in Hc3.
  rewrite Hb1, Hb0, Hp1, Hp0 in Hc2. rewrite Hb0, Hp0 in Hc1.
  destruct (classic_quad_inv _ _ _ _ _ _ _ _ Hq0) as (_ & _ & _ & Hc_0 & _).
  destruct (classic_quad_inv _ _ _ _ _ _ _ _ Hq1) as (_ & _ & _ & Hi_0 & _).
  destruct (classic_quad_inv _ _ _ _ _ _ _ _ Hq2) as (_ & _ & _ & Hc_1 & _).
  destruct (classic_quad_inv _ _ _ _ _ _ _ _ Hq3) as (_ & _ & _ & Hi_1 & _).
  exists w4. split; [|split; [|split; [|split]]].
  - unfold de_crossover_classic. cbn [for_fold range seq].
    run Hr0. run Hr1. run Hr2. run Hr3.
    rewrite (take_2_lookup _ _ _ Hc_0 Hc_1), (take_2_lookup _ _ _ Hi_0 Hi_1).
    reflexivity.
  - apply (classic_of_forced _ _ _ _ t0 a0 b0 c0 x0 u0 v0 z0 y0);
      try assumption; try congruence; lookup_frame.
  - apply (classic_of_forced _ _ _ _ t1 a1 b1 c1 x1 u1 v1 z1 y1);
      try assumption; try congruence; lookup_frame.
  - apply (classic_of_forced _ _ _ _ t2 a2 b2 c2 x2 u2 v2 z2 y2);
      try assumption; try congruence; lookup_frame.
  - apply (classic_of_forced _ _ _ _ t3 a3 b3 c3 x3 u3 v3 z3 y3);
      try assumption; try congruence; lookup_frame.
Qed.

(** A target of scalars 1..13 with every element draw above [CR]: [R] is 1
    for the first weight matrix. *)
Lemma classic_crossover_element_rule_witness :
  let W := tape_world four_networks' 0 last_draw 0 in
  exists w',
    de_crossover_classic (network_at 0) donors W
    = Return (take 2 (coefs_ (network_at 0)),
              take 2 (intercepts_ (network_at 0))) w'
    /\ forced (np_bits W) (np_pos W) (mem W) (mem w')
         ({| base := 0; shp := Shape2 1 4 |},
          {| base := 4; shp := Shape2 1 4 |},
          {| base := 8; shp := Shape2 1 4 |},
          {| base := 12; shp := Shape2 1 4 |}).
Proof.
  intros W.
  destruct (classic_crossover_element_rule (network_at 0) donors W
              _ _ _ _ eq_refl eq_refl eq_refl eq_refl eq_refl)
    as (w' & Hr & Hf & _).
  exists w'. split; [exact Hr | exact Hf].
Defined.

(** A forced element need not change.  The target's scalars are all 0.8,
    donor 1's all 0, donor 2's all 1 and donor 3's all 0, and every element
    draw is above [CR].  For the first weight matrix [R] is 1; donor 2 and
    donor 3 differ at index 1; the scalar at index 1 after the crossover is
    [0 + 0.8 * (1 - 0)], the value 0.8 the target had there before.  The
    crossover leaves the whole store as it was. *)
Lemma classic_forced_index_keeps_target_value :
  let W := tape_world four_networks 0 last_draw 0 in
  let t := {| base := 0; shp := Shape2 1 4 |} in
  let d2 := {| base := 8; shp := Shape2 1 4 |} in
  let d3 := {| base := 12; shp := Shape2 1 4 |} in
  let R := forced_index (np_bits W) (np_pos W) t in
  R = 1%nat
  /\ scalar_at (mem W) d2 R = Some 1
  /\ scalar_at (mem W) d3 R = Some 0
  /\ ~ 1 == 0
  /\ scalar_at (mem W) t R = Some 0.8
  /\ outcome (de_crossover_classic (network_at 0) donors W)
     = Some (coefs_ (network_at 0), intercepts_ (network_at 0), mem W).
Proof.
  repeat split; try (vm_compute; reflexivity).
  intros H. discriminate H.
Qed.

(** C3 (the code departs from the claim).  The index [R] that is to
    guarantee one replaced element is drawn by
    [np.random.random_integers(0, len(tensor))]: between 0 and the length
    of the first axis, both ends included.  Whatever the tensor and the
    draw, [R] is at most that length, so it is not drawn over the flattened
    length; and it can be that length, one past the last element of a
    vector, and then no element is forced.  For the target 1..13 and
    donors whose scalars are all 0, all 1 and all 0, with every raw draw
    equal to [2^53 - 1], [R] is 1 for each tensor and every element draw is
    above [CR]: the bias vector of one scalar keeps its 13 although donor 2
    and donor 3 differ there, and no scalar of it is
    [donor1 + F * (donor2 - donor3) = 0.8]. *)
Theorem classic_forced_index_misses :
  (forall (E : Type) (t : ndarray) (w : world E),
     exists R,
       np_random_integers 0 (len (shp t)) w
       = Return R (set_np_pos (S (np_pos w)) w)
       /\ (R <= len (shp t))%nat)
  /\ let W := tape_world four_networks' 0 last_draw 0 in
     let t := {| base := 3; shp := Shape1 1 |} in
     let d1 := {| base := 7; shp := Shape1 1 |} in
     let d2 := {| base := 11; shp := Shape1 1 |} in
     let d3 := {| base := 15; shp := Shape1 1 |} in
     intercepts_ (network_at 0) !! 1%nat = Some t
     /\ value (np_random_integers 0 (len (shp t)) (set_np_pos 15 W))
        = Some 1%nat
     /\ size (shp t) = 1%nat
     /\ scalar_at (mem W) t 0 = Some 13
     /\ scalar_at (mem W) d1 0 = Some 0
     /\ scalar_at (mem W) d2 0 = Some 1
     /\ scalar_at (mem W) d3 0 = Some 0
     /\ outcome (de_crossover_classic (network_at 0) donors W)
        = Some (coefs_ (network_at 0), intercepts_ (network_at 0),
                [ [1; 0.8; 3; 4]; [5; 0.8; 7; 8]; [9; 0.8; 11; 12]; [13] ]
                  ++ drop 4 four_networks').
Proof.
  split.
  - intros E t w. eexists. split; [apply np_random_integers_Return|].
    pose proof (Z.mod_pos_bound (np_bits w (np_pos w))
                  (Z.of_nat (S (len (shp t)))) ltac:(lia)).
    lia.
  - repeat split; vm_compute; reflexivity.
Qed.

(** ** Population initialisation *)

Lemma initialise_loop {E Obs Frame} (lib : Lib E Obs Frame)
    (env : Env E Obs Frame) :
  (forall w0, exists a w1, create_new_network lib env w0 = Return a w1) ->
  forall (n start : nat) (acc : list MLPClassifier) (w : world E),
    exists population w',
      for_fold (seq start n)
        (fun population (_ : nat) =>
           a <- create_new_network lib env ;; ret (population ++ [a]))
        acc w
      = Return (acc ++ population) w'
      /\ length population = n
      /\ created lib env w population w'.
Proof.
  intros Htotal. induction n as [|n IH]; intros start acc w.
  - exists [], w. simpl. rewrite app_nil_r.
    repeat split. constructor.
  - destruct (Htotal w) as (a & w1 & Ha).
    destruct (IH (S start) (acc ++ [a]) w1) as (pop & w' & Hr & Hlen & Hc).
    exists (a :: pop), w'. split; [|split].
    + cbn [seq for_fold]. run Ha. rewrite Hr, <- app_assoc. reflexivity.
    + simpl. rewrite Hlen. reflexivity.
    + econstructor; eassumption.
Qed.

(** C9, as amended.  Provided the network constructor itself returns,
    [initialise_population(size, env)] returns, for every [size], the
    ordered population of the networks made by [size] successive calls of
    [create_new_network], one per agent (none for a negative [size]); it
    checks [size] against nothing and never fails on its own, so for
    [size < 2] it returns the undersized population. *)
Theorem initialise_population_any_size {E Obs Frame} (lib : Lib E Obs Frame)
    (size : Z) (env : Env E Obs Frame) (w : world E) :
  (forall w0, exists a w1, create_new_network lib env w0 = Return a w1) ->
  exists population w',
    initialise_population lib size env w = Return population w'
    /\ length population = Z.to_nat size
    /\ created lib env w population w'.
Proof.
  intros Htotal. unfold initialise_population, range.
  destruct (initialise_loop lib env Htotal (Z.to_nat size) 0 [] w)
    as (pop & w' & Hr & Hlen & Hc).
  exists pop, w'. auto.
Qed.

(** Three networks from the stub constructor. *)
Lemma initialise_population_any_size_witness :
  exists population w',
    initialise_population stub_lib 3 (countdown_env 5) stub_world
    = Return population w'
    /\ length population = 3%nat
    /\ created stub_lib (countdown_env 5) stub_world population w'.
Proof.
  apply (initialise_population_any_size stub_lib 3 (countdown_env 5)
           stub_world).
  intros w0. eexists _, _. reflexivity.
Defined.

(** C9 as stated fails: sizes 1 and 0 are below 2, and the call returns a
    population of one network, and of none, instead of raising. *)
Lemma initialise_population_undersized :
  (1 < 2)%Z
  /\ outcome (initialise_population stub_lib 1 (countdown_env 5) stub_world)
     = Some ([network_at 0], constant_buffers 0)
  /\ outcome (initialise_population stub_lib 0 (countdown_env 5) stub_world)
     = Some ([], []).
Proof. repeat split; vm_compute; reflexivity. Qed.

(** ** Simulation *)

Lemma bind_Return_inv {E A B} (m : M E A) (k : A -> M E B) w b w' :
  bind m k w = Return b w' ->
  exists a w1, m w = Return a w1 /\ k a w1 = Return b w'.
Proof.
  unfold bind. destruct (m w) as [a w1| |]; try discriminate. eauto.
Qed.

Lemma interact_Return {E Obs Frame} (lib : Lib E Obs Frame)
    (agent : MLPClassifier) (env : Env E Obs Frame) (render savetofile : bool)
    (s : locals Obs Frame) w action w1 obs' reward d w2 fs' w3 :
  predict lib agent (observation s) w = Return action w1 ->
  env_step env action w1 = Return (obs', reward, d) w2 ->
  record_and_render env render savetofile (frames s) w2 = Return fs' w3 ->
  interact lib agent env render savetofile s w
  = Return {| observation := obs'; score := score s + reward; done := d;
              frames := fs' |} w3.
Proof.
  intros Hp Hs Hf. unfold interact. run Hp. run Hs. run Hf. reflexivity.
Qed.

Lemma interact_Return_inv {E Obs Frame} (lib : Lib E Obs Frame)
    (agent : MLPClassifier) (env : Env E Obs Frame) (render savetofile : bool)
    (s s' : locals Obs Frame) w w3 :
  interact lib agent env render savetofile s w = Return s' w3 ->
  exists action w1 obs' reward w2,
    predict lib agent (observation s) w = Return action w1
    /\ env_step env action w1 = Return (obs', reward, done s') w2
    /\ record_and_render env render savetofile (frames s) w2
       = Return (frames s') w3
    /\ observation s' = obs' /\ score s' = score s + reward.
Proof.
  unfold interact. intros H.
  apply bind_Return_inv in H as (action & w1 & Hp & H).
  apply bind_Return_inv in H as ([[obs' reward] d] & w2 & Hs & H).
  apply bind_Return_inv in H as (fs' & w3' & Hf & H).
  unfold ret in H. injection H as <- <-.
  exists action, w1, obs', reward, w2. simpl. auto.
Qed.

(** The loop follows the episode: it returns once the episode's last step
    has said [done], with the rewards added to the score in order. *)
Lemma while_follows_episode {E Obs Frame} (lib : Lib E Obs Frame)
    (agent : MLPClassifier) (env : Env E Obs Frame) (render savetofile : bool)
    obs fs w rewards fs' w' :
  episode lib agent env render savetofile obs fs w rewards fs' w' ->
  forall (s0 : Q) (fuel : nat),
    (length rewards <= fuel)%nat ->
    exists obs',
      while_not_done fuel (interact lib agent env render savetofile)
        {| observation := obs; score := s0; done := false; frames := fs |} w
      = Return {| observation := obs'; score := fold_left Qplus rewards s0;
                  done := true; frames := fs' |} w'.
Proof.
  induction 1 as [obs fs w action w1 obs' reward w2 fs' w3 Hp Hs Hf
                 |obs fs w action w1 obs' reward w2 fs' w3 rewards fs'' w4
                    Hp Hs Hf Hep IH];
    intros s0 fuel Hfuel.
  - destruct fuel as [|fuel]; [simpl in Hfuel; lia|].
    exists obs'. cbn [while_not_done done].
    run (interact_Return lib agent env render savetofile
           {| observation := obs; score := s0; done := false; frames := fs |}
           w action w1 obs' reward true w2 fs' w3 Hp Hs Hf).
    destruct fuel; reflexivity.
  - destruct fuel as [|fuel]; [simpl in Hfuel; lia|].
    destruct (IH (s0 + reward) fuel ltac:(simpl in Hfuel; lia)) as [o Ho].
    exists o. cbn [while_not_done done].
    run (interact_Return lib agent env render savetofile
           {| observation := obs; score := s0; done := false; frames := fs |}
           w action w1 obs' reward false w2 fs' w3 Hp Hs Hf).
    exact Ho.
Qed.

(** Conversely, whatever the loop returns comes from an episode. *)
Lemma while_returns_episode {E Obs Frame} (lib : Lib E Obs Frame)
    (agent : MLPClassifier) (env : Env E Obs Frame) (render savetofile : bool)
    (fuel : nat) :
  forall (s s' : locals Obs Frame) w w',
    done s = false ->
    while_not_done fuel (interact lib agent env render savetofile) s w
    = Return s' w' ->
    exists rewards,
      episode lib agent env render savetofile (observation s) (frames s) w
        rewards (frames s') w'
      /\ score s' = fold_left Qplus rewards (score s)
      /\ (length rewards <= fuel)%nat.
Proof.
  induction fuel as [|fuel IH]; intros s s' w w' Hd Hrun.
  - destruct s as [o sc d fs]. simpl in Hd. subst d. discriminate Hrun.
  - destruct s as [o sc d fs]. simpl in Hd. subst d.
    cbn [while_not_done done] in Hrun.
    apply bind_Return_inv in Hrun as (s1 & w1 & Hbody & Hrest).
    apply interact_Return_inv in Hbody
      as (action & wa & obs' & reward & wb & Hp & Hs & Hf & Ho & Hsc).
    destruct s1 as [o1 sc1 d1 fs1]. simpl in *. subst o1 sc1.
    destruct d1.
    + assert (Hret : Return {| observation := obs'; score := sc + reward;
                               done := true; frames := fs1 |} w1
                     = Return s' w')
        by (destruct fuel; exact Hrest).
      injection Hret as <- <-.
      exists [reward]. simpl. split; [|split; [reflexivity | lia]].
      eapply episode_last; eassumption.
    + destruct (IH {| observation := obs'; score := sc + reward;
                      done := false; frames := fs1 |} s' w1 w' eq_refl Hrest)
        as (rewards & Hep & Hsum & Hlen).
      exists (reward :: rewards). simpl in *.
      split; [|split; [exact Hsum | lia]].
      eapply episode_more; eassumption.
Qed.

(** C6.  Whatever the agent, the environment and the flags:
    when the rollout from [env.reset()] ends, that is when some step
    returns [done], [simulate_agent] returns the sum of the rewards that
    [env.step] returned, having stepped until that first [done] and not
    beyond; and whatever [simulate_agent] returns is the sum of the rewards
    of such a rollout.  Against the environment that returns reward 1 at
    every step and [done] at the fifth, the score is 5, and four
    iterations are not enough to finish. *)
Theorem simulate_agent_total_reward :
  (forall (E Obs Frame : Type) (lib : Lib E Obs Frame) (fuel : nat)
          (agent : MLPClassifier) (env : Env E Obs Frame)
          (render savetofile : bool) (filename : option string)
          (w : world E),
     (forall obs w0 rewards fs w1 w2,
        env_reset env w = Return obs w0 ->
        episode lib agent env render savetofile obs [] w0 rewards fs w1 ->
        (if savetofile
         then save_frames_as_gif lib fs "./gifs/"%string filename
         else ret tt) w1 = Return tt w2 ->
        (length rewards <= fuel)%nat ->
        simulate_agent lib fuel agent env render savetofile filename w
        = Return (total rewards) w2)
     /\
     (forall v w2,
        simulate_agent lib fuel agent env render savetofile filename w
        = Return v w2 ->
        exists obs w0 rewards fs w1,
          env_reset env w = Return obs w0
          /\ episode lib agent env render savetofile obs [] w0 rewards fs w1
          /\ (if savetofile
              then save_frames_as_gif lib fs "./gifs/"%string filename
              else ret tt) w1 = Return tt w2
          /\ v = total rewards))
  /\ (forall (agent : MLPClassifier) (k : nat),
        value (simulate_agent stub_lib (5 + k) agent (countdown_env 5)
                 false false None stub_world) = Some 5)
  /\ (forall agent : MLPClassifier,
        simulate_agent stub_lib 4 agent (countdown_env 5)
          false false None stub_world = Timeout).
Proof.
  split; [|split; [intros agent k; destruct k; reflexivity
                  |intros; reflexivity]].
  intros E Obs Frame lib fuel agent env render savetofile filename w. split.
  - intros obs w0 rewards fs w1 w2 Hreset Hep Hsave Hfuel.
    destruct (while_follows_episode lib agent env render savetofile
                obs [] w0 rewards fs w1 Hep 0 fuel Hfuel) as [obs' Hloop].
    unfold simulate_agent. run Hreset. run Hloop.
    cbn [frames score]. run Hsave. reflexivity.
  - intros v w2 Hrun. unfold simulate_agent in Hrun.
    apply bind_Return_inv in Hrun as (obs & w0 & Hreset & Hrun).
    apply bind_Return_inv in Hrun as (s & w1 & Hloop & Hrun).
    apply bind_Return_inv in Hrun as ([] & w2' & Hsave & Hrun).
    unfold ret in Hrun. injection Hrun as <- <-.
    destruct (while_returns_episode lib agent env render savetofile fuel
                {| observation := obs; score := 0; done := false;
                   frames := [] |} s w0 w1 eq_refl Hloop)
      as (rewards & Hep & Hsum & _).
    exists obs, w0, rewards, (frames s), w1. simpl in *. auto.
Qed.

(** The rollout of the five-step environment: five rewards of 1. *)
Lemma simulate_agent_total_reward_witness :
  simulate_agent stub_lib 5 (network_at 0) (countdown_env 5)
    false false None stub_world
  = Return (total [1; 1; 1; 1; 1]) (set_ext 5%nat stub_world).
Proof.
  apply (proj1 (proj1 simulate_agent_total_reward nat unit unit stub_lib
                  5%nat (network_at 0) (countdown_env 5) false false None
                  stub_world)
           tt (set_ext 0%nat stub_world) [1; 1; 1; 1; 1] []
           (set_ext 5%nat stub_world)).
  - reflexivity.
  - eapply episode_more; [reflexivity | reflexivity | reflexivity |].
    eapply episode_more; [reflexivity | reflexivity | reflexivity |].
    eapply episode_more; [reflexivity | reflexivity | reflexivity |].
    eapply episode_more; [reflexivity | reflexivity | reflexivity |].
    eapply episode_last; reflexivity.
  - reflexivity.
  - simpl. lia.
Defined.

(** ** The centroid network *)

Lemma Qsum_fold_left (col : list Q) (v0 : Q) :
  fold_left Qplus col v0 == v0 + Qsum col.
Proof.
  revert v0. induction col as [|v col IH]; intros v0; simpl.
  - ring.
  - rewrite IH. unfold Qsum. ring.
Qed.

Lemma mean_one (a : Q) : mean [a] == a.
Proof. unfold mean, Qsum. simpl. field. Qed.

Lemma mean_two (a b : Q) : mean [a; b] == (a + b) / 2.
Proof. unfold mean, Qsum. simpl. field. Qed.

Lemma fold_zip_length (n : nat) (rest : list (list Q)) :
  forall r0 : list Q,
    length r0 = n -> Forall (fun r => length r = n) rest ->
    length (fold_left (zip_with Qplus) rest r0) = n.
Proof.
  induction rest as [|r rest IH]; intros r0 Hr0 Hall; simpl.
  - exact Hr0.
  - apply Forall_cons in Hall as [Hr Hall].
    apply IH; [rewrite length_zip_with; lia | exact Hall].
Qed.

(** The running sum along the first axis, scalar by scalar. *)
Lemma fold_zip_lookup (n j : nat) (rest : list (list Q)) :
  forall r0 : list Q,
    (j < n)%nat -> length r0 = n -> Forall (fun r => length r = n) rest ->
    exists v0 col,
      r0 !! j = Some v0
      /\ Forall2 (fun r v => r !! j = Some v) rest col
      /\ fold_left (zip_with Qplus) rest r0 !! j
         = Some (fold_left Qplus col v0)
      /\ length (fold_left (zip_with Qplus) rest r0) = n.
Proof.
  induction rest as [|r rest IH]; intros r0 Hj Hr0 Hall.
  - destruct (lookup_lt_is_Some_2 r0 j ltac:(lia)) as [v0 Hv0].
    exists v0, []. simpl. auto.
  - apply Forall_cons in Hall as [Hr Hall].
    destruct (lookup_lt_is_Some_2 r0 j ltac:(lia)) as [v0 Hv0].
    destruct (lookup_lt_is_Some_2 r j ltac:(lia)) as [v Hv].
    destruct (IH (zip_with Qplus r0 r) Hj) as (v0' & col & H0 & Hcol & Hf & Hl).
    + rewrite length_zip_with. lia.
    + exact Hall.
    + rewrite lookup_zip_with, Hv0, Hv in H0. simpl in H0.
      injection H0 as <-.
      exists v0, (v :: col). simpl. repeat split; auto.
Qed.

Lemma shape_eqb_refl (s : shape) : shape_eqb s s = true.
Proof. destruct s; simpl; rewrite ?Nat.eqb_refl; reflexivity. Qed.

(** The list comprehension and [np.array] of [find_mean]: they read the
    tensors of the population and leave the world as it is. *)
Lemma gather_tensors {E} (h0 more : heap)
    (attr : MLPClassifier -> list ndarray) (i : nat) (a0 : MLPClassifier)
    (t0 : ndarray) (w : world E) :
  mem w = h0 ++ more -> attr a0 !! i = Some t0 ->
  forall population,
    Forall (fun a => layer_ok h0 attr a0 a i = true) population ->
    exists ts rows,
      map_M (fun el => py_index (attr el) i) population w = Return ts w
      /\ np_stack (shp t0) ts w = Return rows w
      /\ Forall2 (fun a t => attr a !! i = Some t) population ts
      /\ Forall (fun r => length r = size (shp t0)) rows
      /\ length rows = length population
      /\ Forall (fun a => exists t, attr a !! i = Some t /\ shp t = shp t0)
           population
      /\ forall j, (j < size (shp t0))%nat ->
           exists col,
             column h0 attr i j population col
             /\ Forall2 (fun r v => r !! j = Some v) rows col.
Proof.
  intros Hmem Ht0. induction population as [|a population IH]; intros Hall.
  - exists [], []. simpl. repeat split; try constructor.
    intros j Hj. exists []. split; constructor.
  - apply Forall_cons in Hall as [Ha Hall].
    destruct (IH Hall) as (ts & rows & Hts & Hrows & Hf2 & Hlen & Hcount
                           & Hshape & Hcol).
    destruct (layer_ok_inv _ _ _ _ _ Ha)
      as (t1 & t2 & x1 & x2 & H1 & H2 & Hx1 & Hx2 & Hl1 & Hl2 & Hs).
    assert (t1 = t0) by congruence. subst t1.
    assert (Hx2' : mem w !! base t2 = Some x2)
      by (rewrite Hmem; apply lookup_app_l_Some; exact Hx2).
    exists (t2 :: ts), (x2 :: rows).
    repeat match goal with |- _ /\ _ => split end.
    + cbn [map_M]. run (py_index_Return _ _ _ w H2). run Hts. reflexivity.
    + cbn [np_stack]. rewrite Hs, shape_eqb_refl.
      run (read_array_Return t2 w x2 Hx2' ltac:(rewrite Hs; exact Hl2)).
      run Hrows. reflexivity.
    + constructor; assumption.
    + constructor; assumption.
    + simpl. rewrite Hcount. reflexivity.
    + constructor; [exists t2; auto | exact Hshape].
    + intros j Hj. destruct (Hcol j Hj) as (col & Hc1 & Hc2).
      destruct (lookup_lt_is_Some_2 x2 j ltac:(lia)) as [v Hv].
      exists (v :: col). split; constructor; try assumption.
      exists t2. split; [exact H2|]. unfold scalar_at. rewrite Hx2. exact Hv.
Qed.

(** [find_mean] appends one buffer to the store: the means, scalar by
    scalar, of the population's tensors of that layer. *)
Lemma find_mean_Return {E} (h0 more : heap)
    (attr : MLPClassifier -> list ndarray) (i : nat) (a0 : MLPClassifier)
    (population : list MLPClassifier) (w : world E) :
  mem w = h0 ++ more ->
  Forall (fun a => layer_ok h0 attr a0 a i = true) (a0 :: population) ->
  exists c y,
    find_mean (a0 :: population) attr i w
    = Return (MeanArray c) (set_mem (mem w ++ [y]) w)
    /\ base c = length (mem w) /\ length y = size (shp c)
    /\ Forall (fun a => exists t, attr a !! i = Some t /\ shp t = shp c)
         (a0 :: population)
    /\ forall j, (j < length y)%nat ->
         exists col m,
           column h0 attr i j (a0 :: population) col
           /\ y !! j = Some m /\ m == mean col.
Proof.
  intros Hmem Hall.
  assert (Ha0 := Forall_inv Hall).
  destruct (layer_ok_inv _ _ _ _ _ Ha0) as (t0 & _ & _ & _ & Ht0 & _).
  destruct (gather_tensors h0 more attr i a0 t0 w Hmem Ht0 _ Hall)
    as (ts & rows & Hts & Hrows & Hf2 & Hlen & Hcount & Hshape & Hcol).
  destruct ts as [|t ts]; [inversion Hf2|].
  assert (t = t0) by (inversion Hf2; congruence). subst t.
  destruct rows as [|r0 rest]; [discriminate Hcount|].
  apply Forall_cons in Hlen as [Hr0 Hrest].
  set (n := inject_Z (Z.of_nat (length (r0 :: rest)))).
  set (y := map (fun t => t / n) (fold_left (zip_with Qplus) rest r0)).
  assert (Hly : length y = size (shp t0)).
  { unfold y. rewrite length_map.
    apply fold_zip_length; assumption. }
  exists {| base := length (mem w); shp := shp t0 |}, y.
  repeat match goal with |- _ /\ _ => split end; try reflexivity;
    try assumption.
  - unfold find_mean. run Hts. run Hrows. reflexivity.
  - intros j Hj. rewrite Hly in Hj.
    destruct (Hcol j Hj) as (col & Hc1 & Hc2).
    destruct (fold_zip_lookup (size (shp t0)) j rest r0 Hj Hr0 Hrest)
      as (v0 & col' & Hv0 & Hcol' & Hfold & _).
    inversion Hc2 as [|? v ? col0 Hv Hrest2]; subst.
    assert (v = v0) by congruence. subst v.
    assert (col0 = col').
    { clear -Hrest2 Hcol'. revert col' Hcol'.
      induction Hrest2 as [|r v rs vs Hr _ IH]; intros col' Hcol';
        inversion Hcol'; subst; [reflexivity|].
      f_equal; [congruence | apply IH; assumption]. }
    subst col0.
    exists (v0 :: col'), (fold_left Qplus col' v0 / n).
    split; [exact Hc1|]. split.
    + unfold y. rewrite list_lookup_fmap, Hfold. reflexivity.
    + unfold mean. rewrite Qsum_fold_left.
      assert (Hn : length (v0 :: col') = length (r0 :: rest)).
      { simpl. f_equal. symmetry. eapply Forall2_length. exact Hcol'. }
      rewrite Hn. reflexivity.
Qed.

Lemma population_layers (h : heap) (a0 : MLPClassifier)
    (population : list MLPClassifier) :
  forallb (parents_ok h a0) population = true ->
  Forall (fun a => layer_ok h coefs_ a0 a 0 = true) population
  /\ Forall (fun a => layer_ok h intercepts_ a0 a 0 = true) population
  /\ Forall (fun a => layer_ok h coefs_ a0 a 1 = true) population
  /\ Forall (fun a => layer_ok h intercepts_ a0 a 1 = true) population.
Proof.
  intros H. rewrite forallb_forall in H.
  repeat split; apply Forall_forall; intros a Ha;
    apply list_elem_of_In in Ha; specialize (H a Ha);
    unfold parents_ok in H;
    repeat match goal with
      | H : (_ && _) = true |- _ => apply andb_prop in H; destruct H
      end; assumption.
Qed.

(** C7.  For a non-empty population of one topology, and a network
    constructor that returns and keeps the buffers already in the store,
    [average_weight_and_bias] returns a network whose two weight tensors
    and two bias tensors are new arrays of the population's shapes in
    which every scalar equals the arithmetic mean of the population's
    scalars at that layer and place.  The mean of one scalar is that
    scalar and the mean of two is [(a + b) / 2], which gives the cases of
    a population of one and of two agents. *)
Theorem average_is_elementwise_mean {E Obs Frame} (lib : Lib E Obs Frame)
    (population : list MLPClassifier) (env : Env E Obs Frame) (w : world E) :
  population_ok (mem w) population = true ->
  (forall w0, exists a w1,
      create_new_network lib env w0 = Return a w1
      /\ forall l b, mem w0 !! l = Some b -> mem w1 !! l = Some b) ->
  exists avg_network w',
    average_weight_and_bias lib population env w
    = Return (mean_network avg_network) w'
    /\ averaged (mem w) (mem w') population coefs_ (coefs_ avg_network)
    /\ averaged (mem w) (mem w') population intercepts_
         (intercepts_ avg_network)
    /\ (forall a, mean [a] == a)
    /\ (forall a b, mean [a; b] == (a + b) / 2).
Proof.
  intros Hok Hnew.
  destruct population as [|a0 population]; [discriminate Hok|].
  unfold population_ok in Hok.
  destruct (population_layers _ _ _ Hok) as (Hc0 & Hi0 & Hc1 & Hi1).
  set (h := mem w) in *.
  destruct (find_mean_Return h [] coefs_ 0 a0 population w
              ltac:(symmetry; apply app_nil_r) Hc0)
    as (c0 & y0 & Hr0 & Hb0 & Hl0 & Hs0 & Hm0).
  set (w1 := set_mem (mem w ++ [y0]) w) in *.
  destruct (find_mean_Return h [y0] coefs_ 1 a0 population w1 eq_refl Hc1)
    as (c1 & y1 & Hr1 & Hb1 & Hl1 & Hs1 & Hm1).
  set (w2 := set_mem (mem w1 ++ [y1]) w1) in *.
  destruct (find_mean_Return h [y0; y1] intercepts_ 0 a0 population w2)
    as (i0 & y2 & Hr2 & Hb2 & Hl2 & Hs2 & Hm2);
    [unfold w2, w1; simpl; rewrite <- app_assoc; reflexivity | exact Hi0 |].
  set (w3 := set_mem (mem w2 ++ [y2]) w2) in *.
  destruct (find_mean_Return h [y0; y1; y2] intercepts_ 1 a0 population w3)
    as (i1 & y3 & Hr3 & Hb3 & Hl3 & Hs3 & Hm3);
    [unfold w3, w2, w1; simpl; rewrite <- !app_assoc; reflexivity
    | exact Hi1 |].
  set (w4 := set_mem (mem w3 ++ [y3]) w3) in *.
  destruct (Hnew w4) as (a & w5 & Hcreate & Hkeep).
  assert (Hmem4 : mem w4 = h ++ [y0; y1; y2; y3])
    by (unfold w4, w3, w2, w1; simpl; rewrite <- !app_assoc; reflexivity).
  exists {| coefs_ := [c0; c1]; intercepts_ := [i0; i1] |}, w5.
  split; [|split; [|split; [|split; [exact mean_one | exact mean_two]]]].
  - unfold average_weight_and_bias.
    run Hr0. fold w1. run Hr1. fold w2. run Hr2. fold w3. run Hr3. fold w4.
    run Hcreate. reflexivity.
  - split; [reflexivity|]. intros i Hi.
    assert (Hcases : i = 0%nat \/ i = 1%nat) by lia.
    destruct Hcases as [-> | ->].
    + exists c0, y0.
      repeat match goal with |- _ /\ _ => split end;
        try assumption; try reflexivity; try (fold h in Hb0; lia).
      apply Hkeep. rewrite Hmem4, Hb0. fold h.
      apply (list_lookup_middle h [y1; y2; y3] y0). reflexivity.
    + exists c1, y1.
      assert (Hbase : base c1 = S (length h))
        by (rewrite Hb1; unfold w1; simpl; rewrite length_app; simpl;
            fold h; lia).
      repeat match goal with |- _ /\ _ => split end;
        try assumption; try reflexivity; try lia.
      apply Hkeep. rewrite Hmem4, Hbase.
      change (h ++ [y0; y1; y2; y3]) with (h ++ [y0] ++ y1 :: [y2; y3]).
      rewrite app_assoc. apply list_lookup_middle.
      rewrite length_app. simpl. lia.
  - split; [reflexivity|]. intros i Hi.
    assert (Hcases : i = 0%nat \/ i = 1%nat) by lia.
    destruct Hcases as [-> | ->].
    + exists i0, y2.
      assert (Hbase : base i0 = S (S (length h)))
        by (rewrite Hb2; unfold w2, w1; simpl; rewrite !length_app; simpl;
            fold h; lia).
      repeat match goal with |- _ /\ _ => split end;
        try assumption; try reflexivity; try lia.
      apply Hkeep. rewrite Hmem4, Hbase.
      change (h ++ [y0; y1; y2; y3]) with (h ++ [y0; y1] ++ y2 :: [y3]).
      rewrite app_assoc. apply list_lookup_middle.
      rewrite length_app. simpl. lia.
    + exists i1, y3.
      assert (Hbase : base i1 = S (S (S (length h))))
        by (rewrite Hb3; unfold w3, w2, w1; simpl; rewrite !length_app;
            simpl; fold h; lia).
      repeat match goal with |- _ /\ _ => split end;
        try assumption; try reflexivity; try lia.
      apply Hkeep. rewrite Hmem4, Hbase.
      change (h ++ [y0; y1; y2; y3]) with (h ++ [y0; y1; y2] ++ y3 :: []).
      rewrite app_assoc. apply list_lookup_middle.
      rewrite length_app. simpl. lia.
Qed.

Lemma stub_network_keeps (n : nat) (w0 : world nat) :
  exists a w1,
    create_new_network stub_lib (countdown_env n) w0 = Return a w1
    /\ forall l b, mem w0 !! l = Some b -> mem w1 !! l = Some b.
Proof.
  eexists _, _. split; [reflexivity|].
  intros l b Hl. simpl. apply lookup_app_l_Some. exact Hl.
Qed.

(** The centroid of the network of scalars 1..13 and the network whose
    scalars are all 1. *)
Lemma average_is_elementwise_mean_witness :
  exists avg_network w',
    average_weight_and_bias stub_lib [network_at 0; network_at 8]
      (countdown_env 5) (stub_world_at four_networks')
    = Return (mean_network avg_network) w'
    /\ averaged four_networks' (mem w') [network_at 0; network_at 8]
         coefs_ (coefs_ avg_network).
Proof.
  destruct (average_is_elementwise_mean stub_lib
              [network_at 0; network_at 8] (countdown_env 5)
              (stub_world_at four_networks') eq_refl
              (stub_network_keeps 5))
    as (avg & w' & Hr & Hc & _).
  exists avg, w'. split; [exact Hr | exact Hc].
Defined.

(** * Further properties *)

(** ** The mutation scheduler *)

Lemma mutation_rate_inr (ks kg k : kind) (score goal rate : Q) :
  mutation_rate (Number ks (Finite score)) (Number kg (Finite goal))
  = inr (Number k (Finite rate)) ->
  ~ goal == 0 /\ rate = 1 - score / goal.
Proof.
  intros H. destruct (Qeq_bool goal 0) eqn:Hz.
  - exfalso. revert H. unfold mutation_rate, py_truediv, py_sub.
    destruct ks, kg; simpl; rewrite Hz;
      try destruct (Qeq_bool score 0); discriminate.
  - assert (Hg : ~ goal == 0).
    { intros Hg. apply Qeq_bool_iff in Hg. congruence. }
    rewrite (mutation_rate_finite ks kg score goal Hg) in H.
    injection H as _ <-. split; [exact Hg | reflexivity].
Qed.

(** X1.  The rate never increases with the score for a positive goal
    ("decreasing as score -> goal"), and never decreases with it for a
    negative goal: a higher score does not give a higher rate against a
    positive goal. *)
Theorem mutation_rate_monotone (ks1 ks2 kg k1 k2 : kind)
    (score1 score2 goal rate1 rate2 : Q) :
  mutation_rate (Number ks1 (Finite score1)) (Number kg (Finite goal))
  = inr (Number k1 (Finite rate1)) ->
  mutation_rate (Number ks2 (Finite score2)) (Number kg (Finite goal))
  = inr (Number k2 (Finite rate2)) ->
  score1 <= score2 ->
  (0 < goal -> rate2 <= rate1) /\ (goal < 0 -> rate1 <= rate2).
Proof.
  intros H1 H2 Hle.
  apply mutation_rate_inr in H1 as [Hg ->].
  apply mutation_rate_inr in H2 as [_ ->].
  assert (Hq1 : score1 / goal * goal == score1) by (field; exact Hg).
  assert (Hq2 : score2 / goal * goal == score2) by (field; exact Hg).
  set (q1 := score1 / goal) in *. set (q2 := score2 / goal) in *.
  clearbody q1 q2. split; intros Hsign; nra.
Qed.

(** Scores 3 and 7 against the goal 10. *)
Lemma mutation_rate_monotone_witness : 1 - 7 / 10 <= 1 - 3 / 10.
Proof.
  apply (proj1 (mutation_rate_monotone Python Numpy Python Python Numpy
                  3 7 10 (1 - 3 / 10) (1 - 7 / 10)
                  eq_refl eq_refl ltac:(discriminate))).
  reflexivity.
Defined.

(** X2.  Where the rate is a probability: for a score between 0 and the
    goal (both included) the rate lies in [[0, 1]]; for a score at or
    beyond the goal it is 0 or negative, and for a score at zero or on the
    other side of zero it is 1 or more.  Nothing clamps it. *)
Theorem mutation_rate_is_probability (ks kg k : kind) (score goal rate : Q) :
  mutation_rate (Number ks (Finite score)) (Number kg (Finite goal))
  = inr (Number k (Finite rate)) ->
  (0 < goal ->
   (0 <= score <= goal -> 0 <= rate <= 1)
   /\ (score <= 0 -> 1 <= rate) /\ (goal <= score -> rate <= 0))
  /\ (goal < 0 ->
      (goal <= score <= 0 -> 0 <= rate <= 1)
      /\ (0 <= score -> 1 <= rate) /\ (score <= goal -> rate <= 0)).
Proof.
  intros H. apply mutation_rate_inr in H as [Hg ->].
  assert (Hq : score / goal * goal == score) by (field; exact Hg).
  set (q := score / goal) in *. clearbody q.
  split; intros Hsign; (split; [intros [Ha Hb]; split; nra|]);
    split; intros Ha; nra.
Qed.

(** Score 50 against the goal 200. *)
Lemma mutation_rate_is_probability_witness : 0 <= 1 - 50 / 200 <= 1.
Proof.
  apply (proj1 (proj1 (mutation_rate_is_probability Python Python Python
                         50 200 (1 - 50 / 200) eq_refl)
                  eq_refl)).
  split; discriminate.
Defined.

(** ** Mutation: what no strategy does *)

Lemma hoare_ret {E A} (Inv : heap -> Prop) (a : A) (P : A -> Prop) :
  P a -> hoare (E:=E) Inv (ret a) P.
Proof. intros Ha w Hw. exists a, w. auto. Qed.

Lemma hoare_bind {E A B} (Inv : heap -> Prop) (m : M E A) (k : A -> M E B)
    (P : A -> Prop) (Q : B -> Prop) :
  hoare Inv m P -> (forall a, P a -> hoare Inv (k a) Q) -> hoare Inv (bind m k) Q.
Proof.
  intros Hm Hk w Hw.
  destruct (Hm w Hw) as (a & w1 & Hr & Hw1 & Ha).
  destruct (Hk a Ha w1 Hw1) as (b & w2 & Hr2 & Hw2 & Hb).
  exists b, w2. rewrite (bind_Return _ _ _ _ _ Hr). auto.
Qed.

Lemma hoare_for {E X} (Inv : heap -> Prop) (xs : list X)
    (body : X -> M E unit) :
  (forall x, In x xs -> hoare Inv (body x) (fun _ => True)) ->
  hoare Inv (for_ xs body) (fun _ => True).
Proof.
  induction xs as [|x xs IH]; intros Hbody; simpl.
  - apply hoare_ret. exact I.
  - eapply hoare_bind.
    + apply Hbody. left. reflexivity.
    + intros _ _. apply IH. intros y Hy. apply Hbody. right. exact Hy.
Qed.

Lemma hoare_map_M {E X Y} (Inv : heap -> Prop) (f : X -> M E Y)
    (P : Y -> Prop) (xs : list X) :
  (forall x, In x xs -> hoare Inv (f x) P) ->
  hoare Inv (map_M f xs) (fun ys => Forall P ys /\ length ys = length xs).
Proof.
  induction xs as [|x xs IH]; intros Hf; simpl.
  - apply hoare_ret. split; [constructor | reflexivity].
  - eapply hoare_bind; [apply Hf; left; reflexivity|].
    intros y Hy. eapply hoare_bind.
    + apply IH. intros z Hz. apply Hf. right. exact Hz.
    + intros ys [Hys Hlen]. apply hoare_ret.
      split; [constructor; assumption | simpl; congruence].
Qed.

(** A computation that leaves every store alone keeps every invariant. *)
Lemma keeps_hoare {E A} (Inv : heap -> Prop) (m : M E A) (P : A -> Prop) :
  (forall h, keeps h m P) -> hoare Inv m P.
Proof.
  intros Hk w Hw. destruct (Hk (mem w) w eq_refl) as (a & w' & Hr & Hm & Ha).
  exists a, w'. rewrite Hm. auto.
Qed.

Lemma size_len_rowsize (s : shape) : size s = (len s * rowsize s)%nat.
Proof. destruct s; simpl; lia. Qed.

Lemma random_random_unit {E} (Inv : heap -> Prop) :
  hoare (E:=E) Inv random_random (fun u => exists raw, u = unit_float raw).
Proof.
  intros w Hw. eexists _, _. split; [apply random_random_Return|].
  split; [exact Hw | eauto].
Qed.

Lemma randbelow_lt {E} (Inv : heap -> Prop) (n : nat) :
  (0 < n)%nat -> hoare (E:=E) Inv (randbelow n) (fun j => (j < n)%nat).
Proof.
  intros Hn w Hw. eexists _, _. split; [reflexivity|].
  split; [exact Hw|].
  pose proof (Z.mod_pos_bound (py_bits w (py_pos w)) (Z.of_nat n)
                ltac:(lia)).
  lia.
Qed.

Section MovesValues.
Context {E : Type}.
Variables (h0 : heap) (L : list loc).

(** The invariant of a mutation pass started in the store [h0] on tensors
    whose buffers are those of [L]. *)
Let Inv (h : heap) : Prop := rearranged h0 h /\ untouched L h0 h.

Lemma moves_start : Inv h0.
Proof.
  split; [|intros l _; reflexivity].
  apply Forall2_same_length_lookup_2; [reflexivity|].
  intros l b b' Hb Hb'. assert (b' = b) by congruence. subst b'.
  split; [reflexivity | intros v Hv; exact Hv].
Qed.

Lemma moves_lookup (h : heap) (l : loc) (b0 : list Q) :
  Inv h -> h0 !! l = Some b0 ->
  exists b, h !! l = Some b /\ length b = length b0 /\ b ⊆ b0.
Proof.
  intros [Hr _] Hl.
  destruct (Forall2_lookup_l _ _ _ _ _ Hr Hl) as (b & Hb & Hlen & Hsub).
  eauto.
Qed.

Lemma moves_insert (h : heap) (l : loc) (b0 b' : list Q) :
  Inv h -> l ∈ L -> h0 !! l = Some b0 ->
  length b' = length b0 -> b' ⊆ b0 ->
  Inv (<[l := b']> h).
Proof.
  intros [Hr Hu] HL Hl Hlen Hsub. split.
  - rewrite <- (list_insert_id h0 l b0 Hl).
    apply Forall2_insert; [exact Hr | split; assumption].
  - intros k Hk. rewrite list_lookup_insert_ne; [apply Hu; exact Hk|].
    intros ->. contradiction.
Qed.

Variables (el : ndarray) (b0 : list Q).
Hypothesis tensor_there : h0 !! base el = Some b0.
Hypothesis tensor_size : length b0 = size (shp el).
Hypothesis tensor_listed : base el ∈ L.

Lemma moves_read_row (i : nat) :
  (i < len (shp el))%nat ->
  hoare (E:=E) Inv (read_row el i)
    (fun vs => length vs = rowsize (shp el) /\ vs ⊆ b0).
Proof.
  intros Hi w Hw.
  destruct (moves_lookup _ _ _ Hw tensor_there) as (b & Hb & Hlen & Hsub).
  exists (take (rowsize (shp el)) (drop (i * rowsize (shp el)) b)), w.
  split; [|split; [exact Hw|split]].
  - unfold read_row. apply Nat.ltb_lt in Hi. rewrite Hi.
    run (read_buffer_Return (base el) w b Hb). reflexivity.
  - rewrite length_take, length_drop, Hlen, tensor_size, size_len_rowsize.
    nia.
  - intros v Hv. apply Hsub.
    apply (subseteq_drop (i * rowsize (shp el))).
    apply (subseteq_take (rowsize (shp el))). exact Hv.
Qed.

Lemma moves_write_row (k : nat) (vs : list Q) :
  (k < len (shp el))%nat -> length vs = rowsize (shp el) -> vs ⊆ b0 ->
  hoare (E:=E) Inv (write_row el k vs) (fun _ => True).
Proof.
  intros Hk Hvs Hsub w Hw.
  destruct (moves_lookup _ _ _ Hw tensor_there) as (b & Hb & Hlen & Hsubb).
  eexists tt, _. split; [|split; [|exact I]].
  - unfold write_row. apply Nat.ltb_lt in Hk. rewrite Hk.
    run (read_buffer_Return (base el) w b Hb). reflexivity.
  - simpl. apply (moves_insert _ _ b0); try assumption.
    + rewrite !length_app, length_take, length_drop, Hvs, Hlen, tensor_size,
        size_len_rowsize.
      nia.
    + intros v Hv. apply elem_of_app in Hv as [Hv | Hv];
        [|apply elem_of_app in Hv as [Hv | Hv]].
      * apply Hsubb. exact (subseteq_take _ _ _ Hv).
      * apply Hsub. exact Hv.
      * apply Hsubb. exact (subseteq_drop _ _ _ Hv).
Qed.

Lemma moves_load (j : nat) :
  (j < size (shp el))%nat ->
  hoare (E:=E) Inv (load (base el) j) (fun v => v ∈ b0).
Proof.
  intros Hj w Hw.
  destruct (moves_lookup _ _ _ Hw tensor_there) as (b & Hb & Hlen & Hsub).
  destruct (lookup_lt_is_Some_2 b j ltac:(lia)) as [v Hv].
  exists v, w. split; [apply (load_Return _ _ _ b v Hb Hv)|].
  split; [exact Hw|]. apply Hsub. apply list_elem_of_lookup. eauto.
Qed.

Lemma moves_getitem (i : nat) :
  (i < len (shp el))%nat ->
  hoare (E:=E) Inv (getitem el i)
    (fun x => item_ok b0 el x
              /\ match shp el with
                 | Shape1 _ => exists v, x = Scalar v
                 | Shape2 _ _ => x = Row i
                 end).
Proof.
  intros Hi. unfold getitem. apply Nat.ltb_lt in Hi as Hi'. rewrite Hi'.
  pose proof (moves_load i) as Hload. unfold item_ok.
  destruct (shp el) as [n|r c].
  - eapply hoare_bind.
    + apply Hload. simpl in *. lia.
    + intros v Hv. apply hoare_ret. split; [exact Hv | eauto].
  - apply hoare_ret. split; [exact Hi | reflexivity].
Qed.

Lemma moves_setitem (k : nat) (x : item) :
  (k < len (shp el))%nat -> item_ok b0 el x ->
  hoare (E:=E) Inv (setitem el k x) (fun _ => True).
Proof.
  intros Hk Hx. unfold setitem. destruct x as [v | i]; simpl in Hx.
  - apply moves_write_row; [exact Hk | apply length_replicate |].
    intros u Hu. apply elem_of_replicate in Hu as [-> _]. exact Hx.
  - eapply hoare_bind; [apply (moves_read_row i Hx)|].
    intros vs [Hlen Hsub]. apply moves_write_row; assumption.
Qed.

(** [random.shuffle] on a slice of the tensor. *)
Lemma moves_shuffle_slice (lo hi : nat) :
  (hi <= len (shp el))%nat ->
  hoare (E:=E) Inv (shuffle_slice el lo hi) (fun _ => True).
Proof.
  intros Hhi. unfold shuffle_slice. apply hoare_for. intros i Hin.
  apply in_rev, in_seq in Hin.
  eapply hoare_bind; [apply (randbelow_lt Inv (S i)); lia|].
  intros j Hj. simpl in Hj.
  eapply hoare_bind; [apply (moves_getitem (lo + j)); lia|].
  intros xj [Hxj _].
  eapply hoare_bind; [apply (moves_getitem (lo + i)); lia|].
  intros xi [Hxi _].
  eapply hoare_bind; [apply (moves_setitem (lo + i) xj); [lia | exact Hxj]|].
  intros _ _. apply moves_setitem; [lia | exact Hxi].
Qed.

(** The reversal of a slice of the tensor. *)
Lemma moves_reverse_slice (lo hi : nat) :
  (hi <= len (shp el))%nat ->
  hoare (E:=E) Inv (reverse_slice el lo hi) (fun _ => True).
Proof.
  intros Hhi. unfold reverse_slice.
  eapply hoare_bind.
  - apply (hoare_map_M Inv (read_row el)
             (fun vs => length vs = rowsize (shp el) /\ vs ⊆ b0)).
    intros k Hk. apply in_seq in Hk. apply moves_read_row. lia.
  - intros rows [Hrows Hlen]. apply hoare_for. intros [k vs] Hin.
    apply list_elem_of_In in Hin.
    pose proof (elem_of_zip_l _ _ _ _ Hin) as Hk.
    pose proof (elem_of_zip_r _ _ _ _ Hin) as Hvs.
    apply list_elem_of_In, in_seq in Hk.
    apply list_elem_of_In, in_rev in Hvs.
    rewrite Forall_forall in Hrows.
    destruct (Hrows vs ltac:(apply list_elem_of_In; exact Hvs)) as [Hl Hs].
    apply moves_write_row; [simpl; lia | exact Hl | exact Hs].
Qed.

(** One pass of the loop body, whatever the strategy and the rate. *)
Lemma moves_mutate_item (i : nat) (rate : Q) (method : string) :
  (i < len (shp el))%nat ->
  hoare (E:=E) Inv (mutate_item el i rate method) (fun _ => True).
Proof.
  intros Hi. unfold mutate_item.
  eapply hoare_bind; [apply (moves_getitem i Hi)|].
  intros swappedRow [Hrow _].
  eapply hoare_bind; [apply random_random_unit|]. intros u _.
  destruct (Qltb u rate); [|apply hoare_ret; exact I].
  eapply hoare_bind; [apply random_random_unit|]. intros u1 [raw1 ->].
  eapply hoare_bind; [apply random_random_unit|]. intros u2 [raw2 ->].
  pose proof (draw_index_lt raw1 (len (shp el)) ltac:(lia)) as H1.
  pose proof (draw_index_lt raw2 (len (shp el)) ltac:(lia)) as H2.
  set (r1 := Z.to_nat (py_int (unit_float raw1 * _))) in *.
  set (r2 := Z.to_nat (py_int (unit_float raw2 * _))) in *.
  assert (Hpair : exists lo hi,
             (if (r2 <? r1)%nat then (r2, r1) else (r1, r2)) = (lo, hi)
             /\ (lo < len (shp el))%nat /\ (hi < len (shp el))%nat).
  { destruct (r2 <? r1)%nat; eauto. }
  destruct Hpair as (lo & hi & -> & Hlo & Hhi).
  destruct (method =? "swap")%string.
  { eapply hoare_bind; [apply (moves_getitem lo Hlo)|].
    intros x _. apply moves_setitem; assumption. }
  destruct (method =? "scramble")%string.
  { apply moves_shuffle_slice. lia. }
  destruct (method =? "inverse")%string.
  { apply moves_reverse_slice. lia. }
  destruct swappedRow as [v | r].
  - destruct (method =? "gaussian")%string.
    { eapply hoare_bind;
        [apply keeps_hoare; intros h; apply keeps_np_random_normal|].
      intros _ _. apply hoare_ret. exact I. }
    destruct (method =? "uniform")%string.
    { eapply hoare_bind; [apply random_random_unit|].
      intros _ _. apply hoare_ret. exact I. }
    apply hoare_ret. exact I.
  - simpl in Hrow. apply hoare_for. intros c Hc. apply in_seq in Hc.
    eapply hoare_bind.
    { apply (moves_load (r * rowsize (shp el) + c)).
      rewrite size_len_rowsize. nia. }
    intros inner _.
    destruct (method =? "gaussian")%string.
    { eapply hoare_bind;
        [apply keeps_hoare; intros h; apply keeps_np_random_normal|].
      intros _ _. apply hoare_ret. exact I. }
    destruct (method =? "uniform")%string.
    { eapply hoare_bind; [apply random_random_unit|].
      intros _ _. apply hoare_ret. exact I. }
    apply hoare_ret. exact I.
Qed.

End MovesValues.

(** X4. Whatever the strategy name and the rate, [mutationFunc_W_B] on an
    agent whose tensors are in the store raises nothing and returns the
    agent; afterwards every buffer has the length it had and holds only
    scalars that the same buffer held before the call (no strategy brings a
    new value into a network), and the buffers that are not tensors of the
    agent are as they were. *)
Theorem mutation_moves_values_only {E} (agent : MLPClassifier) (rate : Q)
    (method : string) (w : world E) :
  tensors_ok (mem w) agent = true ->
  exists w',
    mutationFunc_W_B agent rate method w = Return agent w'
    /\ rearranged (mem w) (mem w')
    /\ untouched (agent_bases agent) (mem w) (mem w').
Proof.
  intros Hok. unfold tensors_ok in Hok. apply andb_prop in Hok as [Hc Hi].
  set (Inv := fun h : heap =>
                rearranged (mem w) h /\ untouched (agent_bases agent) (mem w) h).
  assert (Hrun : hoare (E:=E) Inv (mutationFunc_W_B agent rate method)
                   (fun a => a = agent)).
  { unfold mutationFunc_W_B.
    eapply hoare_bind; [|intros _ _; apply hoare_ret; reflexivity].
    apply hoare_for. intros item _.
    apply hoare_for. intros el Hel.
    assert (Hel' : tensor_ok (mem w) el = true
                   /\ base el ∈ agent_bases agent).
    { unfold agent_bases.
      destruct (item =? 0)%nat.
      - split; [exact (forallb_In _ _ _ Hc Hel)|].
        apply list_elem_of_In, in_map, in_or_app. left. exact Hel.
      - split; [exact (forallb_In _ _ _ Hi Hel)|].
        apply list_elem_of_In, in_map, in_or_app. right. exact Hel. }
    destruct Hel' as [Htok Hbase].
    destruct (tensor_ok_buffer _ _ Htok) as (b & Hb & Hlen).
    apply hoare_for. intros i Hin. apply in_seq in Hin.
    apply (moves_mutate_item (E:=E) (mem w) (agent_bases agent) el b
             Hb Hlen Hbase i rate method).
    lia. }
  destruct (Hrun w (moves_start (mem w) (agent_bases agent)))
    as (a & w' & Hr & [Hre Hun] & ->).
  exists w'. auto.
Qed.

(** The strategy [scramble] at rate 1 on the sample network. *)
Lemma mutation_moves_values_only_witness :
  exists w',
    mutationFunc_W_B (network_at 0) 1 "scramble"
      (eighths_world sample_buffers) = Return (network_at 0) w'
    /\ rearranged sample_buffers (mem w')
    /\ untouched (agent_bases (network_at 0)) sample_buffers (mem w').
Proof.
  apply (mutation_moves_values_only (network_at 0) 1 "scramble"
           (eighths_world sample_buffers)).
  reflexivity.
Defined.

(** ** Mutation: the strategies that change nothing *)

Lemma keeps_mutate_item_other {E} (h : heap) (el : ndarray) (i : nat)
    (rate : Q) (method : string) :
  (method =? "swap")%string = false ->
  (method =? "scramble")%string = false ->
  (method =? "inverse")%string = false ->
  tensor_ok h el = true -> (i < len (shp el))%nat ->
  keeps (E:=E) h (mutate_item el i rate method) (fun _ => True).
Proof.
  intros Hswap Hscr Hinv Hok Hi. unfold mutate_item.
  eapply keeps_bind; [apply (keeps_getitem h el i Hok Hi)|].
  intros swappedRow Hrow.
  eapply keeps_bind; [apply keeps_random_random|]. intros u _.
  destruct (Qltb u rate); [|apply keeps_ret; exact I].
  eapply keeps_bind; [apply keeps_random_random|]. intros u1 _.
  eapply keeps_bind; [apply keeps_random_random|]. intros u2 _.
  match goal with |- context [if ?c then (_, _) else (_, _)] => destruct c end.
  all: rewrite Hswap, Hscr, Hinv.
  all: destruct (tensor_ok_buffer h el Hok) as (b & Hb & Hlen).
  all: assert (Hnoise : keeps (E:=E) h
                 (if (method =? "gaussian")%string
                  then noise <- np_random_normal 0 2 ;; ret tt
                  else if (method =? "uniform")%string
                       then fresh <- random_random ;; ret tt
                       else ret tt) (fun _ => True))
         by (destruct (method =? "gaussian")%string;
             [eapply keeps_bind; [apply keeps_np_random_normal|];
              intros; apply keeps_ret; exact I|];
             destruct (method =? "uniform")%string;
             [eapply keeps_bind; [apply keeps_random_random|];
              intros; apply keeps_ret; exact I|];
             apply keeps_ret; exact I).
  all: destruct swappedRow as [v | r]; [exact Hnoise|].
  all: destruct (shp el) as [n|rows cols] eqn:Hs;
       [destruct Hrow as [v Hv]; discriminate Hv | injection Hrow as ->].
  all: apply keeps_for; intros col Hcol; unfold range in Hcol;
       apply in_seq in Hcol;
       (eapply keeps_bind;
        [apply (keeps_load h (base el) _ b Hb); simpl in *; nia|]);
       intros inner _; exact Hnoise.
Qed.

(** X5. Under [uniform], and under any strategy name other than [swap],
    [scramble] and [inverse] (a misspelt name included), [mutationFunc_W_B]
    raises nothing and returns the agent with the store exactly as it was,
    whatever the rate and the draws: the fresh value is bound to the loop's
    local name only. *)
Theorem mutation_other_strategies_idle {E} (agent : MLPClassifier) (rate : Q)
    (method : string) (w : world E) :
  method <> "swap"%string -> method <> "scramble"%string ->
  method <> "inverse"%string ->
  tensors_ok (mem w) agent = true ->
  exists w',
    mutationFunc_W_B agent rate method w = Return agent w'
    /\ mem w' = mem w.
Proof.
  intros Hswap Hscr Hinv Hok.
  apply String.eqb_neq in Hswap, Hscr, Hinv.
  unfold tensors_ok in Hok. apply andb_prop in Hok as [Hc Hi].
  assert (Hrun : keeps (E:=E) (mem w) (mutationFunc_W_B agent rate method)
                   (fun a => a = agent)).
  { unfold mutationFunc_W_B.
    eapply keeps_bind; [|intros _ _; apply keeps_ret; reflexivity].
    apply keeps_for. intros item _.
    apply keeps_for. intros el Hel.
    assert (Hel_ok : tensor_ok (mem w) el = true).
    { destruct (item =? 0)%nat;
        [exact (forallb_In _ _ _ Hc Hel) | exact (forallb_In _ _ _ Hi Hel)]. }
    apply keeps_for. intros i Hin. unfold range in Hin. apply in_seq in Hin.
    apply keeps_mutate_item_other; try assumption. lia. }
  destruct (Hrun w eq_refl) as (a & w' & Hr & Hm & ->).
  exists w'. auto.
Qed.

(** The strategy [uniform] at rate 1, and a name the function does not
    know. *)
Lemma mutation_other_strategies_idle_witness :
  (exists w',
     mutationFunc_W_B (network_at 0) 1 "uniform"
       (tape_world sample_buffers half_draw 0 0) = Return (network_at 0) w'
     /\ mem w' = sample_buffers)
  /\ (exists w',
        mutationFunc_W_B (network_at 0) 1 "Swap"
          (tape_world sample_buffers half_draw 0 0) = Return (network_at 0) w'
        /\ mem w' = sample_buffers).
Proof.
  split.
  - apply (mutation_other_strategies_idle (network_at 0) 1 "uniform"
             (tape_world sample_buffers half_draw 0 0));
      [discriminate | discriminate | discriminate | reflexivity].
  - apply (mutation_other_strategies_idle (network_at 0) 1 "Swap"
             (tape_world sample_buffers half_draw 0 0));
      [discriminate | discriminate | discriminate | reflexivity].
Defined.

(** ** Mutation: a rate that switches it off *)

Lemma set_py_pos_same {E} (w : world E) : set_py_pos (py_pos w + 0) w = w.
Proof. destruct w. unfold set_py_pos. simpl. rewrite Nat.add_0_r. reflexivity. Qed.

(** A loop whose every pass only draws [c x] times from Python's generator
    only draws, the sum of the [c x] times. *)
Lemma for_draws {E X} (h : heap) (c : X -> nat) (xs : list X)
    (body : X -> M E unit) :
  (forall x (w : world E), In x xs -> mem w = h ->
     body x w = Return tt (set_py_pos (py_pos w + c x) w)) ->
  forall w : world E, mem w = h ->
    for_ xs body w = Return tt (set_py_pos (py_pos w + list_sum (map c xs)) w).
Proof.
  induction xs as [|x xs IH]; intros Hbody w Hw; simpl.
  - rewrite set_py_pos_same. reflexivity.
  - rewrite (bind_Return _ _ _ _ _ (Hbody x w (or_introl eq_refl) Hw)).
    rewrite IH; [|intros; apply Hbody; [right|]; assumption | exact Hw].
    unfold set_py_pos. simpl. rewrite Nat.add_assoc. reflexivity.
Qed.

Lemma rate_off (rate : Q) (raw : Z) :
  rate <= 0 -> Qltb (unit_float raw) rate = false.
Proof.
  intros Hr. unfold Qltb. apply negb_false_iff, Qle_bool_iff.
  apply (Qle_trans _ 0); [exact Hr | apply unit_float_bounds].
Qed.

Lemma mutate_item_off {E} (el : ndarray) (i : nat) (rate : Q)
    (method : string) (w : world E) :
  tensor_ok (mem w) el = true -> (i < len (shp el))%nat -> rate <= 0 ->
  mutate_item el i rate method w
  = Return tt (set_py_pos (py_pos w + 1) w).
Proof.
  intros Hok Hi Hr. destruct (tensor_ok_buffer _ _ Hok) as (b & Hb & Hlen).
  destruct (getitem_Return el i w b Hb Hlen Hi) as (x & Hget & _).
  unfold mutate_item. run Hget. run (random_random_Return w).
  rewrite (rate_off rate _ Hr). rewrite Nat.add_1_r. reflexivity.
Qed.

Lemma mutation_off {E} (agent : MLPClassifier) (rate : Q) (method : string)
    (w : world E) :
  tensors_ok (mem w) agent = true -> rate <= 0 ->
  mutationFunc_W_B agent rate method w
  = Return agent (set_py_pos (py_pos w + items agent) w).
Proof.
  intros Hok Hr. unfold tensors_ok in Hok. apply andb_prop in Hok as [Hc Hi].
  assert (Hlist : forall (l : list ndarray) (w1 : world E),
             forallb (tensor_ok (mem w)) l = true -> mem w1 = mem w ->
             for_ l (fun el => for_ (range (len (shp el)))
                                 (fun i => mutate_item el i rate method)) w1
             = Return tt
                 (set_py_pos
                    (py_pos w1 + list_sum (map (fun el => len (shp el)) l)) w1)).
  { intros l w1 Hl Hw1.
    apply (for_draws (mem w) (fun el => len (shp el))); [|exact Hw1].
    intros el w2 Hel Hw2.
    rewrite (for_draws (mem w) (fun _ => 1%nat) (range (len (shp el)))
               (fun i => mutate_item el i rate method)); [| |exact Hw2].
    - replace (list_sum (map (fun _ => 1%nat) (range (len (shp el)))))
        with (len (shp el)); [reflexivity|].
      unfold range. generalize 0%nat at 2.
      induction (len (shp el)) as [|n IH]; intros s; simpl;
        [reflexivity | f_equal; apply IH].
    - intros i w3 Hin Hw3. unfold range in Hin. apply in_seq in Hin.
      apply mutate_item_off; [|lia|exact Hr].
      rewrite Hw3. exact (forallb_In _ _ _ Hl Hel). }
  unfold mutationFunc_W_B. change (range 2) with [0%nat; 1%nat]. simpl for_.
  run (Hlist (coefs_ agent) w Hc eq_refl).
  match goal with |- _ ?w1 = _ => run (Hlist (intercepts_ agent) w1 Hi eq_refl) end.
  unfold ret, items, set_py_pos. simpl. rewrite Nat.add_assoc. reflexivity.
Qed.

(** X6. With a rate that is zero or negative no strategy does anything:
    [mutationFunc_W_B] returns the agent in the world it started from, the
    store untouched, with Python's generator advanced by exactly one draw
    for each row of a weight matrix and each entry of a bias vector, and
    numpy's generator not used. *)
Theorem mutation_rate_off_is_idle {E} (agent : MLPClassifier) (rate : Q)
    (method : string) (w : world E) :
  tensors_ok (mem w) agent = true -> rate <= 0 ->
  mutationFunc_W_B agent rate method w
  = Return agent (set_py_pos (py_pos w + items agent) w).
Proof. exact (mutation_off agent rate method w). Qed.

(** The sample network has 1 + 4 + 4 + 1 items. *)
Lemma mutation_rate_off_is_idle_witness :
  mutationFunc_W_B (network_at 0) 0 "swap"
    (tape_world sample_buffers half_draw 0 0)
  = Return (network_at 0)
      (set_py_pos 10 (tape_world sample_buffers half_draw 0 0)).
Proof.
  apply (mutation_rate_off_is_idle (network_at 0) 0 "swap"
           (tape_world sample_buffers half_draw 0 0));
    [reflexivity | apply Qle_refl].
Defined.

(** X7. The scheduler and the mutation together: once the score has reached
    a positive goal, the rate [mutation_rate] computes switches every
    strategy off, and the network passed to [mutationFunc_W_B] with that
    rate comes back unchanged. *)
Theorem goal_reached_stops_mutation {E} (agent : MLPClassifier)
    (ks kg k : kind) (score goal rate : Q) (method : string) (w : world E) :
  tensors_ok (mem w) agent = true ->
  0 < goal -> goal <= score ->
  mutation_rate (Number ks (Finite score)) (Number kg (Finite goal))
  = inr (Number k (Finite rate)) ->
  exists w',
    mutationFunc_W_B agent rate method w = Return agent w'
    /\ mem w' = mem w.
Proof.
  intros Hok Hg Hs Hrate.
  destruct (mutation_rate_inr _ _ _ _ _ _ Hrate) as [Hnz ->].
  eexists. split.
  - apply (mutation_off agent _ method w Hok).
    assert (Hd : 1 <= score / goal).
    { apply Qle_shift_div_l; [exact Hg|]. rewrite Qmult_1_l. exact Hs. }
    lra.
  - reflexivity.
Qed.

Lemma goal_reached_stops_mutation_witness :
  exists w',
    mutationFunc_W_B (network_at 0) (1 - 250 / 200) "inverse"
      (tape_world sample_buffers half_draw 0 0) = Return (network_at 0) w'
    /\ mem w' = sample_buffers.
Proof.
  apply (goal_reached_stops_mutation (network_at 0) Numpy Python Numpy
           250 200 (1 - 250 / 200)
           "inverse" (tape_world sample_buffers half_draw 0 0));
    [reflexivity | reflexivity | discriminate | reflexivity].
Defined.

(** ** Mutation: the strategy [inverse] *)

Lemma set_mem_same {E} (w : world E) (l : loc) (b : list Q) :
  mem w !! l = Some b -> set_mem (<[l := b]> (mem w)) w = w.
Proof.
  intros Hb. rewrite list_insert_id by exact Hb. destruct w. reflexivity.
Qed.

Lemma read_row_Return {E} (el : ndarray) (k : nat) (w : world E) (b : list Q) :
  mem w !! base el = Some b -> (k < len (shp el))%nat ->
  read_row el k w = Return (item_scalars (shp el) b k) w.
Proof.
  intros Hb Hk. unfold read_row. apply Nat.ltb_lt in Hk. rewrite Hk.
  run (read_buffer_Return (base el) w b Hb). reflexivity.
Qed.

Lemma write_row_Return {E} (el : ndarray) (k : nat) (vs : list Q)
    (w : world E) (b : list Q) :
  mem w !! base el = Some b -> (k < len (shp el))%nat ->
  write_row el k vs w
  = Return tt
      (set_mem (<[base el := take (k * rowsize (shp el)) b ++ vs
                               ++ drop (S k * rowsize (shp el)) b]> (mem w))
         w).
Proof.
  intros Hb Hk. unfold write_row. apply Nat.ltb_lt in Hk. rewrite Hk.
  run (read_buffer_Return (base el) w b Hb). reflexivity.
Qed.

Lemma read_rows_Return {E} (el : ndarray) (w : world E) (b : list Q)
    (ks : list nat) :
  mem w !! base el = Some b ->
  (forall k, In k ks -> (k < len (shp el))%nat) ->
  map_M (read_row el) ks w = Return (map (item_scalars (shp el) b) ks) w.
Proof.
  intros Hb. induction ks as [|k ks IH]; intros Hks; simpl; [reflexivity|].
  run (read_row_Return el k w b Hb (Hks k (or_introl eq_refl))).
  run (IH (fun k' Hk' => Hks k' (or_intror Hk'))). reflexivity.
Qed.

(** Writing the rows [vss] one after the other from row [lo] on. *)
Lemma write_rows_Return {E} (el : ndarray) (vss : list (list Q)) :
  forall (lo : nat) (w : world E) (b : list Q),
    mem w !! base el = Some b ->
    Forall (fun vs => length vs = rowsize (shp el)) vss ->
    (lo + length vss <= len (shp el))%nat ->
    ((lo + length vss) * rowsize (shp el) <= length b)%nat ->
    for_ (zip (seq lo (length vss)) vss)
      (fun kv => write_row el (fst kv) (snd kv)) w
    = Return tt
        (set_mem (<[base el := take (lo * rowsize (shp el)) b ++ concat vss
                     ++ drop ((lo + length vss) * rowsize (shp el)) b]>
                    (mem w)) w).
Proof.
  induction vss as [|vs vss IH]; intros lo w b Hb Hvss Hlen Hsize.
  - simpl. rewrite Nat.add_0_r, take_drop, set_mem_same by exact Hb.
    reflexivity.
  - apply Forall_cons in Hvss as [Hvs Hvss]. simpl length in *.
    simpl seq. simpl zip. simpl for_.
    run (write_row_Return el lo vs w b Hb ltac:(lia)). simpl fst. simpl snd.
    set (rs := rowsize (shp el)) in *.
    set (b1 := take (lo * rs) b ++ vs ++ drop (S lo * rs) b).
    assert (Htake : length (take (lo * rs) b) = (lo * rs)%nat)
      by (apply length_take_le; nia).
    assert (Hb1 : length b1 = length b).
    { unfold b1. rewrite !length_app, Htake, Hvs, length_drop. nia. }
    rewrite (IH (S lo) _ b1).
    + simpl mem. rewrite list_insert_insert_eq.
      assert (Hfront : take (S lo * rs) b1 = take (lo * rs) b ++ vs).
      { unfold b1. rewrite app_assoc. apply take_app_length'.
        rewrite length_app, Htake, Hvs. lia. }
      assert (Hback : drop ((S lo + length vss) * rs) b1
                      = drop ((lo + S (length vss)) * rs) b).
      { unfold b1. rewrite app_assoc.
        replace ((S lo + length vss) * rs)%nat
          with (S lo * rs + length vss * rs)%nat by lia.
        rewrite (drop_app_add' _ _ (S lo * rs) (length vss * rs));
          [|rewrite length_app, Htake, Hvs; lia].
        rewrite drop_drop. f_equal. lia. }
      rewrite Hfront, Hback. simpl concat. rewrite <- !app_assoc. reflexivity.
    + simpl. apply list_lookup_insert_eq. eapply lookup_lt_Some. exact Hb.
    + exact Hvss.
    + lia.
    + rewrite Hb1. nia.
Qed.

Lemma length_item_scalars (s : shape) (b : list Q) (k : nat) :
  (S k * rowsize s <= length b)%nat ->
  length (item_scalars s b k) = rowsize s.
Proof.
  intros Hk. unfold item_scalars. rewrite length_take, length_drop. nia.
Qed.

(** [el[lo:hi] = el[lo:hi][::-1]], in closed form. *)
Lemma reverse_slice_Return {E} (el : ndarray) (lo hi : nat) (w : world E)
    (b : list Q) :
  mem w !! base el = Some b -> length b = size (shp el) ->
  (lo <= hi <= len (shp el))%nat ->
  reverse_slice el lo hi w
  = Return tt (set_mem (<[base el := reversed (shp el) b lo hi]> (mem w)) w).
Proof.
  intros Hb Hlen Hlh. unfold reverse_slice.
  rewrite size_len_rowsize in Hlen.
  run (read_rows_Return el w b (seq lo (hi - lo)) Hb
         ltac:(intros k Hk; apply in_seq in Hk; lia)).
  fold (rows (shp el) b lo hi).
  assert (Hn : length (rev (rows (shp el) b lo hi)) = (hi - lo)%nat).
  { unfold rows. rewrite length_rev, length_map, length_seq. reflexivity. }
  rewrite <- Hn at 1.
  rewrite (write_rows_Return el _ lo w b Hb).
  - rewrite Hn. replace (lo + (hi - lo))%nat with hi by lia. reflexivity.
  - apply Forall_forall. intros vs Hvs.
    apply list_elem_of_In, in_rev, in_map_iff in Hvs as (k & <- & Hk).
    apply in_seq in Hk. apply length_item_scalars. nia.
  - lia.
  - rewrite Hn. nia.
Qed.

Lemma concat_Permutation {A} (l l' : list (list A)) :
  l ≡ₚ l' -> concat l ≡ₚ concat l'.
Proof.
  induction 1 as [|x l l' _ IH|x y l|l l' l'' _ IH1 _ IH2]; simpl.
  - reflexivity.
  - rewrite IH. reflexivity.
  - rewrite !app_assoc. apply Permutation_app_tail, Permutation_app_comm.
  - etransitivity; eassumption.
Qed.

(** The rows of a slice, one after the other, are the slice. *)
Lemma concat_rows (s : shape) (b : list Q) (n : nat) :
  forall lo,
    concat (map (item_scalars s b) (seq lo n))
    = take (n * rowsize s) (drop (lo * rowsize s) b).
Proof.
  induction n as [|n IH]; intros lo; simpl; [reflexivity|].
  rewrite IH. unfold item_scalars.
  rewrite <- (take_take_drop (drop (lo * rowsize s) b)), drop_drop.
  f_equal. f_equal. f_equal. lia.
Qed.

(** Reversing a slice only reorders the scalars of the buffer. *)
Lemma reversed_Permutation (s : shape) (b : list Q) (lo hi : nat) :
  (lo <= hi)%nat -> reversed s b lo hi ≡ₚ b.
Proof.
  intros Hlh. unfold reversed.
  rewrite (concat_Permutation _ (rows s b lo hi))
    by (symmetry; apply Permutation_rev).
  unfold rows. rewrite concat_rows.
  rewrite <- (take_drop (lo * rowsize s) b) at 4.
  apply Permutation_app_head.
  rewrite <- (take_drop ((hi - lo) * rowsize s) (drop (lo * rowsize s) b)) at 2.
  rewrite drop_drop.
  replace (lo * rowsize s + (hi - lo) * rowsize s)%nat
    with (hi * rowsize s)%nat by nia.
  reflexivity.
Qed.

(** One pass of the loop body under [inverse]: a draw decides whether the
    slice between the two drawn indices is reversed. *)
Lemma inverse_item_Return {E} (el : ndarray) (i : nat) (rate : Q)
    (w : world E) (b : list Q) :
  mem w !! base el = Some b -> length b = size (shp el) ->
  (i < len (shp el))%nat ->
  let n := inject_Z (Z.of_nat (len (shp el))) in
  let r1 := Z.to_nat (py_int (unit_float (py_bits w (S (py_pos w))) * n)) in
  let r2 :=
    Z.to_nat (py_int (unit_float (py_bits w (S (S (py_pos w)))) * n)) in
  mutate_item el i rate "inverse" w
  = if Qltb (unit_float (py_bits w (py_pos w))) rate
    then Return tt
           (set_mem (<[base el := reversed (shp el) b (Nat.min r1 r2)
                                    (Nat.max r1 r2)]> (mem w))
              (set_py_pos (S (S (S (py_pos w)))) w))
    else Return tt (set_py_pos (S (py_pos w)) w).
Proof.
  intros Hb Hlen Hi n r1 r2.
  assert (Hpos : (0 < len (shp el))%nat) by lia.
  assert (Hr1 : (r1 < len (shp el))%nat) by (apply draw_index_lt; exact Hpos).
  assert (Hr2 : (r2 < len (shp el))%nat) by (apply draw_index_lt; exact Hpos).
  destruct (getitem_Return el i w b Hb Hlen Hi) as (x & Hget & Hx).
  unfold mutate_item. run Hget.
  run (random_random_Return w).
  destruct (Qltb (unit_float (py_bits w (py_pos w))) rate); [|reflexivity].
  set (w1 := set_py_pos (S (py_pos w)) w).
  run (random_random_Return w1).
  set (w2 := set_py_pos (S (py_pos w1)) w1).
  run (random_random_Return w2).
  set (w3 := set_py_pos (S (py_pos w2)) w2).
  change (py_bits w1 (py_pos w1)) with (py_bits w (S (py_pos w))).
  change (py_bits w2 (py_pos w2)) with (py_bits w (S (S (py_pos w)))).
  fold n. fold r1. fold r2.
  assert (Hpick : (if (r2 <? r1)%nat then (r2, r1) else (r1, r2))
                  = (Nat.min r1 r2, Nat.max r1 r2)).
  { destruct (Nat.ltb_spec r2 r1).
    - rewrite Nat.min_r, Nat.max_l by lia. reflexivity.
    - rewrite Nat.min_l, Nat.max_r by lia. reflexivity. }
  rewrite Hpick.
  change (("inverse" =? "swap")%string) with false.
  change (("inverse" =? "scramble")%string) with false.
  change (("inverse" =? "inverse")%string) with true.
  cbv iota.
  rewrite (reverse_slice_Return el _ _ w3 b Hb Hlen) by lia.
  reflexivity.
Qed.

Lemma permuted_refl (h : heap) : permuted h h.
Proof.
  apply Forall2_same_length_lookup_2; [reflexivity|].
  intros l b b' Hb Hb'. assert (b' = b) by congruence. subst. reflexivity.
Qed.

Lemma permuted_insert (h0 h : heap) (l : loc) (b b' : list Q) :
  permuted h0 h -> h !! l = Some b -> b' ≡ₚ b -> permuted h0 (<[l := b']> h).
Proof.
  intros Hp Hb Hperm.
  destruct (Forall2_lookup_r _ _ _ _ _ Hp Hb) as (b0 & Hb0 & Hbb0).
  unfold permuted. rewrite <- (list_insert_id h0 l b0 Hb0).
  apply Forall2_insert; [exact Hp|]. rewrite Hperm. exact Hbb0.
Qed.

(** X8. Under the strategy [inverse] the scalars of a network are only
    reordered: whatever the rate and the draws, [mutationFunc_W_B] raises
    nothing, returns the agent, and every buffer of the store afterwards
    holds exactly the scalars it held before, each as many times (no weight
    is lost or duplicated, unlike under [swap]). *)
Theorem inverse_mutation_permutes {E} (agent : MLPClassifier) (rate : Q)
    (w : world E) :
  tensors_ok (mem w) agent = true ->
  exists w',
    mutationFunc_W_B agent rate "inverse" w = Return agent w'
    /\ permuted (mem w) (mem w').
Proof.
  intros Hok. unfold tensors_ok in Hok. apply andb_prop in Hok as [Hc Hi].
  assert (Hrun : hoare (E:=E) (permuted (mem w))
                   (mutationFunc_W_B agent rate "inverse")
                   (fun a => a = agent)).
  { unfold mutationFunc_W_B.
    eapply hoare_bind; [|intros _ _; apply hoare_ret; reflexivity].
    apply hoare_for. intros item _.
    apply hoare_for. intros el Hel.
    assert (Htok : tensor_ok (mem w) el = true).
    { destruct (item =? 0)%nat;
        [exact (forallb_In _ _ _ Hc Hel) | exact (forallb_In _ _ _ Hi Hel)]. }
    destruct (tensor_ok_buffer _ _ Htok) as (b0 & Hb0 & Hlen0).
    apply hoare_for. intros i Hin. apply in_seq in Hin.
    intros w1 Hw1.
    destruct (Forall2_lookup_l _ _ _ _ _ Hw1 Hb0) as (b & Hb & Hbb0).
    assert (Hlen : length b = size (shp el))
      by (rewrite (Permutation_length Hbb0); exact Hlen0).
    rewrite (inverse_item_Return el i rate w1 b Hb Hlen ltac:(lia)).
    destruct (Qltb _ rate).
    - eexists tt, _. split; [reflexivity|]. split; [|exact I].
      simpl. apply (permuted_insert _ _ _ b); [exact Hw1 | exact Hb |].
      apply reversed_Permutation. lia.
    - eexists tt, _. split; [reflexivity|]. split; [exact Hw1 | exact I]. }
  destruct (Hrun w (permuted_refl (mem w))) as (a & w' & Hr & Hp & ->).
  exists w'. auto.
Qed.

Lemma inverse_mutation_permutes_witness :
  exists w',
    mutationFunc_W_B (network_at 0) 1 "inverse"
      (eighths_world sample_buffers) = Return (network_at 0) w'
    /\ permuted sample_buffers (mem w').
Proof.
  apply (inverse_mutation_permutes (network_at 0) 1
           (eighths_world sample_buffers)).
  reflexivity.
Defined.

Lemma map_seq_lookup {A} (f : nat -> A) (n : nat) :
  forall lo k, (k < n)%nat -> map f (seq lo n) !! k = Some (f (lo + k)%nat).
Proof.
  induction n as [|n IH]; intros lo k Hk; [lia|].
  destruct k as [|k]; simpl.
  - rewrite Nat.add_0_r. reflexivity.
  - rewrite IH by lia. f_equal. f_equal. lia.
Qed.

(** The item at [lo + k] of a buffer made of [lo] items, then the rows
    [R], then the rest. *)
Lemma item_scalars_middle (s : shape) (R : list (list Q)) (back : list Q) :
  Forall (fun r => length r = rowsize s) R ->
  forall (front : list Q) (lo k : nat) (r : list Q),
    length front = (lo * rowsize s)%nat -> R !! k = Some r ->
    item_scalars s (front ++ concat R ++ back) (lo + k) = r.
Proof.
  induction 1 as [|r0 R Hr0 HR IH]; intros front lo k r Hfront Hk;
    [discriminate|].
  destruct k as [|k]; simpl in Hk.
  - injection Hk as ->. unfold item_scalars. rewrite Nat.add_0_r.
    rewrite drop_app_length' by auto. simpl concat. rewrite <- app_assoc.
    apply take_app_length'. auto.
  - simpl concat. rewrite <- app_assoc, (app_assoc front).
    replace (lo + S k)%nat with (S lo + k)%nat by lia.
    apply IH; [|exact Hk]. rewrite length_app, Hfront, Hr0. lia.
Qed.

Lemma rows_length_ok (s : shape) (b : list Q) (lo hi : nat) :
  (hi * rowsize s <= length b)%nat ->
  Forall (fun r => length r = rowsize s) (rev (rows s b lo hi)).
Proof.
  intros Hhi. apply Forall_forall. intros vs Hvs.
  apply list_elem_of_In, in_rev, in_map_iff in Hvs as (k & <- & Hk).
  apply in_seq in Hk. apply length_item_scalars. nia.
Qed.

Lemma length_concat_rows (s : shape) (b : list Q) (lo hi : nat) :
  (lo <= hi)%nat -> (hi * rowsize s <= length b)%nat ->
  length (concat (rev (rows s b lo hi))) = ((hi - lo) * rowsize s)%nat.
Proof.
  intros Hlh Hhi.
  rewrite (Permutation_length
             (concat_Permutation _ (rows s b lo hi)
                (Permutation_sym (Permutation_rev _)))).
  unfold rows. rewrite concat_rows, length_take, length_drop. nia.
Qed.

(** Item by item: inside the slice the order is reversed, outside it
    nothing moves. *)
Lemma reversed_items (s : shape) (b : list Q) (lo hi k : nat) :
  (lo <= hi)%nat -> (hi * rowsize s <= length b)%nat ->
  item_scalars s (reversed s b lo hi) k
  = item_scalars s b
      (if (lo <=? k)%nat && (k <? hi)%nat then lo + hi - 1 - k else k)%nat.
Proof.
  intros Hlh Hhi. set (rs := rowsize s).
  assert (Hfront : length (take (lo * rs) b) = (lo * rs)%nat)
    by (apply length_take_le; nia).
  destruct (Nat.leb_spec lo k) as [Hlo|Hlo]; simpl;
    [destruct (Nat.ltb_spec k hi) as [Hk|Hk]|].
  - unfold reversed. replace k with (lo + (k - lo))%nat at 1 by lia.
    apply item_scalars_middle;
      [apply rows_length_ok; exact Hhi | exact Hfront |].
    rewrite rev_alt. change (rev_append ?l []) with (reverse l).
    rewrite reverse_lookup;
      [|unfold rows; rewrite length_map, length_seq; lia].
    unfold rows. rewrite length_map, length_seq.
    rewrite map_seq_lookup by lia. f_equal. f_equal. lia.
  - unfold reversed, item_scalars. fold rs. rewrite app_assoc.
    replace (k * rs)%nat with (hi * rs + (k - hi) * rs)%nat at 1 by nia.
    rewrite drop_app_add', drop_drop.
    + f_equal. f_equal. nia.
    + rewrite length_app, Hfront. fold rs.
      rewrite (length_concat_rows s b lo hi Hlh Hhi). fold rs. nia.
  - unfold reversed, item_scalars. fold rs.
    rewrite drop_app_le by (rewrite Hfront; nia).
    rewrite take_app_le by (rewrite length_drop, Hfront; nia).
    rewrite <- (Nat.sub_add (k * rs) (lo * rs)) at 1 by nia.
    rewrite Nat.add_comm, <- take_drop_commute, take_take.
    f_equal. nia.
Qed.

(** X9. What one triggered [inverse] does, for every array, item and
    draws: between the smaller drawn index (included) and the larger one
    (excluded) the items of the first axis come out in reverse order, each
    item whole; every other item stays where it was, and no other buffer
    is written. *)
Theorem inverse_reverses_slice {E} (el : ndarray) (i : nat) (rate : Q)
    (w : world E) (b : list Q) :
  mem w !! base el = Some b -> length b = size (shp el) ->
  (i < len (shp el))%nat ->
  Qltb (unit_float (py_bits w (py_pos w))) rate = true ->
  let n := inject_Z (Z.of_nat (len (shp el))) in
  let r1 := Z.to_nat (py_int (unit_float (py_bits w (S (py_pos w))) * n)) in
  let r2 :=
    Z.to_nat (py_int (unit_float (py_bits w (S (S (py_pos w)))) * n)) in
  let lo := Nat.min r1 r2 in
  let hi := Nat.max r1 r2 in
  exists w' b',
    mutate_item el i rate "inverse" w = Return tt w'
    /\ mem w' = <[base el := b']> (mem w)
    /\ length b' = length b
    /\ forall k, (k < len (shp el))%nat ->
         item_scalars (shp el) b' k
         = item_scalars (shp el) b
             (if (lo <=? k)%nat && (k <? hi)%nat then lo + hi - 1 - k else k)%nat.
Proof.
  intros Hb Hlen Hi Hcoin n r1 r2 lo hi.
  assert (Hpos : (0 < len (shp el))%nat) by lia.
  assert (Hr1 : (r1 < len (shp el))%nat) by (apply draw_index_lt; exact Hpos).
  assert (Hr2 : (r2 < len (shp el))%nat) by (apply draw_index_lt; exact Hpos).
  pose proof (inverse_item_Return el i rate w b Hb Hlen Hi) as Hrun.
  cbv zeta in Hrun. rewrite Hcoin in Hrun.
  fold n r1 r2 lo hi in Hrun.
  assert (Hhi : (hi * rowsize (shp el) <= length b)%nat)
    by (rewrite Hlen, size_len_rowsize; unfold hi; nia).
  eexists _, (reversed (shp el) b lo hi).
  split; [exact Hrun|]. split; [reflexivity|]. split.
  - apply Permutation_length, reversed_Permutation. unfold lo, hi. lia.
  - intros k _. apply reversed_items; [unfold lo, hi; lia | exact Hhi].
Qed.

(** The 4x1 weight matrix 5, 6, 7, 8 with the draws 0.75 (below the rate),
    0.875 (index 3) and 0 (index 0): the first three rows are reversed. *)
Lemma inverse_reverses_slice_witness :
  exists w' b',
    mutate_item {| base := 1; shp := Shape2 4 1 |} 0 1 "inverse"
      (set_py_pos 6 (eighths_world sample_buffers)) = Return tt w'
    /\ mem w' = <[1%nat := b']> sample_buffers
    /\ length b' = 4%nat
    /\ forall k, (k < 4)%nat ->
         item_scalars (Shape2 4 1) b' k
         = item_scalars (Shape2 4 1) [5; 6; 7; 8]
             (if (0 <=? k)%nat && (k <? 3)%nat then 0 + 3 - 1 - k else k)%nat.
Proof.
  apply (inverse_reverses_slice {| base := 1; shp := Shape2 4 1 |} 0 1
           (set_py_pos 6 (eighths_world sample_buffers)) [5; 6; 7; 8]);
    [reflexivity | reflexivity | simpl; lia | reflexivity].
Defined.

(** ** Mutation: the strategy [scramble] *)




(** Writing one item leaves the other items as they are. *)
Lemma item_scalars_write (s : shape) (b vs : list Q) (k k' : nat) :
  length vs = rowsize s -> (S k * rowsize s <= length b)%nat ->
  item_scalars s
    (take (k * rowsize s) b ++ vs ++ drop (S k * rowsize s) b) k'
  = if (k' =? k)%nat then vs else item_scalars s b k'.
Proof.
  intros Hvs Hk. set (rs := rowsize s) in *.
  assert (Hfront : length (take (k * rs) b) = (k * rs)%nat)
    by (apply length_take_le; nia).
  unfold item_scalars. fold rs.
  destruct (Nat.eqb_spec k' k) as [->|Hne].
  - rewrite drop_app_length' by auto. apply take_app_length'. auto.
  - destruct (Nat.lt_ge_cases k' k) as [Hlt|Hge].
    + rewrite drop_app_le by (rewrite Hfront; nia).
      rewrite take_app_le by (rewrite length_drop, Hfront; nia).
      rewrite <- (Nat.sub_add (k' * rs) (k * rs)) at 1 by nia.
      rewrite Nat.add_comm, <- take_drop_commute, take_take.
      f_equal. nia.
    + rewrite app_assoc.
      replace (k' * rs)%nat with (S k * rs + (k' - S k) * rs)%nat at 1 by nia.
      rewrite drop_app_add', drop_drop.
      * f_equal. f_equal. nia.
      * rewrite length_app, Hfront, Hvs. lia.
Qed.

Lemma length_write (s : shape) (b vs : list Q) (k : nat) :
  length vs = rowsize s -> (S k * rowsize s <= length b)%nat ->
  length (take (k * rowsize s) b ++ vs ++ drop (S k * rowsize s) b)
  = length b.
Proof.
  intros Hvs Hk. rewrite !length_app, length_take, length_drop, Hvs. nia.
Qed.

Section Scramble.
Context {E : Type}.
Variables (el : ndarray) (lo : nat).


(** *** On a matrix: the rows are views *)

Section Matrix.
Variables (r c : nat).
Hypothesis matrix : shp el = Shape2 r c.



End Matrix.

(** *** On a vector: the entries are values *)

Section Vector.
Variable n : nat.
Hypothesis vector : shp el = Shape1 n.




End Vector.
End Scramble.





(** ** Blend crossover: parents that do not match, children that are new *)

Lemma bind_Raise {E A B} (m : M E A) (k : A -> M E B) (w : world E) (e : exn) :
  m w = Raise e -> bind m k w = Raise e.
Proof. intros H. unfold bind. rewrite H. reflexivity. Qed.

(** Arrays of different lengths, the second not of length 1, do not
    combine into an array as long as the second. *)
Lemma np_broadcast_mismatch {E} (f : Q -> Q -> Q) (xs ys : list Q)
    (w : world E) :
  length xs <> length ys -> length ys <> 1%nat ->
  np_broadcast f xs ys w = Raise ValueError
  \/ exists zs, np_broadcast f xs ys w = Return zs w
                /\ length zs = length ys /\ length xs = 1%nat.
Proof.
  intros Hne Hy. unfold np_broadcast.
  apply Nat.eqb_neq in Hne. rewrite Hne.
  destruct xs as [|x [|x' xs]].
  - destruct ys as [|y [|y' ys]]; [discriminate | contradiction | left; reflexivity].
  - right. exists (map (f x) ys). rewrite length_map. auto.
  - destruct ys as [|y [|y' ys]]; [left; reflexivity | contradiction | left; reflexivity].
Qed.

Lemma np_broadcast_one {E} (f : Q -> Q -> Q) (x : Q) (ys : list Q)
    (w : world E) :
  exists zs, np_broadcast f [x] ys w = Return zs w /\ length zs = length ys.
Proof.
  unfold np_broadcast. destruct (Nat.eqb_spec (length [x]) (length ys)) as [He|He].
  - exists (zip_with f [x] ys). split; [reflexivity|].
    rewrite length_zip_with, <- He. apply Nat.min_id.
  - exists (map (f x) ys). split; [reflexivity | apply length_map].
Qed.

Lemma de_blend_mismatch {E} (attr : MLPClassifier -> list ndarray)
    (nn1 nn2 : MLPClassifier) (i : nat) (w : world E) (t1 t2 : ndarray) :
  attr nn1 !! i = Some t1 -> attr nn2 !! i = Some t2 ->
  tensor_ok (mem w) t1 = true -> tensor_ok (mem w) t2 = true ->
  size (shp t1) <> size (shp t2) -> size (shp t2) <> 1%nat ->
  de_blend attr nn1 nn2 i w = Raise ValueError.
Proof.
  intros H1 H2 Hok1 Hok2 Hne Hone.
  destruct (tensor_ok_buffer _ _ Hok1) as (x1 & Hx1 & Hl1).
  destruct (tensor_ok_buffer _ _ Hok2) as (x2 & Hx2 & Hl2).
  destruct (np_random_uniform_n_Return (size (shp t1)) w)
    as (w1 & Hus & Hm1 & _).
  set (us := map (fun k => unit_float (np_bits w (np_pos w + k)))
               (seq 0 (size (shp t1)))) in *.
  assert (Hlus : length us = size (shp t1))
    by (unfold us; rewrite length_map, length_seq; reflexivity).
  unfold de_blend.
  run (py_index_Return _ _ _ w H1). run (py_index_Return _ _ _ w H2).
  run (read_array_Return (np_ravel t1) w x1 Hx1 Hl1).
  simpl len. run Hus.
  assert (Hx2' : mem w1 !! base (np_ravel t2) = Some x2)
    by (rewrite Hm1; exact Hx2).
  run (read_array_Return (np_ravel t2) w1 x2 Hx2' Hl2).
  clearbody us.
  destruct (Nat.eq_dec (length x1) 1%nat) as [Hx1one|Hx1many].
  - (* the first parent's layer holds one scalar *)
    destruct x1 as [|a [|a' x1]]; try discriminate Hx1one.
    destruct us as [|u [|u' us]]; try (simpl in *; lia).
    assert (Hd : exists d, np_broadcast Qminus x2 [a] w1 = Return d w1
                           /\ length d = length x2).
    { unfold np_broadcast.
      destruct (Nat.eqb_spec (length x2) (length [a])); [simpl in *; lia|].
      destruct x2 as [|b [|b' x2]];
        [exists []; split; reflexivity | simpl in *; lia |].
      exists (map (fun x => x - a) (b :: b' :: x2)).
      split; [reflexivity | apply length_map]. }
    destruct Hd as (d & Hd & Hld). run Hd.
    destruct (np_broadcast_one Qmult u d w1) as (p & Hp & Hlp). run Hp.
    destruct (np_broadcast_one Qplus a p w1) as (s & Hs & Hls). run Hs.
    unfold alloc, bind, get_mem, put_mem, ret, reshape. simpl.
    destruct (Nat.eqb_spec (size (shp t1)) (length s)); [|reflexivity].
    simpl in *. lia.
  - destruct (np_broadcast_mismatch Qminus x2 x1 w1
                ltac:(simpl in *; lia) Hx1many)
      as [Hd | (d & _ & _ & Hx2one)].
    + apply bind_Raise. exact Hd.
    + simpl in *. lia.
Qed.

(** X12. [de_crossover] on parents whose first weight layers differ in
    their number of scalars raises [ValueError], as numpy does when the
    operands cannot be broadcast or the result cannot take the first
    parent's shape; the one exception, left aside here, is a second parent
    whose layer holds a single scalar, which numpy broadcasts without a
    word. *)
Theorem de_crossover_size_mismatch {E} (nn1 nn2 : MLPClassifier)
    (w : world E) (t1 t2 : ndarray) :
  coefs_ nn1 !! 0%nat = Some t1 -> coefs_ nn2 !! 0%nat = Some t2 ->
  tensor_ok (mem w) t1 = true -> tensor_ok (mem w) t2 = true ->
  size (shp t1) <> size (shp t2) -> size (shp t2) <> 1%nat ->
  de_crossover nn1 nn2 w = Raise ValueError.
Proof.
  intros H1 H2 Hok1 Hok2 Hne Hone.
  unfold de_crossover. cbn [for_fold range seq].
  do 2 apply bind_Raise.
  apply (de_blend_mismatch coefs_ nn1 nn2 0 w t1 t2); assumption.
Qed.

(** A first parent with a 1x4 weight matrix against a second parent whose
    first weight matrix is 4x2. *)
Lemma de_crossover_size_mismatch_witness :
  de_crossover (network_at 0)
    {| coefs_ := [ {| base := 4; shp := Shape2 4 2 |} ]; intercepts_ := [] |}
    (tape_world (sample_buffers ++ [[1; 2; 3; 4; 5; 6; 7; 8]]) 0 0 0)
  = Raise ValueError.
Proof.
  apply (de_crossover_size_mismatch (network_at 0)
           {| coefs_ := [ {| base := 4; shp := Shape2 4 2 |} ];
              intercepts_ := [] |}
           (tape_world (sample_buffers ++ [[1; 2; 3; 4; 5; 6; 7; 8]]) 0 0 0)
           {| base := 0; shp := Shape2 1 4 |}
           {| base := 4; shp := Shape2 4 2 |});
    [reflexivity | reflexivity | reflexivity | reflexivity
    | simpl; lia | simpl; lia].
Defined.

(** X13. On parents of one topology [de_crossover] builds its four tensors
    in four new buffers, appended to the store in the order weights 0,
    biases 0, weights 1, biases 1: no tensor returned shares its buffer
    with a parent or with another tensor returned, and the store the
    parents live in is left as it was. *)
Theorem de_crossover_children_are_new {E} (nn1 nn2 : MLPClassifier)
    (w : world E) :
  parents_ok (mem w) nn1 nn2 = true ->
  exists c0 c1 b0 b1 w' new,
    de_crossover nn1 nn2 w = Return ([c0; c1], [b0; b1]) w'
    /\ mem w' = mem w ++ new
    /\ map base [c0; b0; c1; b1] = seq (length (mem w)) 4
    /\ Forall2 (fun c y => length y = size (shp c)) [c0; b0; c1; b1] new.
Proof.
  intros Hok. unfold parents_ok in Hok.
  apply andb_prop in Hok as [Hok Hb1]. apply andb_prop in Hok as [Hok Hc1].
  apply andb_prop in Hok as [Hc0 Hb0].
  set (h := mem w) in *.
  destruct (de_blend_layer h coefs_ nn1 nn2 0 w [] Hc0)
    as (w1 & tc0 & tc0' & xc0 & xc0' & y0 & Hr0 & Hm0 & _
        & Hc0a & _ & Hc0x & _ & Hbl0);
    [symmetry; apply app_nil_r|].
  destruct (de_blend_layer h intercepts_ nn1 nn2 0 w1 [y0] Hb0 Hm0)
    as (w2 & tb0 & tb0' & xb0 & xb0' & y1 & Hr1 & Hm1 & _
        & Hb0a & _ & Hb0x & _ & Hbl1).
  destruct (de_blend_layer h coefs_ nn1 nn2 1 w2 [y0; y1] Hc1 Hm1)
    as (w3 & tc1 & tc1' & xc1 & xc1' & y2 & Hr2 & Hm2 & _
        & Hc1a & _ & Hc1x & _ & Hbl2).
  destruct (de_blend_layer h intercepts_ nn1 nn2 1 w3 [y0; y1; y2] Hb1 Hm2)
    as (w4 & tb1 & tb1' & xb1 & xb1' & y3 & Hr3 & Hm3 & _
        & Hb1a & _ & Hb1x & _ & Hbl3).
  simpl app in *.
  destruct (layer_ok_inv _ _ _ _ _ Hc0)
    as (t & _ & x & _ & Ht & _ & Hx & _ & Hlc0 & _).
  assert (t = tc0) by congruence. subst t.
  assert (x = xc0) by congruence. subst x. clear Ht Hx.
  destruct (layer_ok_inv _ _ _ _ _ Hb0)
    as (t & _ & x & _ & Ht & _ & Hx & _ & Hlb0 & _).
  assert (t = tb0) by congruence. subst t.
  assert (x = xb0) by congruence. subst x. clear Ht Hx.
  destruct (layer_ok_inv _ _ _ _ _ Hc1)
    as (t & _ & x & _ & Ht & _ & Hx & _ & Hlc1 & _).
  assert (t = tc1) by congruence. subst t.
  assert (x = xc1) by congruence. subst x. clear Ht Hx.
  destruct (layer_ok_inv _ _ _ _ _ Hb1)
    as (t & _ & x & _ & Ht & _ & Hx & _ & Hlb1 & _).
  assert (t = tb1) by congruence. subst t.
  assert (x = xb1) by congruence. subst x. clear Ht Hx.
  eexists _, _, _, _, w4, [y0; y1; y2; y3].
  split; [|split; [exact Hm3|split]].
  - unfold de_crossover. cbn [for_fold range seq].
    run Hr0. run Hr1. run Hr2. run Hr3. reflexivity.
  - simpl. rewrite Hm0, Hm1, Hm2, !length_app. simpl.
    unfold h. repeat f_equal; lia.
  - destruct Hbl0 as [Hl0 _]. destruct Hbl1 as [Hl1 _].
    destruct Hbl2 as [Hl2 _]. destruct Hbl3 as [Hl3 _].
    repeat constructor; simpl; congruence.
Qed.

(** The sample network crossed with a network of zeros. *)
Lemma de_crossover_children_are_new_witness :
  exists c0 c1 b0 b1 w' new,
    de_crossover (network_at 0) (network_at 4)
      (tape_world four_networks' 0 half_draw 0)
    = Return ([c0; c1], [b0; b1]) w'
    /\ mem w' = four_networks' ++ new
    /\ map base [c0; b0; c1; b1] = seq (length four_networks') 4
    /\ Forall2 (fun c y => length y = size (shp c)) [c0; b0; c1; b1] new.
Proof.
  apply (de_crossover_children_are_new (network_at 0) (network_at 4)
           (tape_world four_networks' 0 half_draw 0)).
  reflexivity.
Defined.

(** ** Classic crossover: the donors *)

Lemma de_classic_tensor_donors {E} (attr : MLPClassifier -> list ndarray)
    (agent : MLPClassifier) (randomAgents : list MLPClassifier) (i : nat) :
  de_classic_tensor (E:=E) attr agent randomAgents i
  = de_classic_tensor attr agent (take 3 randomAgents) i.
Proof.
  unfold de_classic_tensor, py_index.
  rewrite !lookup_take_lt by lia. reflexivity.
Qed.

(** X14. [de_crossover_classic] works with the first three donors of
    [randomAgents] and with nothing else of the list: with fewer than three
    it raises [IndexError], whatever the target and the store, and the
    donors after the third have no part in the outcome. *)
Theorem classic_uses_three_donors {E} (agent : MLPClassifier)
    (randomAgents : list MLPClassifier) (w : world E) :
  ((length randomAgents < 3)%nat ->
   de_crossover_classic agent randomAgents w = Raise IndexError)
  /\ de_crossover_classic agent randomAgents w
     = de_crossover_classic agent (take 3 randomAgents) w.
Proof.
  split.
  - intros Hlen. unfold de_crossover_classic. cbn [for_fold range seq].
    do 2 apply bind_Raise.
    unfold de_classic_tensor, py_index, np_random_integers, np_next, bind,
      ret, raise.
    destruct (coefs_ agent !! 0%nat); [|reflexivity].
    destruct randomAgents as [|a1 [|a2 [|a3 rest]]]; simpl in Hlen; try lia;
      simpl;
      repeat match goal with
        | |- context [match ?l !! ?k with _ => _ end] => destruct (l !! k)
        end; reflexivity.
  - unfold de_crossover_classic. cbn [for_fold range seq].
    rewrite !(de_classic_tensor_donors _ agent randomAgents). reflexivity.
Qed.

Lemma classic_uses_three_donors_witness :
  de_crossover_classic (network_at 0) [network_at 4; network_at 8]
    (tape_world four_networks' 0 0 0)
  = Raise IndexError.
Proof.
  apply (proj1 (classic_uses_three_donors (network_at 0)
                  [network_at 4; network_at 8]
                  (tape_world four_networks' 0 0 0))).
  simpl. lia.
Defined.

(** X15. On a target and three donors of one topology, kept in buffers of
    their own, [de_crossover_classic] allocates nothing and writes into the
    target's four buffers only: every other buffer of the store, the
    donors' among them, is as it was; and it takes from numpy's generator
    one draw for each of the four indices [R] and one for each scalar of
    the target. *)
Theorem classic_crossover_frame {E} (agent : MLPClassifier)
    (randomAgents : list MLPClassifier) (w : world E) :
  classic_ok (mem w) agent randomAgents = true ->
  exists w',
    de_crossover_classic agent randomAgents w
    = Return (take 2 (coefs_ agent), take 2 (intercepts_ agent)) w'
    /\ length (mem w') = length (mem w)
    /\ untouched (map base (targets agent)) (mem w) (mem w')
    /\ np_pos w'
       = (np_pos w + 4
          + list_sum (map (fun t => size (shp t)) (targets agent)))%nat.
Proof.
  intros Hok. unfold classic_ok in Hok.
  destruct (classic_quad coefs_ agent randomAgents 0)
    as [[[[t0 a0] b0] c0]|] eqn:Hq0; [|discriminate].
  destruct (classic_quad intercepts_ agent randomAgents 0)
    as [[[[t1 a1] b1] c1]|] eqn:Hq1; [|discriminate].
  destruct (classic_quad coefs_ agent randomAgents 1)
    as [[[[t2 a2] b2] c2]|] eqn:Hq2; [|discriminate].
  destruct (classic_quad intercepts_ agent randomAgents 1)
    as [[[[t3 a3] b3] c3]|] eqn:Hq3; [|discriminate].
  repeat match goal with
    | H : (_ && _) = true |- _ => apply andb_prop in H; destruct H
    end.
  repeat match goal with
    | H : apart _ _ = true |- _ =>
        apply apart_inv in H; destruct H as (? & ? & ? & ?)
    end.
  repeat match goal with
    | H : quad_ok _ _ = true |- _ => apply quad_ok_inv in H
    end.
  match goal with
  | H : exists _, _ |- _ =>
      destruct H as (x3 & u3 & v3 & z3 & (? & ? & ? & ?) & (? & ? & ? & ?)
                     & (? & ? & ?) & (? & ? & ?))
  end.
  match goal with
  | H : exists _, _ |- _ =>
      destruct H as (x2 & u2 & v2 & z2 & (? & ? & ? & ?) & (? & ? & ? & ?)
                     & (? & ? & ?) & (? & ? & ?))
  end.
  match goal with
  | H : exists _, _ |- _ =>
      destruct H as (x1 & u1 & v1 & z1 & (? & ? & ? & ?) & (? & ? & ? & ?)
                     & (? & ? & ?) & (? & ? & ?))
  end.
  match goal with
  | H : exists _, _ |- _ =>
      destruct H as (x0 & u0 & v0 & z0 & (? & ? & ? & ?) & (? & ? & ? & ?)
                     & (? & ? & ?) & (? & ? & ?))
  end.
  destruct (de_classic_tensor_Return coefs_ agent randomAgents 0 w
              t0 a0 b0 c0 x0 u0 v0 z0 Hq0)
    as (w1 & y0 & Hr0 & Hm0 & Hb0 & Hp0 & Hc0); try assumption.
  destruct (de_classic_tensor_Return intercepts_ agent randomAgents 0 w1
              t1 a1 b1 c1 x1 u1 v1 z1 Hq1)
    as (w2 & y1 & Hr1 & Hm1 & Hb1 & Hp1 & Hc1);
    try assumption; try lookup_frame.
  destruct (de_classic_tensor_Return coefs_ agent randomAgents 1 w2
              t2 a2 b2 c2 x2 u2 v2 z2 Hq2)
    as (w3 & y2 & Hr2 & Hm2 & Hb2 & Hp2 & Hc2);
    try assumption; try lookup_frame.
  destruct (de_classic_tensor_Return intercepts_ agent randomAgents 1 w3
              t3 a3 b3 c3 x3 u3 v3 z3 Hq3)
    as (w4 & y3 & Hr3 & Hm3 & Hb3 & Hp3 & Hc3);
    try assumption; try lookup_frame.
  destruct (classic_quad_inv _ _ _ _ _ _ _ _ Hq0) as (_ & _ & _ & Hc_0 & _).
  destruct (classic_quad_inv _ _ _ _ _ _ _ _ Hq1) as (_ & _ & _ & Hi_0 & _).
  destruct (classic_quad_inv _ _ _ _ _ _ _ _ Hq2) as (_ & _ & _ & Hc_1 & _).
  destruct (classic_quad_inv _ _ _ _ _ _ _ _ Hq3) as (_ & _ & _ & Hi_1 & _).
  assert (Htargets : targets agent = [t0; t2; t1; t3]).
  { unfold targets.
    rewrite (take_2_lookup _ _ _ Hc_0 Hc_1), (take_2_lookup _ _ _ Hi_0 Hi_1).
    reflexivity. }
  exists w4. split; [|split; [|split]].
  - unfold de_crossover_classic. cbn [for_fold range seq].
    run Hr0. run Hr1. run Hr2. run Hr3.
    rewrite (take_2_lookup _ _ _ Hc_0 Hc_1), (take_2_lookup _ _ _ Hi_0 Hi_1).
    reflexivity.
  - rewrite Hm3, Hm2, Hm1, Hm0, !length_insert. reflexivity.
  - intros l Hl. rewrite Htargets in Hl. simpl in Hl.
    rewrite Hm3, Hm2, Hm1, Hm0.
    rewrite !list_lookup_insert_ne; [reflexivity| | | |];
      intros <-; apply Hl; apply list_elem_of_In; simpl; tauto.
  - rewrite Hp3, Hp2, Hp1, Hp0, Htargets. simpl. lia.
Qed.

(** The sample target and the three constant donors. *)
Lemma classic_crossover_frame_witness :
  exists w',
    de_crossover_classic (network_at 0) donors
      (tape_world four_networks' 0 half_draw 0)
    = Return (take 2 (coefs_ (network_at 0)),
              take 2 (intercepts_ (network_at 0))) w'
    /\ length (mem w') = length four_networks'
    /\ untouched (map base (targets (network_at 0))) four_networks' (mem w')
    /\ np_pos w'
       = (0 + 4
          + list_sum (map (fun t => size (shp t)) (targets (network_at 0))))%nat.
Proof.
  apply (classic_crossover_frame (network_at 0) donors
           (tape_world four_networks' 0 half_draw 0)).
  reflexivity.
Defined.

(** ** Population initialisation: a constructor that fails *)

Lemma initialise_loop_failure {E Obs Frame} (lib : Lib E Obs Frame)
    (env : Env E Obs Frame) (e : exn) (w : world E)
    (population : list MLPClassifier) (w1 : world E) :
  created lib env w population w1 ->
  create_new_network lib env w1 = Raise e ->
  forall (n start : nat) (acc : list MLPClassifier),
    (length population < n)%nat ->
    for_fold (seq start n)
      (fun population (_ : nat) =>
         a <- create_new_network lib env ;; ret (population ++ [a]))
      acc w
    = Raise e.
Proof.
  induction 1 as [w|w a w1 population w2 Ha _ IH]; intros Hfail n start acc Hn;
    (destruct n as [|n]; [simpl in Hn; lia|]); cbn [seq for_fold].
  - do 2 apply bind_Raise. exact Hfail.
  - run Ha. apply IH; [exact Hfail | simpl in Hn; lia].
Qed.

(** X16. [initialise_population] has no handler of its own: when the
    network constructor raises at one of its [size] calls, the calls before
    it having returned, [initialise_population] raises the same exception
    and returns no population, not even the networks already built. *)
Theorem initialise_population_failure {E Obs Frame} (lib : Lib E Obs Frame)
    (size : Z) (env : Env E Obs Frame) (w : world E)
    (population : list MLPClassifier) (w1 : world E) (e : exn) :
  created lib env w population w1 ->
  (length population < Z.to_nat size)%nat ->
  create_new_network lib env w1 = Raise e ->
  initialise_population lib size env w = Raise e.
Proof.
  intros Hc Hlen Hfail. unfold initialise_population, range.
  apply (initialise_loop_failure lib env e w population w1 Hc Hfail).
  exact Hlen.
Qed.

(** Five networks asked of a constructor that fails at its third call. *)
Lemma initialise_population_failure_witness :
  initialise_population scarce_lib 5 (countdown_env 5) stub_world
  = Raise (Foreign "MemoryError").
Proof.
  apply (initialise_population_failure scarce_lib 5 (countdown_env 5)
           stub_world [network_at 0; network_at 4]
           {| mem := constant_buffers 0 ++ constant_buffers 0;
              py_bits := fun _ => 0%Z; py_pos := 0;
              np_bits := fun _ => 0%Z; np_gauss := fun _ => 0; np_pos := 0;
              ext := 2%nat |}).
  - eapply created_cons; [reflexivity|].
    eapply created_cons; [reflexivity|].
    apply created_nil.
  - simpl. lia.
  - reflexivity.
Defined.

(** ** Simulation: an environment that never ends the episode *)

Lemma bind_Timeout {E A B} (m : M E A) (k : A -> M E B) (w : world E) :
  m w = Timeout -> bind m k w = Timeout.
Proof. intros H. unfold bind. rewrite H. reflexivity. Qed.

Section Endless.
Context {E Obs Frame : Type}.
Variables (lib : Lib E Obs Frame) (agent : MLPClassifier)
  (env : Env E Obs Frame) (render savetofile : bool).
Hypothesis predict_returns :
  forall obs w, exists action w', predict lib agent obs w = Return action w'.
Hypothesis step_goes_on :
  forall action w, exists obs reward w',
    env_step env action w = Return (obs, reward, false) w'.
Hypothesis render_returns :
  forall mode w, exists f w', env_render env mode w = Return f w'.

Lemma record_and_render_returns (fs : list Frame) (w : world E) :
  exists fs' w', record_and_render env render savetofile fs w = Return fs' w'.
Proof.
  unfold record_and_render.
  destruct savetofile.
  - destruct (render_returns (Some "rgb_array"%string) w) as (f & w1 & Hf).
    run Hf. destruct render.
    + destruct (render_returns None w1) as (f' & w2 & Hf'). run Hf'. eauto.
    + eauto.
  - rewrite bind_ret_l. destruct render.
    + destruct (render_returns None w) as (f' & w2 & Hf'). run Hf'. eauto.
    + eauto.
Qed.

Lemma interact_goes_on (s : locals Obs Frame) (w : world E) :
  exists s' w',
    interact lib agent env render savetofile s w = Return s' w'
    /\ done s' = false.
Proof.
  destruct (predict_returns (observation s) w) as (action & w1 & Hp).
  destruct (step_goes_on action w1) as (obs' & reward & w2 & Hs).
  destruct (record_and_render_returns (frames s) w2) as (fs' & w3 & Hf).
  eexists _, w3. split.
  - apply (interact_Return lib agent env render savetofile s w action w1
             obs' reward false w2 fs' w3 Hp Hs Hf).
  - reflexivity.
Qed.

Lemma while_never_done (fuel : nat) :
  forall (s : locals Obs Frame) (w : world E),
    done s = false ->
    while_not_done fuel (interact lib agent env render savetofile) s w
    = Timeout.
Proof.
  induction fuel as [|fuel IH]; intros s w Hs; simpl; rewrite Hs;
    [reflexivity|].
  destruct (interact_goes_on s w) as (s' & w' & Hr & Hd).
  run Hr. apply IH. exact Hd.
Qed.

End Endless.

(** X17. [simulate_agent] has no step limit of its own: against an
    environment whose steps never return [done] (the agent, the steps and
    the rendering all returning), the loop is still running after any
    number of iterations, whatever the flags; no score is returned. *)
Theorem simulate_agent_needs_done {E Obs Frame} (lib : Lib E Obs Frame)
    (fuel : nat) (agent : MLPClassifier) (env : Env E Obs Frame)
    (render savetofile : bool) (filename : option string) (w : world E) :
  (forall obs w0, exists action w1,
      predict lib agent obs w0 = Return action w1) ->
  (forall action w0, exists obs reward w1,
      env_step env action w0 = Return (obs, reward, false) w1) ->
  (forall mode w0, exists f w1, env_render env mode w0 = Return f w1) ->
  (exists obs w0, env_reset env w = Return obs w0) ->
  simulate_agent lib fuel agent env render savetofile filename w = Timeout.
Proof.
  intros Hp Hs Hr (obs & w0 & Hreset). unfold simulate_agent.
  run Hreset. apply bind_Timeout.
  apply (while_never_done lib agent env render savetofile Hp Hs Hr).
  reflexivity.
Qed.

Lemma simulate_agent_needs_done_witness :
  simulate_agent stub_lib 1000 (network_at 0) endless_env false true None
    stub_world
  = Timeout.
Proof.
  apply (simulate_agent_needs_done stub_lib 1000 (network_at 0) endless_env
           false true None stub_world).
  - intros obs w0. eexists _, _. reflexivity.
  - intros action w0. eexists _, _, _. reflexivity.
  - intros mode w0. eexists _, _. reflexivity.
  - eexists _, _. reflexivity.
Defined.

(** ** Mutation: the strategy [swap], item by item *)

(** X19. What one triggered [swap] leaves behind, for every array, item
    and draws: the item at the smaller of the two drawn indices holds the
    scalars of the item the loop is at, and every other item, the one the
    loop is at included, holds what it held; the former content of the
    overwritten item is in the array no more, unless another item held the
    same scalars. *)
Theorem swap_duplicates_item {E} (el : ndarray) (i : nat) (rate : Q)
    (w : world E) (b : list Q) :
  mem w !! base el = Some b -> length b = size (shp el) ->
  (i < len (shp el))%nat ->
  Qltb (unit_float (py_bits w (py_pos w))) rate = true ->
  let n := inject_Z (Z.of_nat (len (shp el))) in
  let r1 := Z.to_nat (py_int (unit_float (py_bits w (S (py_pos w))) * n)) in
  let r2 :=
    Z.to_nat (py_int (unit_float (py_bits w (S (S (py_pos w)))) * n)) in
  let random1 := Nat.min r1 r2 in
  exists w' b',
    mutate_item el i rate "swap" w = Return tt w'
    /\ mem w' = <[base el := b']> (mem w)
    /\ length b' = length b
    /\ forall k,
         item_scalars (shp el) b' k
         = item_scalars (shp el) b (if (k =? random1)%nat then i else k).
Proof.
  intros Hb Hlen Hi Hcoin n r1 r2 random1.
  assert (Hpos : (0 < len (shp el))%nat) by lia.
  assert (Hr1 : (r1 < len (shp el))%nat) by (apply draw_index_lt; exact Hpos).
  assert (Hr2 : (r2 < len (shp el))%nat) by (apply draw_index_lt; exact Hpos).
  assert (Hsize : length b = (len (shp el) * rowsize (shp el))%nat)
    by (rewrite Hlen; apply size_len_rowsize).
  assert (Hrow : length (item_scalars (shp el) b i) = rowsize (shp el))
    by (apply length_item_scalars; nia).
  assert (Hin : (S random1 * rowsize (shp el) <= length b)%nat)
    by (unfold random1; nia).
  eexists _, _. split; [|split; [|split]].
  - apply (swap_copies_item el i rate w b Hb Hlen Hi Hcoin).
  - reflexivity.
  - fold n r1 r2 random1. apply length_write; assumption.
  - intros k. fold n r1 r2 random1.
    rewrite item_scalars_write by assumption.
    destruct (k =? random1)%nat; reflexivity.
Qed.

(** The 4x1 weight matrix 5, 6, 7, 8, the loop at row 3, the draws 0.75,
    0.875 (index 3) and 0 (index 0): row 0 becomes a copy of row 3. *)
Lemma swap_duplicates_item_witness :
  exists w' b',
    mutate_item {| base := 1; shp := Shape2 4 1 |} 3 1 "swap"
      (set_py_pos 6 (eighths_world sample_buffers)) = Return tt w'
    /\ mem w' = <[1%nat := b']> sample_buffers
    /\ length b' = 4%nat
    /\ forall k,
         item_scalars (Shape2 4 1) b' k
         = item_scalars (Shape2 4 1) [5; 6; 7; 8]
             (if (k =? 0)%nat then 3 else k)%nat.
Proof.
  apply (swap_duplicates_item {| base := 1; shp := Shape2 4 1 |} 3 1
           (set_py_pos 6 (eighths_world sample_buffers)) [5; 6; 7; 8]);
    [reflexivity | reflexivity | simpl; lia | reflexivity].
Defined.

(** ** Simulation: the frames and the animation *)

Lemma record_and_render_frames {E Obs Frame} (env : Env E Obs Frame)
    (render savetofile : bool) (fs fs' : list Frame) (w w' : world E) :
  record_and_render env render savetofile fs w = Return fs' w' ->
  if savetofile then exists f, fs' = fs ++ [f] else fs' = fs.
Proof.
  unfold record_and_render. intros H.
  apply bind_Return_inv in H as (fs1 & w1 & H1 & H).
  apply bind_Return_inv in H as (u & w2 & _ & H).
  injection H as <- _.
  destruct savetofile.
  - apply bind_Return_inv in H1 as (f & w0 & _ & H1).
    injection H1 as <- _. eauto.
  - injection H1 as <- _. reflexivity.
Qed.

(** What a rollout appends to the list of frames. *)
Lemma episode_appends {E Obs Frame} (lib : Lib E Obs Frame)
    (agent : MLPClassifier) (env : Env E Obs Frame) (render savetofile : bool)
    (obs : Obs) (fs : list Frame) (w : world E) (rewards : list Q)
    (fs' : list Frame) (w' : world E) :
  episode lib agent env render savetofile obs fs w rewards fs' w' ->
  exists more,
    fs' = fs ++ more
    /\ length more = (if savetofile then length rewards else 0%nat)
    /\ (0 < length rewards)%nat.
Proof.
  induction 1 as [obs fs w action w1 obs' reward w2 fs' w3 Hp Hs Hf
                 |obs fs w action w1 obs' reward w2 fs' w3 rewards fs'' w4
                    Hp Hs Hf Hep IH];
    apply record_and_render_frames in Hf.
  - destruct savetofile.
    + destruct Hf as [f ->]. exists [f]. simpl. auto with arith.
    + subst fs'. exists []. rewrite app_nil_r. simpl. auto with arith.
  - destruct IH as (more & -> & Hlen & _). destruct savetofile.
    + destruct Hf as [f ->]. exists (f :: more).
      rewrite <- app_assoc. simpl. rewrite Hlen. auto with arith.
    + subst fs'. exists more. simpl. auto with arith.
Qed.

Lemma record_and_render_filmed {E Obs Frame} (env : Env E Obs Frame)
    (render : bool) (fs : list Frame) (f : Frame) (w w1 w2 : world E) :
  env_render env (Some "rgb_array"%string) w = Return f w1 ->
  shown env render w1 w2 ->
  record_and_render env render true fs w = Return (fs ++ [f]) w2.
Proof.
  intros Hf Hshow. unfold record_and_render. run Hf.
  unfold shown in Hshow. destruct render.
  - destruct Hshow as [f' Hf']. run Hf'. reflexivity.
  - subst w2. reflexivity.
Qed.

Lemma record_and_render_filmed_inv {E Obs Frame} (env : Env E Obs Frame)
    (render : bool) (fs fs' : list Frame) (w w2 : world E) :
  record_and_render env render true fs w = Return fs' w2 ->
  exists f w1,
    env_render env (Some "rgb_array"%string) w = Return f w1
    /\ shown env render w1 w2 /\ fs' = fs ++ [f].
Proof.
  unfold record_and_render. intros H.
  apply bind_Return_inv in H as (fs1 & w1 & H1 & H).
  apply bind_Return_inv in H1 as (f & w0 & Hf & H1).
  injection H1 as <- <-.
  apply bind_Return_inv in H as (u & w3 & Hshow & H).
  injection H as <- <-.
  exists f, w0. split; [exact Hf|]. split; [|reflexivity].
  unfold shown. destruct render.
  - apply bind_Return_inv in Hshow as (f' & w4 & Hf' & Hret).
    injection Hret as _ <-. eauto.
  - injection Hshow as _ <-. reflexivity.
Qed.

Lemma filmed_episode {E Obs Frame} (lib : Lib E Obs Frame)
    (agent : MLPClassifier) (env : Env E Obs Frame) (render : bool)
    (obs : Obs) (w : world E) (steps : list (Q * Frame)) (w' : world E) :
  filmed lib agent env render obs w steps w' ->
  forall fs,
    episode lib agent env render true obs fs w (map fst steps)
      (fs ++ map snd steps) w'.
Proof.
  induction 1 as [obs w action w1 obs' reward w2 f w3 w4 Hp Hs Hf Hshow
                 |obs w action w1 obs' reward w2 f w3 w4 steps w5
                    Hp Hs Hf Hshow _ IH];
    intros fs; simpl.
  - eapply episode_last; [exact Hp | exact Hs |].
    apply (record_and_render_filmed env render fs f w2 w3 w4 Hf Hshow).
  - eapply episode_more; [exact Hp | exact Hs | |].
    + apply (record_and_render_filmed env render fs f w2 w3 w4 Hf Hshow).
    + specialize (IH (fs ++ [f])). rewrite <- app_assoc in IH. exact IH.
Qed.

Lemma episode_filmed {E Obs Frame} (lib : Lib E Obs Frame)
    (agent : MLPClassifier) (env : Env E Obs Frame) (render : bool)
    (obs : Obs) (fs : list Frame) (w : world E) (rewards : list Q)
    (fs' : list Frame) (w' : world E) :
  episode lib agent env render true obs fs w rewards fs' w' ->
  exists steps,
    filmed lib agent env render obs w steps w'
    /\ rewards = map fst steps /\ fs' = fs ++ map snd steps.
Proof.
  remember true as savetofile eqn:Hsave.
  induction 1 as [obs fs w action w1 obs' reward w2 fs' w3 Hp Hs Hf
                 |obs fs w action w1 obs' reward w2 fs' w3 rewards fs'' w4
                    Hp Hs Hf Hep IH];
    subst savetofile;
    apply record_and_render_filmed_inv in Hf as (f & wr & Hf & Hshow & ->).
  - exists [(reward, f)]. split; [|split; reflexivity].
    eapply filmed_last; eassumption.
  - destruct IH as (steps & Hfilm & -> & ->).
    exists ((reward, f) :: steps). split; [|split].
    + eapply filmed_more; eassumption.
    + reflexivity.
    + simpl. rewrite <- app_assoc. reflexivity.
Qed.

(** X20. With [savetofile] set, [simulate_agent] films every step: after
    each [env.step] it calls [env.render(mode="rgb_array")] and appends the
    frame returned, and when the loop has ended it hands
    [save_frames_as_gif] exactly these frames, one per step and in the
    order of the steps, with the path ['./gifs/'] and the file name it was
    given.  When the rollout from [env.reset()] ends within the iterations
    allowed and the saving returns, the score of the rollout is returned;
    and whatever [simulate_agent] returns comes from such a filmed
    rollout. *)
Theorem simulate_agent_films_every_step {E Obs Frame}
    (lib : Lib E Obs Frame) (fuel : nat) (agent : MLPClassifier)
    (env : Env E Obs Frame) (render : bool) (filename : option string)
    (w : world E) :
  (forall obs w0 steps w1 w2,
     env_reset env w = Return obs w0 ->
     filmed lib agent env render obs w0 steps w1 ->
     save_frames_as_gif lib (map snd steps) "./gifs/"%string filename w1
     = Return tt w2 ->
     (length steps <= fuel)%nat ->
     simulate_agent lib fuel agent env render true filename w
     = Return (total (map fst steps)) w2)
  /\ (forall v w2,
        simulate_agent lib fuel agent env render true filename w
        = Return v w2 ->
        exists obs w0 steps w1,
          env_reset env w = Return obs w0
          /\ filmed lib agent env render obs w0 steps w1
          /\ save_frames_as_gif lib (map snd steps) "./gifs/"%string
               filename w1 = Return tt w2
          /\ v = total (map fst steps)).
Proof.
  split.
  - intros obs w0 steps w1 w2 Hreset Hfilm Hsave Hfuel.
    pose proof (filmed_episode lib agent env render obs w0 steps w1 Hfilm [])
      as Hep.
    destruct (while_follows_episode lib agent env render true
                obs [] w0 (map fst steps) (map snd steps) w1 Hep 0 fuel
                ltac:(rewrite length_map; exact Hfuel)) as [obs' Hloop].
    unfold simulate_agent. run Hreset. run Hloop.
    cbn [frames score]. run Hsave. reflexivity.
  - intros v w2 Hrun. unfold simulate_agent in Hrun.
    apply bind_Return_inv in Hrun as (obs & w0 & Hreset & Hrun).
    apply bind_Return_inv in Hrun as (s & w1 & Hloop & Hrun).
    apply bind_Return_inv in Hrun as ([] & w2' & Hsave & Hrun).
    unfold ret in Hrun. injection Hrun as <- <-.
    destruct (while_returns_episode lib agent env render true fuel
                {| observation := obs; score := 0; done := false;
                   frames := [] |} s w0 w1 eq_refl Hloop)
      as (rewards & Hep & Hsum & _).
    apply episode_filmed in Hep as (steps & Hfilm & -> & Hfs).
    simpl in Hfs, Hsum. rewrite Hfs in Hsave.
    exists obs, w0, steps, w1. auto.
Qed.

(** Two steps of the environment whose rendering is the number of steps
    taken: the frames are 1 and 2, the score is 2. *)
Lemma simulate_agent_films_every_step_witness :
  simulate_agent film_lib 10 (network_at 0) (counting_env 2) false true
    (Some "run.gif"%string) stub_world
  = Return (total (map fst [(1, 1%nat); (1, 2%nat)]))
      (set_ext 2%nat stub_world).
Proof.
  apply (proj1 (simulate_agent_films_every_step film_lib 10 (network_at 0)
                  (counting_env 2) false (Some "run.gif"%string) stub_world)
           tt (set_ext 0%nat stub_world) [(1, 1%nat); (1, 2%nat)]
           (set_ext 2%nat stub_world) (set_ext 2%nat stub_world)).
  - reflexivity.
  - eapply filmed_more;
      [reflexivity | reflexivity | reflexivity | reflexivity |].
    eapply filmed_last; reflexivity.
  - reflexivity.
  - simpl. lia.
Defined.

Lemma save_frames_no_name {E Frame Patch Anim} (plt : Plt E Frame Patch Anim)
    (frames : list Frame) (path : string) (w : world E) :
  plots plt -> frames <> [] ->
  save_frames_as_gif_body plt frames path None w = Raise (Foreign "TypeError").
Proof.
  intros (Hfig & Hshow & Haxis & Hanim) Hne.
  destruct frames as [|f frames]; [contradiction|].
  unfold save_frames_as_gif_body.
  run (py_index_Return (f :: frames) 0 f w eq_refl).
  run (py_index_Return (f :: frames) 0 f w eq_refl).
  match goal with
  | |- context [plt_figure plt ?size ?dpi] =>
      destruct (Hfig size dpi w) as (w1 & H1)
  end.
  run H1. run (py_index_Return (f :: frames) 0 f w1 eq_refl).
  destruct (Hshow f w1) as (patch & w2 & H2). run H2.
  destruct (Haxis "off"%string w2) as (w3 & H3). run H3.
  destruct (Hanim patch (f :: frames) (length (f :: frames)) 50%nat w3)
    as (anim & w4 & H4).
  run H4. reflexivity.
Qed.

(** X21. [save_frames_as_gif] at its edges: on an empty list of frames it
    raises [IndexError] before anything is plotted ([frames[0]]); and with
    [None] for a file name it raises [TypeError] at [path + filename],
    after the figure and the animation have been set up and before
    anything is saved. *)
Theorem save_frames_as_gif_edges {E Frame Patch Anim}
    (plt : Plt E Frame Patch Anim) (frames : list Frame) (path : string)
    (filename : option string) (w : world E) :
  (frames = [] ->
   save_frames_as_gif_body plt frames path filename w = Raise IndexError)
  /\ (plots plt -> frames <> [] -> filename = None ->
      save_frames_as_gif_body plt frames path filename w
      = Raise (Foreign "TypeError")).
Proof.
  split.
  - intros ->. reflexivity.
  - intros Hplt Hne ->. apply save_frames_no_name; assumption.
Qed.

Lemma save_frames_as_gif_edges_witness :
  save_frames_as_gif_body stub_plt [tt; tt] "./gifs/" None stub_world
  = Raise (Foreign "TypeError").
Proof.
  apply (proj2 (save_frames_as_gif_edges stub_plt [tt; tt] "./gifs/" None
                  stub_world)).
  - repeat split; intros; repeat eexists.
  - discriminate.
  - reflexivity.
Defined.

(** X22. [simulate_agent] with [savetofile=True] and the file name left at
    its default [None] never returns a score: when the rollout ends (and
    the plotting calls return), the call [save_frames_as_gif(frames,
    path='./gifs/', filename=None)] raises [TypeError], and the score of
    the rollout is lost with it. *)
Theorem simulate_agent_default_filename {E Obs Frame Patch Anim}
    (plt : Plt E Frame Patch Anim) (lib : Lib E Obs Frame) (fuel : nat)
    (agent : MLPClassifier) (env : Env E Obs Frame) (render : bool)
    (w : world E) (obs : Obs) (w0 : world E) (rewards : list Q)
    (fs : list Frame) (w1 : world E) :
  plots plt ->
  env_reset env w = Return obs w0 ->
  episode (with_gif plt lib) agent env render true obs [] w0 rewards fs w1 ->
  (length rewards <= fuel)%nat ->
  simulate_agent (with_gif plt lib) fuel agent env render true None w
  = Raise (Foreign "TypeError").
Proof.
  intros Hplt Hreset Hep Hfuel. unfold simulate_agent. run Hreset.
  destruct (while_follows_episode _ _ _ _ _ _ _ _ _ _ _ Hep 0 fuel Hfuel)
    as (obs' & Hloop).
  run Hloop. apply bind_Raise. simpl frames.
  apply (save_frames_no_name plt fs "./gifs/" w1 Hplt).
  destruct (episode_appends _ _ _ _ _ _ _ _ _ _ _ Hep)
    as (more & -> & Hlen & Hpos).
  intros Hnil. simpl in Hnil. subst more. simpl in Hlen. lia.
Qed.

(** Two steps of the countdown environment, recorded, and no file name. *)
Lemma simulate_agent_default_filename_witness :
  simulate_agent (with_gif stub_plt stub_lib) 10 (network_at 0)
    (countdown_env 2) false true None stub_world
  = Raise (Foreign "TypeError").
Proof.
  apply (simulate_agent_default_filename stub_plt stub_lib 10 (network_at 0)
           (countdown_env 2) false stub_world tt stub_world [1; 1] [tt; tt]
           (set_ext 2%nat stub_world)).
  - repeat split; intros; repeat eexists.
  - reflexivity.
  - eapply episode_more; [reflexivity | reflexivity | reflexivity |].
    eapply episode_last; reflexivity.
  - simpl. lia.
Defined.

(** ** Simulation without saving *)

Section WithoutSaving.
Context {E Obs Frame : Type}.
Variables (lib lib' : Lib E Obs Frame) (agent : MLPClassifier)
  (env env' : Env E Obs Frame) (render : bool).
Hypothesis same_predict :
  forall obs w, predict lib' agent obs w = predict lib agent obs w.
Hypothesis same_step :
  forall action w, env_step env' action w = env_step env action w.
Hypothesis same_show :
  forall w, env_render env' None w = env_render env None w.

Lemma interact_without_saving (s : locals Obs Frame) (w : world E) :
  interact lib' agent env' render false s w
  = interact lib agent env render false s w.
Proof.
  unfold interact, bind. rewrite same_predict.
  destruct (predict lib agent (observation s) w) as [action w1| |];
    try reflexivity.
  rewrite same_step.
  destruct (env_step env action w1) as [r w2| |]; try reflexivity.
  unfold record_and_render, bind, ret. destruct render; [|reflexivity].
  rewrite same_show. reflexivity.
Qed.

Lemma while_without_saving (fuel : nat) :
  forall (s : locals Obs Frame) (w : world E),
    while_not_done fuel (interact lib' agent env' render false) s w
    = while_not_done fuel (interact lib agent env render false) s w.
Proof.
  induction fuel as [|fuel IH]; intros s w; simpl;
    destruct (done s); try reflexivity.
  unfold bind. rewrite interact_without_saving.
  destruct (interact lib agent env render false s w) as [s' w'| |];
    try reflexivity.
  apply IH.
Qed.

End WithoutSaving.

(** X25. Without [savetofile], [simulate_agent] neither renders a frame nor
    saves anything: its outcome, the world it leaves included, is the same
    whatever [save_frames_as_gif] and [env.render(mode=...)] would do, for
    any two sets of collaborators that agree on [agent.predict],
    [env.reset], [env.step] and the plain [env.render()]. *)
Theorem simulate_agent_without_saving {E Obs Frame}
    (lib lib' : Lib E Obs Frame) (fuel : nat) (agent : MLPClassifier)
    (env env' : Env E Obs Frame) (render : bool) (filename : option string)
    (w : world E) :
  (forall obs w0, predict lib' agent obs w0 = predict lib agent obs w0) ->
  (forall w0, env_reset env' w0 = env_reset env w0) ->
  (forall action w0, env_step env' action w0 = env_step env action w0) ->
  (forall w0, env_render env' None w0 = env_render env None w0) ->
  simulate_agent lib' fuel agent env' render false filename w
  = simulate_agent lib fuel agent env render false filename w.
Proof.
  intros Hp Hreset Hs Hr. unfold simulate_agent, bind. rewrite Hreset.
  destruct (env_reset env w) as [obs w0| |]; try reflexivity.
  rewrite (while_without_saving lib lib' agent env env' render Hp Hs Hr).
  reflexivity.
Qed.

(** The five-step environment with and without a display, the animation
    writer of the module against one that does nothing. *)
Lemma simulate_agent_without_saving_witness :
  simulate_agent (with_gif stub_plt stub_lib) 10 (network_at 0) (blind_env 5)
    true false None stub_world
  = simulate_agent stub_lib 10 (network_at 0) (countdown_env 5)
      true false None stub_world.
Proof.
  apply (simulate_agent_without_saving stub_lib (with_gif stub_plt stub_lib)
           10 (network_at 0) (countdown_env 5) (blind_env 5) true None
           stub_world);
    intros; reflexivity.
Defined.

(** ** The centroid of no network *)

(** X23. [average_weight_and_bias] on the empty population raises nothing:
    [np.mean] of the empty block is the scalar [nan], four times, no array
    is built, [create_new_network] is called once, and the network returned
    has [coefs_ = [nan, nan]] and [intercepts_ = [nan, nan]]. *)
Theorem average_of_no_network {E Obs Frame} (lib : Lib E Obs Frame)
    (env : Env E Obs Frame) (w : world E) (a : MLPClassifier)
    (w1 : world E) :
  create_new_network lib env w = Return a w1 ->
  average_weight_and_bias lib [] env w
  = Return {| mean_coefs_ := [MeanScalar NaN; MeanScalar NaN];
              mean_intercepts_ := [MeanScalar NaN; MeanScalar NaN] |} w1.
Proof.
  intros Hcreate. unfold average_weight_and_bias.
  assert (Hmean : forall attr i (w0 : world E),
             find_mean (E:=E) [] attr i w0 = Return (MeanScalar NaN) w0)
    by reflexivity.
  run (Hmean coefs_ 0%nat w). run (Hmean coefs_ 1%nat w).
  run (Hmean intercepts_ 0%nat w). run (Hmean intercepts_ 1%nat w).
  run Hcreate. reflexivity.
Qed.

Lemma average_of_no_network_witness :
  average_weight_and_bias stub_lib [] (countdown_env 5) stub_world
  = Return {| mean_coefs_ := [MeanScalar NaN; MeanScalar NaN];
              mean_intercepts_ := [MeanScalar NaN; MeanScalar NaN] |}
      (set_mem (constant_buffers 0) stub_world).
Proof.
  apply (average_of_no_network stub_lib (countdown_env 5) stub_world
           (network_at 0) (set_mem (constant_buffers 0) stub_world)).
  reflexivity.
Defined.
